(** * PEhash (totalhash_service): a shallow embedding of [_get_pehash]

    The service computes the PEhash clustering fingerprint of a PE image
    (src/totalhash_service/__init__.py, lines 259-336).  The embedding
    follows the Python line by line: every [bitstring.BitArray] is a list
    of booleans, most significant bit first, every exception of the
    libraries is a [Raise], the accumulated [pehash_bin] is threaded
    through the section loop, and [hashlib.sha1] is SHA-1 itself. *)

From Stdlib Require Import Strings.String Strings.Ascii Strings.Byte.
From Stdlib Require Import List NArith ZArith Bool Lia PeanoNat.
From Stdlib Require Import Floats.SpecFloat.
Import ListNotations.

(** ** Python exceptions as an error monad *)

Inductive exn : Set := ValueError | OverflowError | ZeroDivisionError.

Inductive result (A : Type) : Type :=
| Ok (a : A)
| Raise (e : exn).

Arguments Ok {A} a.
Arguments Raise {A} e.

Definition bind {A B : Type} (m : result A) (k : A -> result B) : result B :=
  match m with
  | Ok a => k a
  | Raise e => Raise e
  end.

Notation "x <- m ;; k" := (bind m (fun x => k))
  (at level 61, m at next level, right associativity).

Lemma Ok_inj (A : Type) (a b : A) : Ok a = Ok b -> a = b.
Proof. intros H. now injection H. Qed.

(** ** The fragment of the [bitstring] library that the service uses *)

Module bitstring.

(** A [BitArray]: the bits in reading order, bit 0 is the most significant. *)
Definition BitArray : Set := list bool.

(** [be_bits w v]: the [w] low-order bits of [v], most significant first. *)
Fixpoint be_bits (w : nat) (v : N) : BitArray :=
  match w with
  | O => []
  | S w' => N.testbit v (N.of_nat w') :: be_bits w' v
  end.

(** Number of digits that Python's [hex] prints after the [0x] prefix:
    no leading zero, one digit for zero. *)
Definition hex_len (v : N) : nat :=
  match v with
  | N0 => 1
  | Npos p => (Pos.size_nat p + 3) / 4
  end.

(** [BitArray(hex(v))]: the initialiser reads a string that starts with
    [0x] as hexadecimal, four bits for each digit.  The header fields are
    Python ints ([pefile] unpacks them with [struct]), so [hex] prints no
    [L] suffix. *)
Definition of_hex (v : N) : BitArray := be_bits (4 * hex_len v) v.

(** One byte from up to eight leading bits, missing bits read as zero. *)
Definition msb_byte (b : BitArray) : byte :=
  Byte.of_bits
    (nth 7 b false, (nth 6 b false, (nth 5 b false, (nth 4 b false,
    (nth 3 b false, (nth 2 b false, (nth 1 b false, nth 0 b false))))))).

(** [b.tobytes()]: the bits packed into bytes, the last byte padded on
    the right with zero bits. *)
Fixpoint tobytes (b : BitArray) : list byte :=
  match b with
  | [] => []
  | _ :: _ :: _ :: _ :: _ :: _ :: _ :: _ :: r => msb_byte b :: tobytes r
  | _ => [msb_byte b]
  end.

Definition byte_bits (x : byte) : BitArray :=
  let '(b0, (b1, (b2, (b3, (b4, (b5, (b6, b7))))))) := Byte.to_bits x in
  [b7; b6; b5; b4; b3; b2; b1; b0].

(** [BitArray(bytes=l)]. *)
Definition of_bytes (l : list byte) : BitArray := flat_map byte_bits l.

(** [b[start:stop]] for non-negative bounds; Python clamps both bounds to
    the length and gives the empty array when [stop <= start]. *)
Definition slice (b : BitArray) (start stop : nat) : BitArray :=
  firstn (stop - start) (skipn start b).

Fixpoint xor_bits (a b : BitArray) : BitArray :=
  match a, b with
  | x :: a', y :: b' => xorb x y :: xor_bits a' b'
  | _, _ => []
  end.

(** [a ^ b]: bitstring raises [ValueError] unless both have one length. *)
Definition xor (a b : BitArray) : result BitArray :=
  if Nat.eqb (length a) (length b) then Ok (xor_bits a b) else Raise ValueError.

(** [b.bin]: the bits as a string of the characters 0 and 1. *)
Fixpoint bin (b : BitArray) : string :=
  match b with
  | [] => EmptyString
  | x :: r => String (if x then "1"%char else "0"%char) (bin r)
  end.

(** [BitArray(bin=s)]: any other character is a [CreationError], which
    is a [ValueError]. *)
Fixpoint of_bin (s : string) : result BitArray :=
  match s with
  | EmptyString => Ok []
  | String c r =>
      if Ascii.eqb c "0"%char then r' <- of_bin r ;; Ok (false :: r')
      else if Ascii.eqb c "1"%char then r' <- of_bin r ;; Ok (true :: r')
      else Raise ValueError
  end.

End bitstring.

Import bitstring.

(** ** [string.zfill] *)

Fixpoint zeros (n : nat) : string :=
  match n with
  | O => EmptyString
  | S n' => String "0"%char (zeros n')
  end.

(** [string.zfill(s, width)]: zeros on the left up to [width], after a
    leading sign when there is one. *)
Definition zfill (s : string) (width : nat) : string :=
  let pad := width - String.length s in
  match s with
  | String c r =>
      if orb (Ascii.eqb c "+"%char) (Ascii.eqb c "-"%char)
      then String c (zeros pad ++ r)%string
      else (zeros pad ++ s)%string
  | EmptyString => zeros pad
  end.

(** ** Python floats and [struct.pack('>f', k)] *)

Module pyfloat.

(** Python floats are binary64; [bitstring] packs a 32-bit float with
    [struct.pack], which rounds to binary32 (nearest, ties to even). *)
Definition float := spec_float.

(** [a / b] on non-negative integers under [from __future__ import
    division]: the correctly rounded quotient. *)
Definition true_divide (a b : N) : result float :=
  match a, b with
  | _, N0 => Raise ZeroDivisionError
  | N0, Npos _ => Ok (S754_zero false)
  | Npos pa, Npos pb =>
      match SFdiv 53 1024 (S754_finite false pa 0) (S754_finite false pb 0) with
      | S754_infinity _ => Raise OverflowError
      | q => Ok q
      end
  end.

(** The float of a Python integer literal. *)
Definition of_int (n : N) : float := binary_normalize 53 1024 (Z.of_N n) 0 false.

Definition sign_bit (s : bool) : N := if s then 0x80000000%N else 0%N.

(** The binary32 word of [struct.pack('>f', k)]; a finite [k] that rounds
    to infinity is an [OverflowError]. *)
Definition pack_f (k : float) : result N :=
  match k with
  | S754_zero s => Ok (sign_bit s)
  | S754_infinity s => Ok (sign_bit s + 0x7F800000)%N
  | S754_nan => Ok 0x7FC00000%N
  | S754_finite s m e =>
      match binary_round 24 128 s m e with
      | S754_finite s' m' e' =>
          if (8388608 <=? Zpos m')%Z
          then Ok (sign_bit s' + N.shiftl (Z.to_N (e' + 150)) 23 + (Npos m' - 8388608))%N
          else Ok (sign_bit s' + Npos m')%N
      | S754_zero s' => Ok (sign_bit s')
      | _ => Raise OverflowError
      end
  end.

End pyfloat.

(** [BitArray(float=k, length=32)]. *)
Definition of_float32 (k : pyfloat.float) : result BitArray :=
  w <- pyfloat.pack_f k ;; Ok (be_bits 32 w).

(** ** [hashlib.sha1]: SHA-1 (FIPS 180-4) on byte strings *)

Module hashlib.

Local Open Scope N_scope.

Definition mask32 : N := 0xFFFFFFFF.
Definition add32 (a b : N) : N := N.land (a + b) mask32.
Definition rotl32 (n x : N) : N :=
  N.land (N.lor (N.shiftl x n) (N.shiftr x (32 - n))) mask32.
Definition not32 (x : N) : N := N.lxor x mask32.

Definition byte_of_N (n : N) : byte :=
  match Byte.of_N (N.land n 255) with
  | Some b => b
  | None => x00
  end.

(** [w] bytes of [n], most significant first. *)
Fixpoint be_bytes (w : nat) (n : N) : list byte :=
  match w with
  | O => []
  | S w' => byte_of_N (N.shiftr n (8 * N.of_nat w')) :: be_bytes w' n
  end.

Definition be_word (l : list byte) : N :=
  fold_left (fun acc b => acc * 256 + Byte.to_N b) l 0.

Fixpoint chunks {A : Type} (k fuel : nat) (l : list A) : list (list A) :=
  match fuel with
  | O => []
  | S fuel' =>
      match l with
      | [] => []
      | _ => firstn k l :: chunks k fuel' (skipn k l)
      end
  end.

(** The message with the 1 bit, the zero bytes and the 64-bit length. *)
Definition pad (msg : list byte) : list byte :=
  let len := length msg in
  (msg ++ x80 :: repeat x00 ((119 - len mod 64) mod 64)
       ++ be_bytes 8 (8 * N.of_nat len))%list.

(** The message schedule, newest word first. *)
Fixpoint expand (n : nat) (rw : list N) : list N :=
  match n with
  | O => rw
  | S n' =>
      expand n'
        (rotl32 1 (N.lxor (N.lxor (N.lxor (nth 2 rw 0) (nth 7 rw 0))
                                  (nth 13 rw 0)) (nth 15 rw 0)) :: rw)
  end.

Definition schedule (block : list byte) : list N :=
  rev (expand 64 (rev (map be_word (chunks 4 16 block)))).

Definition state : Set := (N * N * N * N * N)%type.

Definition round (st : state) (tw : nat * N) : state :=
  let '(a, b, c, d, e) := st in
  let '(t, w) := tw in
  let '(f, k) :=
    if Nat.ltb t 20 then (N.lor (N.land b c) (N.land (not32 b) d), 0x5A827999)
    else if Nat.ltb t 40 then (N.lxor (N.lxor b c) d, 0x6ED9EBA1)
    else if Nat.ltb t 60
         then (N.lor (N.lor (N.land b c) (N.land b d)) (N.land c d), 0x8F1BBCDC)
         else (N.lxor (N.lxor b c) d, 0xCA62C1D6) in
  (add32 (add32 (add32 (add32 (rotl32 5 a) f) e) k) w, a, rotl32 30 b, c, d).

Definition compress (h : state) (block : list byte) : state :=
  let '(a, b, c, d, e) :=
    fold_left round (combine (seq 0 80) (schedule block)) h in
  let '(h0, h1, h2, h3, h4) := h in
  (add32 h0 a, add32 h1 b, add32 h2 c, add32 h3 d, add32 h4 e).

Definition init : state :=
  (0x67452301, 0xEFCDAB89, 0x98BADCFE, 0x10325476, 0xC3D2E1F0).

(** [hashlib.sha1(msg).digest()]. *)
Definition sha1 (msg : list byte) : list byte :=
  let p := pad msg in
  let '(h0, h1, h2, h3, h4) := fold_left compress (chunks 64 (length p) p) init in
  (be_bytes 4 h0 ++ be_bytes 4 h1 ++ be_bytes 4 h2 ++ be_bytes 4 h3
     ++ be_bytes 4 h4)%list.

Definition hex_char (n : N) : ascii :=
  match n with
  | 0 => "0" | 1 => "1" | 2 => "2" | 3 => "3" | 4 => "4" | 5 => "5"
  | 6 => "6" | 7 => "7" | 8 => "8" | 9 => "9" | 10 => "a" | 11 => "b"
  | 12 => "c" | 13 => "d" | 14 => "e" | _ => "f"
  end%char.

Fixpoint hex_of_bytes (l : list byte) : string :=
  match l with
  | [] => EmptyString
  | b :: r =>
      String (hex_char (Byte.to_N b / 16))
        (String (hex_char (Byte.to_N b mod 16)) (hex_of_bytes r))
  end.

(** [hashlib.sha1(msg).hexdigest()]. *)
Definition hexdigest (msg : list byte) : string := hex_of_bytes (sha1 msg).

End hashlib.

(** The test vectors of FIPS 180 for the empty message and for [abc]. *)
Example sha1_empty :
  hashlib.hexdigest [] = "da39a3ee5e6b4b0d3255bfef95601890afd80709"%string.
Proof. vm_compute. reflexivity. Qed.

Example sha1_abc :
  hashlib.hexdigest ["a"%byte; "b"%byte; "c"%byte]
  = "a9993e364706816aba3e25717850c26c9cd0d89d"%string.
Proof. vm_compute. reflexivity. Qed.

(** [struct.pack('>f', 1.0)] is 3f800000 and [struct.pack('>f', 1 / 3)] is
    3eaaaaab. *)
Example pack_f_one : pyfloat.pack_f (pyfloat.of_int 1) = Ok 0x3F800000%N.
Proof. reflexivity. Qed.

Example pack_f_third :
  (k <- pyfloat.true_divide 1 3 ;; pyfloat.pack_f k) = Ok 0x3EAAAAAB%N.
Proof. vm_compute. reflexivity. Qed.

(** ** The parsed image, with the fields [pefile] exposes *)

Module FILE_HEADER.
Record t : Set := { Characteristics : N; Machine : N }.
End FILE_HEADER.

Module OPTIONAL_HEADER.
Record t : Set := { SizeOfStackCommit : N; SizeOfHeapCommit : N }.
End OPTIONAL_HEADER.

Module SECTION.
Record t : Set :=
  { VirtualAddress : N; SizeOfRawData : N; Characteristics : N }.
End SECTION.

(** [write] is the byte string that [exe.write()] returns. *)
Record PE : Set :=
  { FILE_HEADER : FILE_HEADER.t;
    OPTIONAL_HEADER : OPTIONAL_HEADER.t;
    sections : list SECTION.t;
    write : list byte }.

Definition u16 (v : N) : Prop := (v < 2 ^ 16)%N.
Definition u32 (v : N) : Prop := (v < 2 ^ 32)%N.

Definition valid_section (s : SECTION.t) : Prop :=
  u32 (SECTION.VirtualAddress s) /\ u32 (SECTION.SizeOfRawData s)
  /\ u32 (SECTION.Characteristics s).

(** The field widths of the PE format. *)
Definition valid_PE (exe : PE) : Prop :=
  u16 (FILE_HEADER.Characteristics (FILE_HEADER exe))
  /\ u16 (FILE_HEADER.Machine (FILE_HEADER exe))
  /\ u32 (OPTIONAL_HEADER.SizeOfStackCommit (OPTIONAL_HEADER exe))
  /\ u32 (OPTIONAL_HEADER.SizeOfHeapCommit (OPTIONAL_HEADER exe))
  /\ Forall valid_section (sections exe).

(** ** [TotalHashService] *)

Section TotalHashService.

(** [bz2.compress]. *)
Variable bz2_compress : list byte -> list byte.

(** Lines 261-264 and 270-273: the fold of a file-header field. *)
Definition xor_fold16 (v : N) : result BitArray :=
  let chars := of_hex v in
  (* pad to 16 bits *)
  let chars := of_bytes (tobytes chars) in
  xor (slice chars 0 7) (slice chars 8 15).

Definition img_chars_xor (exe : PE) : result BitArray :=
  xor_fold16 (FILE_HEADER.Characteristics (FILE_HEADER exe)).

Definition sub_chars_xor (exe : PE) : result BitArray :=
  xor_fold16 (FILE_HEADER.Machine (FILE_HEADER exe)).

(** Lines 277-283 and 287-293: the fold of a commit size. *)
Definition xor_fold32 (v : N) : result BitArray :=
  let size := of_hex v in
  let size_bits := zfill (bin size) 32 in
  (* now xor the bits *)
  size <- of_bin size_bits ;;
  x <- xor (slice size 8 15) (slice size 16 23) ;;
  size_xor <- xor x (slice size 24 31) ;;
  (* pad to 8 bits *)
  Ok (of_bytes (tobytes size_xor)).

Definition stk_size_xor (exe : PE) : result BitArray :=
  xor_fold32 (OPTIONAL_HEADER.SizeOfStackCommit (OPTIONAL_HEADER exe)).

Definition hp_size_xor (exe : PE) : result BitArray :=
  xor_fold32 (OPTIONAL_HEADER.SizeOfHeapCommit (OPTIONAL_HEADER exe)).

(** Lines 299-300. *)
Definition sect_va (section : SECTION.t) : BitArray :=
  let sect_va := of_hex (SECTION.VirtualAddress section) in
  of_bytes (tobytes sect_va).

(** Lines 304-309. *)
Definition sect_rs_bits (section : SECTION.t) : result BitArray :=
  let sect_rs := of_hex (SECTION.SizeOfRawData section) in
  let sect_rs := of_bytes (tobytes sect_rs) in
  let sect_rs_bits := zfill (bin sect_rs) 32 in
  sect_rs <- of_bin sect_rs_bits ;;
  let sect_rs := of_bytes (tobytes sect_rs) in
  Ok (slice sect_rs 8 31).

(** Lines 313-315. *)
Definition sect_chars_xor (section : SECTION.t) : result BitArray :=
  let sect_chars := of_hex (SECTION.Characteristics section) in
  let sect_chars := of_bytes (tobytes sect_chars) in
  xor (slice sect_chars 16 23) (slice sect_chars 24 31).

(** Lines 319-330: the 32-bit float whose leading bits are appended. *)
Definition kolmog (exe : PE) (section : SECTION.t) : result BitArray :=
  let address := SECTION.VirtualAddress section in
  let size := SECTION.SizeOfRawData section in
  let raw := skipn (N.to_nat (address + size)) (write exe) in
  if (size =? 0)%N
  then of_float32 (pyfloat.of_int 1)
  else
    let bz2_raw := bz2_compress raw in
    let bz2_size := N.of_nat (length bz2_raw) in
    k <- pyfloat.true_divide bz2_size size ;;
    of_float32 k.

(** Lines 297-331: the loop, with [pehash_bin] as its accumulator. *)
Fixpoint section_loop (exe : PE) (pehash_bin : BitArray)
    (todo : list SECTION.t) : result BitArray :=
  match todo with
  | [] => Ok pehash_bin
  | section :: rest =>
      let pehash_bin := pehash_bin ++ sect_va section in
      sect_rs_bits <- sect_rs_bits section ;;
      let pehash_bin := pehash_bin ++ sect_rs_bits in
      sect_chars_xor <- sect_chars_xor section ;;
      let pehash_bin := pehash_bin ++ sect_chars_xor in
      kolmog <- kolmog exe section ;;
      let pehash_bin := pehash_bin ++ slice kolmog 0 7 in
      section_loop exe pehash_bin rest
  end.

(** Lines 259-331: the bit string that is hashed. *)
Definition pehash_bin (exe : PE) : result BitArray :=
  img_chars_xor <- img_chars_xor exe ;;
  (* start to build pehash *)
  let pehash_bin := img_chars_xor in
  sub_chars_xor <- sub_chars_xor exe ;;
  let pehash_bin := pehash_bin ++ sub_chars_xor in
  stk_size_xor <- stk_size_xor exe ;;
  let pehash_bin := pehash_bin ++ stk_size_xor in
  hp_size_xor <- hp_size_xor exe ;;
  let pehash_bin := pehash_bin ++ hp_size_xor in
  section_loop exe pehash_bin (sections exe).

(** Lines 259-336: the value reported as [PEhash value]. *)
Definition _get_pehash (exe : PE) : result string :=
  pehash_bin <- pehash_bin exe ;;
  let output := hashlib.hexdigest (tobytes pehash_bin) in
  Ok output.

(** What [pefile.PE(data=context.data)] gives. *)
Inductive parsed : Set :=
| PEFormatError
| Parsed (pe : PE).

Inductive outcome : Set :=
| Error_reported
| PEhash_value (output : string)
| Uncaught (e : exn).

(** Lines 62-68: only [PEFormatError] is caught. *)
Definition _scan (p : parsed) : outcome :=
  match p with
  | PEFormatError => Error_reported
  | Parsed pe =>
      match _get_pehash pe with
      | Ok output => PEhash_value output
      | Raise e => Uncaught e
      end
  end.

End TotalHashService.

(** * Properties *)

(** ** Big-endian bit lists *)

Section BeBits.

Local Open Scope N_scope.

Lemma be_bits_length (w : nat) (v : N) : length (be_bits w v) = w.
Proof. induction w as [|w IH]; simpl; [reflexivity | now rewrite IH]. Qed.

Lemma be_bits_ext (w : nat) (x y : N) :
  (forall i : nat, (i < w)%nat -> N.testbit x (N.of_nat i) = N.testbit y (N.of_nat i)) ->
  be_bits w x = be_bits w y.
Proof.
  induction w as [|w IH]; intros H; simpl; [reflexivity|].
  f_equal; [apply H; lia | apply IH; intros i Hi; apply H; lia].
Qed.

Lemma testbit_above (v : N) (n m : N) : v < 2 ^ n -> n <= m -> N.testbit v m = false.
Proof.
  intros Hv Hm. rewrite <- (N.mod_small v (2 ^ n)) by assumption.
  now apply N.mod_pow2_bits_high.
Qed.

Lemma be_bits_zero (k : nat) (x : N) :
  (forall i : nat, (i < k)%nat -> N.testbit x (N.of_nat i) = false) ->
  be_bits k x = repeat false k.
Proof.
  induction k as [|k IH]; intros H; simpl; [reflexivity|].
  f_equal; [apply H; lia | apply IH; intros i Hi; apply H; lia].
Qed.

(** Zero bits appended on the right shift the value. *)
Lemma be_bits_app_zeros (w k : nat) (v : N) :
  (be_bits w v ++ repeat false k)%list = be_bits (w + k) (N.shiftl v (N.of_nat k)).
Proof.
  induction w as [|w IH]; simpl.
  - symmetry. apply be_bits_zero. intros i Hi.
    apply N.shiftl_spec_low. lia.
  - rewrite IH. f_equal.
    rewrite N.shiftl_spec_high' by lia. f_equal. lia.
Qed.

(** Zero bits on the left leave the value alone. *)
Lemma be_bits_zero_prefix (k w : nat) (v : N) :
  v < 2 ^ N.of_nat w ->
  be_bits (k + w) v = (repeat false k ++ be_bits w v)%list.
Proof.
  intros Hv. induction k as [|k IH]; simpl; [reflexivity|].
  rewrite IH. f_equal.
  apply testbit_above with (n := N.of_nat w); [assumption | lia].
Qed.

Lemma skipn_be_bits (a w : nat) (v : N) :
  skipn a (be_bits w v) = be_bits (w - a) v.
Proof.
  revert w; induction a as [|a IH]; intros w.
  - now rewrite Nat.sub_0_r.
  - destruct w as [|w]; simpl; [reflexivity | apply IH].
Qed.

Lemma firstn_be_bits (n w : nat) (v : N) :
  (n <= w)%nat ->
  firstn n (be_bits w v) = be_bits n (N.shiftr v (N.of_nat (w - n))).
Proof.
  revert w; induction n as [|n IH]; intros w Hw; [reflexivity|].
  destruct w as [|w]; [lia|]. simpl.
  rewrite IH by lia. f_equal.
  rewrite N.shiftr_spec'. f_equal. lia.
Qed.

(** A slice of a [w]-bit number is a shifted number. *)
Lemma slice_be_bits (w a b : nat) (v : N) :
  (a <= b <= w)%nat ->
  slice (be_bits w v) a b = be_bits (b - a) (N.shiftr v (N.of_nat (w - b))).
Proof.
  intros H. unfold slice. rewrite skipn_be_bits, firstn_be_bits by lia.
  do 3 f_equal. lia.
Qed.

Lemma xor_bits_be_bits (n : nat) (x y : N) :
  xor_bits (be_bits n x) (be_bits n y) = be_bits n (N.lxor x y).
Proof.
  induction n as [|n IH]; simpl; [reflexivity|].
  now rewrite IH, N.lxor_spec.
Qed.

Lemma xor_be_bits (n : nat) (x y : N) :
  xor (be_bits n x) (be_bits n y) = Ok (be_bits n (N.lxor x y)).
Proof.
  unfold xor. rewrite !be_bits_length, Nat.eqb_refl.
  now rewrite xor_bits_be_bits.
Qed.

Lemma xor_bits_length (a b : BitArray) :
  length (xor_bits a b) = Nat.min (length a) (length b).
Proof.
  revert b; induction a as [|x a IH]; intros [|y b]; simpl; auto.
Qed.

Lemma xor_length (a b c : BitArray) :
  xor a b = Ok c -> length a = length b /\ length c = length a.
Proof.
  unfold xor. destruct (Nat.eqb_spec (length a) (length b)) as [E|E];
    [|discriminate].
  intros H; injection H as <-. split; [assumption|].
  rewrite xor_bits_length. lia.
Qed.

End BeBits.

(** ** Bytes and bits *)

Definition pad8 (n : nat) : nat := (8 - n mod 8) mod 8.

Lemma pad8_lt (n : nat) : pad8 n < 8.
Proof. unfold pad8. apply Nat.mod_upper_bound. lia. Qed.

Lemma pad8_add8 (n : nat) : pad8 (8 + n) = pad8 n.
Proof.
  unfold pad8. replace (8 + n) with (n + 1 * 8) by lia.
  now rewrite Nat.Div0.mod_add.
Qed.

Lemma list_ind8 (A : Type) (P : list A -> Prop) :
  (forall b, length b < 8 -> P b) ->
  (forall x0 x1 x2 x3 x4 x5 x6 x7 r,
      P r -> P (x0 :: x1 :: x2 :: x3 :: x4 :: x5 :: x6 :: x7 :: r)) ->
  forall b, P b.
Proof.
  intros Hshort Hstep b.
  remember (length b) as n eqn:En. revert b En.
  induction n as [n IH] using (well_founded_induction lt_wf).
  intros b En.
  destruct b as [|x0 [|x1 [|x2 [|x3 [|x4 [|x5 [|x6 [|x7 r]]]]]]]];
    try (apply Hshort; simpl; lia).
  apply Hstep. apply (IH (length r)); [subst n; simpl; lia | reflexivity].
Qed.

Lemma byte_bits_msb_byte (b : BitArray) :
  byte_bits (msb_byte b) =
  [nth 0 b false; nth 1 b false; nth 2 b false; nth 3 b false;
   nth 4 b false; nth 5 b false; nth 6 b false; nth 7 b false].
Proof. unfold byte_bits, msb_byte. now rewrite Byte.to_bits_of_bits. Qed.

(** Reading the packed bytes back gives the bits and the padding. *)
Lemma of_bytes_tobytes (b : BitArray) :
  of_bytes (tobytes b) = b ++ repeat false (pad8 (length b)).
Proof.
  induction b as [b Hb | x0 x1 x2 x3 x4 x5 x6 x7 r IH] using list_ind8.
  - destruct b as [|x0 [|x1 [|x2 [|x3 [|x4 [|x5 [|x6 [|x7 r]]]]]]]];
      try (simpl in Hb; lia); try reflexivity;
      unfold of_bytes; cbn [tobytes flat_map]; rewrite byte_bits_msb_byte;
      reflexivity.
  - change (length (x0 :: x1 :: x2 :: x3 :: x4 :: x5 :: x6 :: x7 :: r))
      with (8 + length r).
    rewrite pad8_add8.
    unfold of_bytes in *. cbn [tobytes flat_map].
    rewrite byte_bits_msb_byte, IH. reflexivity.
Qed.

Lemma of_bytes_length (l : list byte) : length (of_bytes l) = 8 * length l.
Proof.
  induction l as [|x l IH]; [reflexivity|].
  unfold of_bytes in *. cbn [flat_map]. rewrite length_app, IH.
  unfold byte_bits. destruct (Byte.to_bits x) as (b0 & b1 & b2 & b3 & b4 & b5 & b6 & b7).
  simpl. lia.
Qed.

Lemma tobytes_length (b : BitArray) :
  8 * length (tobytes b) = length b + pad8 (length b).
Proof.
  rewrite <- of_bytes_length, of_bytes_tobytes, length_app, repeat_length.
  reflexivity.
Qed.

(** ** Binary strings *)

Lemma bin_length (b : BitArray) : String.length (bin b) = length b.
Proof. induction b as [|x b IH]; simpl; [reflexivity | now rewrite IH]. Qed.

Lemma of_bin_bin (b : BitArray) : of_bin (bin b) = Ok b.
Proof.
  induction b as [|x b IH]; [reflexivity|].
  destruct x; simpl; rewrite IH; reflexivity.
Qed.

Lemma of_bin_zeros (n : nat) (s : string) :
  of_bin (zeros n ++ s) = (r <- of_bin s ;; Ok (repeat false n ++ r)).
Proof.
  induction n as [|n IH]; simpl.
  - destruct (of_bin s); reflexivity.
  - rewrite IH. destruct (of_bin s); reflexivity.
Qed.

Lemma zfill_bin (b : BitArray) (w : nat) :
  zfill (bin b) w = (zeros (w - length b) ++ bin b)%string.
Proof.
  unfold zfill. rewrite bin_length.
  destruct b as [|x b]; simpl.
  - induction (w - 0) as [|n IH]; simpl; [reflexivity | now rewrite <- IH].
  - destruct x; reflexivity.
Qed.

(** [BitArray(bin=string.zfill(b.bin, w))] pads [b] on the left. *)
Lemma of_bin_zfill (b : BitArray) (w : nat) :
  of_bin (zfill (bin b) w) = Ok (repeat false (w - length b) ++ b).
Proof. now rewrite zfill_bin, of_bin_zeros, of_bin_bin. Qed.

(** ** Hexadecimal digits and packing *)

Section Packing.

Local Open Scope N_scope.

Lemma size_nat_bounds (p : positive) :
  2 ^ N.of_nat (Pos.size_nat p) <= 2 * Npos p < 2 * 2 ^ N.of_nat (Pos.size_nat p).
Proof.
  induction p as [p IH | p IH |]; cbn [Pos.size_nat];
    rewrite ?Nat2N.inj_succ, ?N.pow_succ_r'; simpl N.of_nat; simpl N.pow; lia.
Qed.

Lemma hex_len_pos (v : N) : (1 <= hex_len v)%nat.
Proof.
  destruct v as [|p]; cbn [hex_len]; [lia|].
  apply Nat.div_le_lower_bound; [lia|]. destruct p; cbn [Pos.size_nat]; lia.
Qed.

(** The digits of [hex v] hold [v]. *)
Lemma hex_len_bound (v : N) : v < 2 ^ N.of_nat (4 * hex_len v).
Proof.
  destruct v as [|p]; [reflexivity|]. cbn [hex_len].
  pose proof (size_nat_bounds p) as [_ Hs].
  assert (Hle : (Pos.size_nat p <= 4 * ((Pos.size_nat p + 3) / 4))%nat).
  { pose proof (Nat.div_mod_eq (Pos.size_nat p + 3) 4).
    pose proof (Nat.mod_upper_bound (Pos.size_nat p + 3) 4). lia. }
  assert (2 ^ N.of_nat (Pos.size_nat p) <= 2 ^ N.of_nat (4 * ((Pos.size_nat p + 3) / 4))).
  { apply N.pow_le_mono_r; lia. }
  lia.
Qed.

Lemma hex_len_le (v : N) (h : nat) :
  (1 <= h)%nat -> v < 2 ^ N.of_nat (4 * h) -> (hex_len v <= h)%nat.
Proof.
  intros Hh Hv. destruct v as [|p]; [exact Hh|]. cbn [hex_len].
  pose proof (size_nat_bounds p) as [Hs _].
  assert (Hlt : N.of_nat (Pos.size_nat p) < N.succ (N.of_nat (4 * h))).
  { apply (N.pow_lt_mono_r_iff 2); [lia|]. rewrite N.pow_succ_r'. lia. }
  apply Nat.lt_succ_r. apply Nat.Div0.div_lt_upper_bound. lia.
Qed.

Lemma hex_len_gt (v : N) (h : nat) :
  2 ^ N.of_nat (4 * h) <= v -> (h < hex_len v)%nat.
Proof.
  intros Hv. destruct v as [|p].
  - pose proof (N.pow_nonzero 2 (N.of_nat (4 * h))). lia.
  - cbn [hex_len]. pose proof (size_nat_bounds p) as [_ Hs].
    assert (Hlt : N.of_nat (4 * h) < N.of_nat (Pos.size_nat p)).
    { apply (N.pow_lt_mono_r_iff 2); lia. }
    apply Nat.div_le_lower_bound; lia.
Qed.

Lemma hex_len_eq (v : N) (h : nat) :
  2 ^ N.of_nat (4 * h) <= v < 2 ^ N.of_nat (4 * S h) -> hex_len v = S h.
Proof.
  intros [Hlo Hhi].
  apply hex_len_gt in Hlo. apply hex_len_le in Hhi; lia.
Qed.

(** The value and the width of [BitArray(bytes=BitArray(hex(v)).tobytes())]:
    the digits of [v], then zero bits up to the byte boundary. *)
Definition packed (v : N) : N := N.shiftl v (N.of_nat (pad8 (4 * hex_len v))).
Definition packed_len (v : N) : nat := 4 * hex_len v + pad8 (4 * hex_len v).

Lemma pack_of_hex (v : N) :
  of_bytes (tobytes (of_hex v)) = be_bits (packed_len v) (packed v).
Proof.
  unfold of_hex, packed_len, packed.
  now rewrite of_bytes_tobytes, be_bits_length, be_bits_app_zeros.
Qed.

Lemma packed_bound (v : N) : packed v < 2 ^ N.of_nat (packed_len v).
Proof.
  unfold packed, packed_len. rewrite N.shiftl_mul_pow2, Nat2N.inj_add, N.pow_add_r.
  apply N.mul_lt_mono_pos_r; [|apply hex_len_bound].
  pose proof (N.pow_nonzero 2 (N.of_nat (pad8 (4 * hex_len v)))). lia.
Qed.

(** Bits [a] to [b - 1] of a [w]-bit value, bit 0 the most significant,
    as a number. *)
Definition bit_field (w : nat) (p : N) (a b : nat) : N :=
  N.shiftr p (N.of_nat (w - b)) mod 2 ^ N.of_nat (b - a).

Lemma be_bits_mod (n : nat) (x : N) : be_bits n (x mod 2 ^ N.of_nat n) = be_bits n x.
Proof.
  apply be_bits_ext. intros i Hi. apply N.mod_pow2_bits_low. lia.
Qed.

Lemma slice_bit_field (w a b : nat) (v : N) :
  (a <= b <= w)%nat ->
  slice (be_bits w v) a b = be_bits (b - a) (bit_field w v a b).
Proof.
  intros H. unfold bit_field. now rewrite be_bits_mod, slice_be_bits.
Qed.

Lemma bit_field_bound (w : nat) (p : N) (a b : nat) :
  bit_field w p a b < 2 ^ N.of_nat (b - a).
Proof.
  unfold bit_field. apply N.mod_upper_bound. apply N.pow_nonzero. lia.
Qed.

End Packing.

(** ** The folds, as arithmetic on the field values *)

Section Folds.

Local Open Scope N_scope.

Lemma bit_field_low (w k : nat) (p : N) (a b : nat) :
  (w - a <= k)%nat -> (a <= b <= w)%nat ->
  bit_field w (p mod 2 ^ N.of_nat k) a b = bit_field w p a b.
Proof.
  intros Hk Hab. unfold bit_field. apply N.bits_inj. intros i.
  destruct (N.lt_ge_cases i (N.of_nat (b - a))) as [Hi|Hi].
  - rewrite !N.mod_pow2_bits_low, !N.shiftr_spec' by assumption.
    apply N.mod_pow2_bits_low. lia.
  - now rewrite !N.mod_pow2_bits_high.
Qed.

Lemma packed_len_16 (v : N) : 0x100 <= v < 2 ^ 16 -> packed_len v = 16%nat.
Proof.
  intros [Hlo Hhi]. unfold packed_len.
  destruct (N.lt_ge_cases v 0x1000) as [H|H].
  - rewrite (hex_len_eq v 2); [reflexivity | cbn; lia].
  - rewrite (hex_len_eq v 3); [reflexivity | cbn; lia].
Qed.

Lemma packed_len_32 (v : N) : 0x1000000 <= v < 2 ^ 32 -> packed_len v = 32%nat.
Proof.
  intros [Hlo Hhi]. unfold packed_len.
  destruct (N.lt_ge_cases v 0x10000000) as [H|H].
  - rewrite (hex_len_eq v 6); [reflexivity | cbn; lia].
  - rewrite (hex_len_eq v 7); [reflexivity | cbn; lia].
Qed.

Lemma packed_len_le_32 (v : N) : v < 2 ^ 32 -> (packed_len v <= 32)%nat.
Proof.
  intros Hv. pose proof (hex_len_pos v) as H1.
  assert (H8 : (hex_len v <= 8)%nat) by (apply hex_len_le; [lia | exact Hv]).
  unfold packed_len. remember (hex_len v) as h eqn:Eh. clear Eh.
  destruct h as [|[|[|[|[|[|[|[|[|h]]]]]]]]]; cbn; lia.
Qed.

Lemma zfill_be_bits (w n : nat) (v : N) :
  (n <= w)%nat -> v < 2 ^ N.of_nat n ->
  (repeat false (w - n) ++ be_bits n v)%list = be_bits w v.
Proof.
  intros Hn Hv. rewrite <- be_bits_zero_prefix by assumption.
  f_equal. lia.
Qed.

(** Lines 261-264: seven bits, bits 0-6 XOR bits 8-14 of the packed field. *)
Lemma xor_fold16_bits (v : N) :
  0x100 <= v < 2 ^ 16 ->
  xor_fold16 v =
  Ok (be_bits 7 (N.lxor (bit_field 16 (packed v) 0 7) (bit_field 16 (packed v) 8 15))).
Proof.
  intros Hv. unfold xor_fold16.
  rewrite pack_of_hex, (packed_len_16 v Hv), !slice_bit_field by lia.
  apply xor_be_bits.
Qed.

(** Lines 277-283: three 7-bit ranges XORed, then one zero bit. *)
Lemma xor_fold32_bits (v : N) :
  v < 2 ^ 32 ->
  xor_fold32 v =
  Ok (be_bits 7 (N.lxor (N.lxor (bit_field 32 v 8 15) (bit_field 32 v 16 23))
                        (bit_field 32 v 24 31)) ++ [false])%list.
Proof.
  intros Hv. unfold xor_fold32, of_hex.
  assert (H8 : (hex_len v <= 8)%nat) by (apply hex_len_le; [lia | exact Hv]).
  rewrite of_bin_zfill, be_bits_length.
  rewrite zfill_be_bits by (try lia; apply hex_len_bound).
  cbn [bind]. rewrite !slice_bit_field by lia.
  change (15 - 8)%nat with 7%nat. change (23 - 16)%nat with 7%nat.
  change (31 - 24)%nat with 7%nat.
  rewrite xor_be_bits. cbn [bind]. rewrite xor_be_bits. cbn [bind].
  rewrite of_bytes_tobytes, be_bits_length. reflexivity.
Qed.

(** Lines 304-309: 23 bits of the packed raw size. *)
Lemma sect_rs_bits_bits (section : SECTION.t) :
  SECTION.SizeOfRawData section < 2 ^ 32 ->
  sect_rs_bits section =
  Ok (be_bits 23 (bit_field 32 (packed (SECTION.SizeOfRawData section)) 8 31)).
Proof.
  intros Hv. unfold sect_rs_bits.
  rewrite pack_of_hex, of_bin_zfill, be_bits_length.
  rewrite zfill_be_bits by (try apply packed_len_le_32; try apply packed_bound; assumption).
  cbn [bind]. rewrite of_bytes_tobytes, be_bits_length.
  change (pad8 32) with 0%nat. cbn [repeat]. rewrite app_nil_r.
  now rewrite slice_bit_field by lia.
Qed.

(** Lines 313-315: seven bits, bits 16-22 XOR bits 24-30 of the packed field. *)
Lemma sect_chars_xor_bits (section : SECTION.t) :
  0x1000000 <= SECTION.Characteristics section < 2 ^ 32 ->
  sect_chars_xor section =
  Ok (be_bits 7 (N.lxor (bit_field 32 (packed (SECTION.Characteristics section)) 16 23)
                        (bit_field 32 (packed (SECTION.Characteristics section)) 24 31))).
Proof.
  intros Hv. unfold sect_chars_xor.
  rewrite pack_of_hex, (packed_len_32 _ Hv), !slice_bit_field by lia.
  apply xor_be_bits.
Qed.

End Folds.

(** ** The pipeline as a concatenation *)

Section Pipeline.

Variable bz2_compress : list byte -> list byte.

(** The bits that one pass of the loop appends for the entropy:
    [kolmog[0:7]]. *)
Definition entropy (exe : PE) (section : SECTION.t) : result BitArray :=
  kolmog <- kolmog bz2_compress exe section ;; Ok (slice kolmog 0 7).

(** What one pass of the loop appends, in the order of the appends. *)
Definition section_fragments (exe : PE) (section : SECTION.t) : result BitArray :=
  rs <- sect_rs_bits section ;;
  ch <- sect_chars_xor section ;;
  en <- entropy exe section ;;
  Ok (sect_va section ++ rs ++ ch ++ en).

Fixpoint table_fragments (exe : PE) (todo : list SECTION.t) : result BitArray :=
  match todo with
  | [] => Ok []
  | section :: rest =>
      f <- section_fragments exe section ;;
      r <- table_fragments exe rest ;;
      Ok (f ++ r)
  end.

(** The four fragments of the headers. *)
Definition scalar_fragments (exe : PE) : result BitArray :=
  a <- img_chars_xor exe ;;
  b <- sub_chars_xor exe ;;
  c <- stk_size_xor exe ;;
  d <- hp_size_xor exe ;;
  Ok (a ++ b ++ c ++ d).

Lemma section_loop_concat (exe : PE) (todo : list SECTION.t) (acc : BitArray) :
  section_loop bz2_compress exe acc todo =
  (r <- table_fragments exe todo ;; Ok (acc ++ r)).
Proof.
  revert acc. induction todo as [|section rest IH]; intros acc; cbn [section_loop table_fragments bind].
  - now rewrite app_nil_r.
  - unfold section_fragments, entropy.
    destruct (sect_rs_bits section) as [rs|e]; cbn [bind]; [|reflexivity].
    destruct (sect_chars_xor section) as [ch|e]; cbn [bind]; [|reflexivity].
    destruct (kolmog bz2_compress exe section) as [k|e]; cbn [bind]; [|reflexivity].
    rewrite IH. destruct (table_fragments exe rest) as [r|e]; cbn [bind]; [|reflexivity].
    now rewrite <- !app_assoc.
Qed.

Lemma pehash_bin_concat (exe : PE) :
  pehash_bin bz2_compress exe =
  (h <- scalar_fragments exe ;;
   r <- table_fragments exe (sections exe) ;;
   Ok (h ++ r)).
Proof.
  unfold pehash_bin, scalar_fragments.
  destruct (img_chars_xor exe) as [a|e]; cbn [bind]; [|reflexivity].
  destruct (sub_chars_xor exe) as [b|e]; cbn [bind]; [|reflexivity].
  destruct (stk_size_xor exe) as [c|e]; cbn [bind]; [|reflexivity].
  destruct (hp_size_xor exe) as [d|e]; cbn [bind]; [|reflexivity].
  rewrite section_loop_concat.
  destruct (table_fragments exe (sections exe)) as [r|e]; cbn [bind]; [|reflexivity].
  now rewrite <- !app_assoc.
Qed.

Lemma table_fragments_Forall2 (exe : PE) (todo : list SECTION.t) (frs : list BitArray) :
  Forall2 (fun section f => section_fragments exe section = Ok f) todo frs ->
  table_fragments exe todo = Ok (concat frs).
Proof.
  induction 1 as [|section f rest frs Hf _ IH]; cbn [table_fragments concat]; [reflexivity|].
  now rewrite Hf, IH.
Qed.

Lemma table_fragments_app (exe : PE) (l1 l2 : list SECTION.t) :
  table_fragments exe (l1 ++ l2) =
  (a <- table_fragments exe l1 ;; b <- table_fragments exe l2 ;; Ok (a ++ b)).
Proof.
  induction l1 as [|section l1 IH]; cbn [table_fragments app bind].
  - destruct (table_fragments exe l2); reflexivity.
  - destruct (section_fragments exe section) as [f|e]; cbn [bind]; [|reflexivity].
    rewrite IH.
    destruct (table_fragments exe l1) as [a|e]; cbn [bind]; [|reflexivity].
    destruct (table_fragments exe l2) as [b|e]; cbn [bind]; [|reflexivity].
    now rewrite app_assoc.
Qed.

End Pipeline.

(** ** The digest is forty lowercase hexadecimal characters *)

Definition lower_hex (c : ascii) : bool :=
  let n := nat_of_ascii c in
  orb (andb (48 <=? n) (n <=? 57)) (andb (97 <=? n) (n <=? 102)).

Fixpoint string_forallb (f : ascii -> bool) (s : string) : bool :=
  match s with
  | EmptyString => true
  | String c r => andb (f c) (string_forallb f r)
  end.

Lemma hex_of_bytes_lower (l : list byte) :
  string_forallb lower_hex (hashlib.hex_of_bytes l) = true.
Proof.
  induction l as [|b l IH]; [reflexivity|].
  cbn [hashlib.hex_of_bytes string_forallb]. rewrite IH.
  destruct b; reflexivity.
Qed.

Lemma hex_of_bytes_length (l : list byte) :
  String.length (hashlib.hex_of_bytes l) = 2 * length l.
Proof.
  induction l as [|b l IH]; [reflexivity|].
  cbn [hashlib.hex_of_bytes String.length length]. rewrite IH. lia.
Qed.

Lemma be_bytes_length (w : nat) (n : N) : length (hashlib.be_bytes w n) = w.
Proof. induction w as [|w IH]; simpl; [reflexivity | now rewrite IH]. Qed.

Lemma sha1_length (msg : list byte) : length (hashlib.sha1 msg) = 20.
Proof.
  unfold hashlib.sha1.
  destruct (fold_left hashlib.compress _ hashlib.init) as [[[[h0 h1] h2] h3] h4].
  now rewrite !length_app, !be_bytes_length.
Qed.

Lemma hexdigest_shape (msg : list byte) :
  String.length (hashlib.hexdigest msg) = 40
  /\ string_forallb lower_hex (hashlib.hexdigest msg) = true.
Proof.
  unfold hashlib.hexdigest. split.
  - now rewrite hex_of_bytes_length, sha1_length.
  - apply hex_of_bytes_lower.
Qed.

(** ** The folds the specification describes

    Each definition follows the words of the specification (sections 4.1
    to 4.3), to be compared with the folds of the source. *)

Module Spec.

(** 16-bit fields: the high byte XOR the low byte of the packed value. *)
Definition fold16 (v : N) : BitArray :=
  be_bits 8 (N.lxor (bit_field 16 (packed v) 0 8) (bit_field 16 (packed v) 8 16)).

(** 32-bit sizes: bits 8-15, 16-23 and 24-31 of the left-padded value. *)
Definition fold32 (v : N) : BitArray :=
  be_bits 8 (N.lxor (N.lxor (bit_field 32 v 8 16) (bit_field 32 v 16 24))
                    (bit_field 32 v 24 32)).

(** Raw size: bits 8-31, the low 24 bits of the left-padded value. *)
Definition raw_size (v : N) : BitArray := be_bits 24 (bit_field 32 v 8 32).

(** Section characteristics: bits 16-23 XOR bits 24-31 of the packed value. *)
Definition sect_chars (v : N) : BitArray :=
  be_bits 8 (N.lxor (bit_field 32 (packed v) 16 24) (bit_field 32 (packed v) 24 32)).

(** The top 8 bits of a binary32 word. *)
Definition top8 (w : N) : BitArray := be_bits 8 (bit_field 32 w 0 8).

End Spec.

(** ** Sample images *)

Definition mkS (va size chars : N) : SECTION.t :=
  {| SECTION.VirtualAddress := va;
     SECTION.SizeOfRawData := size;
     SECTION.Characteristics := chars |}.

Definition mkPE (chars machine stack heap : N) (ss : list SECTION.t)
    (w : list byte) : PE :=
  {| FILE_HEADER :=
       {| FILE_HEADER.Characteristics := chars; FILE_HEADER.Machine := machine |};
     OPTIONAL_HEADER :=
       {| OPTIONAL_HEADER.SizeOfStackCommit := stack;
          OPTIONAL_HEADER.SizeOfHeapCommit := heap |};
     sections := ss;
     write := w |}.

(** The image of the end-to-end scenario of the specification: an i386
    executable with one section of no raw data; a file of 1024 bytes. *)
Definition scenario : PE :=
  mkPE 0x0102 0x014c 0x1000 0x1000 [mkS 0x1000 0 0x60000020] (repeat x00 1024).

(** An x86-64 executable: [EXECUTABLE_IMAGE | LARGE_ADDRESS_AWARE]. *)
Definition amd64_image : PE :=
  mkPE 0x0022 0x8664 0x1000 0x1000 [mkS 0x1000 0x200 0x60000020] (repeat x00 1024).

(** A file of 1024 bytes with one code section at 0x1000. *)
Definition one_section (size : N) : PE :=
  mkPE 0x0102 0x014c 0x1000 0x1000 [mkS 0x1000 size 0x60000020] (repeat x00 1024).

(** [bz2.compress('')]: the 14 bytes of an empty bzip2 stream. *)
Definition bz2_of_empty : list byte :=
  [x42; x5a; x68; x39; x17; x72; x45; x38; x50; x90; x00; x00; x00; x00].

(** A compressor that is right on the empty string; the instances below
    compress nothing else. *)
Definition bz2_on_empty (raw : list byte) : list byte := bz2_of_empty.

(** The end-to-end scenario: 83 bits, hashed as the 11 bytes
    31 a8 40 40 40 00 00 00 01 03 e0. *)
Example scenario_pehash (bz2_compress : list byte -> list byte) :
  (bits <- pehash_bin bz2_compress scenario ;; Ok (tobytes bits))
  = Ok [x31; xa8; x40; x40; x40; x00; x00; x00; x01; x03; xe0]
  /\ _get_pehash bz2_compress scenario
     = Ok "7ce8c93f59553f251be4cbfb1d040e7965e3da31"%string.
Proof. split; vm_compute; reflexivity. Qed.

Ltac valid_image :=
  unfold valid_PE, valid_section, u16, u32; cbn;
  repeat (first [ split | constructor ]); try lia; try reflexivity.

Lemma scenario_valid : valid_PE scenario.
Proof. valid_image. Qed.

Lemma amd64_image_valid : valid_PE amd64_image.
Proof. valid_image. Qed.

(** ** C2: the file-header folds *)

(** C2, as stated, fails: at Characteristics 0x0102 and Machine 0x014c
    the code produces 7 bits, not the 8-bit XOR of the two bytes. *)
Lemma file_header_fold_not_bytes :
  ~ (forall exe : PE, valid_PE exe ->
       img_chars_xor exe = Ok (Spec.fold16 (FILE_HEADER.Characteristics (FILE_HEADER exe)))
       /\ sub_chars_xor exe = Ok (Spec.fold16 (FILE_HEADER.Machine (FILE_HEADER exe)))).
Proof.
  intros H. destruct (H scenario scenario_valid) as [Hc _].
  vm_compute in Hc. discriminate Hc.
Qed.

(** C2, amended: for header fields of 3 or 4 hex digits the fragment is
    7 bits wide, bits 0-6 XOR bits 8-14 of the field right-padded to 16
    bits. *)
Theorem file_header_fold (exe : PE) :
  (0x100 <= FILE_HEADER.Characteristics (FILE_HEADER exe) < 2 ^ 16)%N ->
  (0x100 <= FILE_HEADER.Machine (FILE_HEADER exe) < 2 ^ 16)%N ->
  exists a b : BitArray,
    img_chars_xor exe = Ok a /\ sub_chars_xor exe = Ok b
    /\ length a = 7 /\ length b = 7
    /\ a = (let p := packed (FILE_HEADER.Characteristics (FILE_HEADER exe)) in
            be_bits 7 (N.lxor (bit_field 16 p 0 7) (bit_field 16 p 8 15)))
    /\ b = (let p := packed (FILE_HEADER.Machine (FILE_HEADER exe)) in
            be_bits 7 (N.lxor (bit_field 16 p 0 7) (bit_field 16 p 8 15))).
Proof.
  intros Hc Hm. unfold img_chars_xor, sub_chars_xor.
  rewrite (xor_fold16_bits _ Hc), (xor_fold16_bits _ Hm).
  eexists; eexists. repeat split; apply be_bits_length.
Qed.

Lemma file_header_fold_witness :
  exists a b : BitArray,
    img_chars_xor scenario = Ok a /\ sub_chars_xor scenario = Ok b
    /\ length a = 7 /\ length b = 7
    /\ a = (let p := packed 0x0102 in
            be_bits 7 (N.lxor (bit_field 16 p 0 7) (bit_field 16 p 8 15)))
    /\ b = (let p := packed 0x014c in
            be_bits 7 (N.lxor (bit_field 16 p 0 7) (bit_field 16 p 8 15))).
Proof. apply (file_header_fold scenario); cbn; lia. Defined.

(** ** C3: the commit-size folds *)

(** C3, as stated, fails: at a commit size of 1 the XOR of the three
    bytes is 00000001, the code produces 00000000. *)
Lemma commit_size_fold_not_bytes :
  ~ (forall exe : PE, valid_PE exe ->
       stk_size_xor exe = Ok (Spec.fold32 (OPTIONAL_HEADER.SizeOfStackCommit (OPTIONAL_HEADER exe)))
       /\ hp_size_xor exe = Ok (Spec.fold32 (OPTIONAL_HEADER.SizeOfHeapCommit (OPTIONAL_HEADER exe)))).
Proof.
  intros H.
  assert (Hv : valid_PE (mkPE 0x0102 0x014c 1 1 [] (repeat x00 1024))) by valid_image.
  destruct (H _ Hv) as [Hs _]. vm_compute in Hs. discriminate Hs.
Qed.

(** C3, amended: the fragment is 8 bits wide: the XOR of bits 8-14, bits
    16-22 and bits 24-30 of the size left-padded to 32 bits, then one
    zero bit. *)
Theorem commit_size_fold (exe : PE) :
  u32 (OPTIONAL_HEADER.SizeOfStackCommit (OPTIONAL_HEADER exe)) ->
  u32 (OPTIONAL_HEADER.SizeOfHeapCommit (OPTIONAL_HEADER exe)) ->
  exists c d : BitArray,
    stk_size_xor exe = Ok c /\ hp_size_xor exe = Ok d
    /\ length c = 8 /\ length d = 8
    /\ c = (let v := OPTIONAL_HEADER.SizeOfStackCommit (OPTIONAL_HEADER exe) in
            be_bits 7 (N.lxor (N.lxor (bit_field 32 v 8 15) (bit_field 32 v 16 23))
                              (bit_field 32 v 24 31)) ++ [false])
    /\ d = (let v := OPTIONAL_HEADER.SizeOfHeapCommit (OPTIONAL_HEADER exe) in
            be_bits 7 (N.lxor (N.lxor (bit_field 32 v 8 15) (bit_field 32 v 16 23))
                              (bit_field 32 v 24 31)) ++ [false]).
Proof.
  intros Hs Hh. unfold stk_size_xor, hp_size_xor.
  rewrite (xor_fold32_bits _ Hs), (xor_fold32_bits _ Hh).
  eexists; eexists. repeat split;
    rewrite length_app, be_bits_length; reflexivity.
Qed.

Lemma commit_size_fold_witness :
  exists c d : BitArray,
    stk_size_xor scenario = Ok c /\ hp_size_xor scenario = Ok d
    /\ length c = 8 /\ length d = 8
    /\ c = (let v := 0x1000%N in
            be_bits 7 (N.lxor (N.lxor (bit_field 32 v 8 15) (bit_field 32 v 16 23))
                              (bit_field 32 v 24 31)) ++ [false])
    /\ d = (let v := 0x1000%N in
            be_bits 7 (N.lxor (N.lxor (bit_field 32 v 8 15) (bit_field 32 v 16 23))
                              (bit_field 32 v 24 31)) ++ [false]).
Proof. apply (commit_size_fold scenario); unfold u32; cbn; lia. Defined.

(** ** C4: the raw-size fragment *)

(** C4, as stated, fails: at a raw size of 0x200 the code appends 23
    bits of the packed value 0x2000, not the 24 low bits of 0x200. *)
Lemma raw_size_not_low_24_bits :
  ~ (forall section : SECTION.t, valid_section section ->
       sect_rs_bits section = Ok (Spec.raw_size (SECTION.SizeOfRawData section))).
Proof.
  intros H.
  assert (Hv : valid_section (mkS 0x1000 0x200 0x60000020)) by valid_image.
  specialize (H _ Hv). vm_compute in H. discriminate H.
Qed.

(** C4, amended: the raw-size fragment is 23 bits wide: bits 8-30 of the
    raw size, first right-padded to whole bytes and then left-padded to
    32 bits; nothing is XORed. *)
Theorem raw_size_fragment (section : SECTION.t) :
  u32 (SECTION.SizeOfRawData section) ->
  exists rs : BitArray,
    sect_rs_bits section = Ok rs
    /\ length rs = 23
    /\ rs = be_bits 23 (bit_field 32 (packed (SECTION.SizeOfRawData section)) 8 31).
Proof.
  intros Hv. eexists. split; [apply sect_rs_bits_bits; exact Hv|].
  split; [apply be_bits_length | reflexivity].
Qed.

Lemma raw_size_fragment_witness :
  exists rs : BitArray,
    sect_rs_bits (mkS 0x1000 0x200 0x60000020) = Ok rs
    /\ length rs = 23
    /\ rs = be_bits 23 (bit_field 32 (packed 0x200) 8 31).
Proof. apply (raw_size_fragment (mkS 0x1000 0x200 0x60000020)); unfold u32; cbn; lia. Defined.

(** ** C5: the section-characteristics fragment *)

(** C5, as stated, fails: at 0x60000020 the code produces 7 bits, and
    0x10000020 and 0x01000020, with the same two low bytes, give
    different fragments. *)
Lemma sect_chars_not_bytes :
  ~ (forall section : SECTION.t, valid_section section ->
       sect_chars_xor section = Ok (Spec.sect_chars (SECTION.Characteristics section)))
  /\ ~ (forall s s' : SECTION.t, valid_section s -> valid_section s' ->
          (SECTION.Characteristics s mod 2 ^ 16 = SECTION.Characteristics s' mod 2 ^ 16)%N ->
          sect_chars_xor s = sect_chars_xor s').
Proof.
  split; intros H.
  - assert (Hv : valid_section (mkS 0x1000 0 0x60000020)) by valid_image.
    specialize (H _ Hv). vm_compute in H. discriminate H.
  - assert (Hv : valid_section (mkS 0x1000 0 0x10000020)) by valid_image.
    assert (Hv' : valid_section (mkS 0x1000 0 0x01000020)) by valid_image.
    specialize (H _ _ Hv Hv' eq_refl). vm_compute in H. discriminate H.
Qed.

(** C5, amended: for characteristics of 7 or 8 hex digits the fragment is
    7 bits wide, bits 16-22 XOR bits 24-30 of the value right-padded to
    whole bytes, and bits 0-15 of that packed value do not influence it. *)
Theorem sect_chars_fragment (section : SECTION.t) :
  (0x1000000 <= SECTION.Characteristics section < 2 ^ 32)%N ->
  exists ch : BitArray,
    sect_chars_xor section = Ok ch
    /\ length ch = 7
    /\ ch = (let p := packed (SECTION.Characteristics section) in
             be_bits 7 (N.lxor (bit_field 32 p 16 23) (bit_field 32 p 24 31)))
    /\ forall other : SECTION.t,
         (0x1000000 <= SECTION.Characteristics other < 2 ^ 32)%N ->
         (packed (SECTION.Characteristics other) mod 2 ^ 16
          = packed (SECTION.Characteristics section) mod 2 ^ 16)%N ->
         sect_chars_xor other = Ok ch.
Proof.
  intros Hv. eexists. split; [apply sect_chars_xor_bits; exact Hv|].
  split; [apply be_bits_length|]. split; [reflexivity|].
  intros other Ho Hlow. rewrite (sect_chars_xor_bits _ Ho). cbv zeta.
  rewrite <- (bit_field_low 32 16 (packed (SECTION.Characteristics other)) 16 23) by lia.
  rewrite <- (bit_field_low 32 16 (packed (SECTION.Characteristics other)) 24 31) by lia.
  change (N.of_nat 16) with 16%N. rewrite Hlow.
  change 16%N with (N.of_nat 16).
  now rewrite !bit_field_low by lia.
Qed.

Lemma sect_chars_fragment_witness :
  exists ch : BitArray,
    sect_chars_xor (mkS 0x1000 0 0x60000020) = Ok ch
    /\ length ch = 7
    /\ ch = (let p := packed 0x60000020 in
             be_bits 7 (N.lxor (bit_field 32 p 16 23) (bit_field 32 p 24 31)))
    /\ forall other : SECTION.t,
         (0x1000000 <= SECTION.Characteristics other < 2 ^ 32)%N ->
         (packed (SECTION.Characteristics other) mod 2 ^ 16
          = packed 0x60000020 mod 2 ^ 16)%N ->
         sect_chars_xor other = Ok ch.
Proof. apply (sect_chars_fragment (mkS 0x1000 0 0x60000020)); cbn; lia. Defined.

(** ** C6: the entropy fragment *)

(** C6, as stated, fails: for a section of no raw data the code appends
    the 7 bits 0011111, not the top 8 bits of the binary32 word of 1.0,
    whatever the compressor. *)
Lemma entropy_not_top_8_bits :
  ~ (exists bz2_compress : list byte -> list byte,
       forall (exe : PE) (section : SECTION.t),
         SECTION.SizeOfRawData section = 0%N ->
         entropy bz2_compress exe section = Ok (Spec.top8 0x3F800000)).
Proof.
  intros [bz2 H].
  specialize (H scenario (mkS 0x1000 0 0x60000020) eq_refl).
  vm_compute in H. discriminate H.
Qed.

(** C6, amended: the entropy fragment is the top 7 bits of a binary32
    word: of the word 0x3F800000 of 1.0 when there is no raw data,
    whatever the rest of the image; otherwise of the word of the length
    of the compressed tail of the image, from VirtualAddress +
    SizeOfRawData on, divided by SizeOfRawData. *)
Theorem entropy_fragment (bz2_compress : list byte -> list byte)
    (exe : PE) (section : SECTION.t) :
  pyfloat.pack_f (pyfloat.of_int 1) = Ok 0x3F800000%N
  /\ entropy bz2_compress exe section =
     if (SECTION.SizeOfRawData section =? 0)%N
     then Ok (be_bits 7 (bit_field 32 0x3F800000 0 7))
     else
       let offset := (SECTION.VirtualAddress section + SECTION.SizeOfRawData section)%N in
       let raw := skipn (N.to_nat offset) (write exe) in
       k <- pyfloat.true_divide (N.of_nat (length (bz2_compress raw)))
              (SECTION.SizeOfRawData section) ;;
       w <- pyfloat.pack_f k ;;
       Ok (be_bits 7 (bit_field 32 w 0 7)).
Proof.
  split; [reflexivity|].
  unfold entropy, kolmog.
  destruct (SECTION.SizeOfRawData section =? 0)%N; [reflexivity|].
  cbv zeta.
  destruct (pyfloat.true_divide _ _) as [k|e]; cbn [bind]; [|reflexivity].
  unfold of_float32.
  destruct (pyfloat.pack_f k) as [w|e]; cbn [bind]; [|reflexivity].
  now rewrite slice_bit_field by lia.
Qed.

(** ** C7: the length of the hashed bit string *)

Lemma slice_length (b : BitArray) (start stop : nat) :
  length (slice b start stop) = Nat.min (stop - start) (length b - start).
Proof. unfold slice. now rewrite length_firstn, length_skipn. Qed.

Lemma pad8_multiple (n : nat) : exists q, n + pad8 n = 8 * q.
Proof.
  unfold pad8. pose proof (Nat.div_mod_eq n 8) as E.
  pose proof (Nat.mod_upper_bound n 8 ltac:(lia)) as Hr.
  destruct (Nat.eq_dec (n mod 8) 0) as [Z|NZ].
  - exists (n / 8). rewrite Z. change ((8 - 0) mod 8) with 0. lia.
  - exists (S (n / 8)). rewrite (Nat.mod_small (8 - n mod 8) 8) by lia. lia.
Qed.

Lemma packed_len_bytes (v : N) : exists q, packed_len v = 8 * q /\ 1 <= q.
Proof.
  unfold packed_len. destruct (pad8_multiple (4 * hex_len v)) as [q Hq].
  exists q. pose proof (hex_len_pos v). lia.
Qed.

Lemma xor_fold16_length (v : N) (f : BitArray) :
  xor_fold16 v = Ok f -> length f = 7.
Proof.
  unfold xor_fold16. rewrite pack_of_hex. intros H.
  apply xor_length in H. destruct H as [_ H].
  rewrite H, slice_length, be_bits_length.
  destruct (packed_len_bytes v) as (q & -> & Hq). lia.
Qed.

Lemma sect_va_length (section : SECTION.t) :
  length (sect_va section) = packed_len (SECTION.VirtualAddress section).
Proof. unfold sect_va. now rewrite pack_of_hex, be_bits_length. Qed.

Lemma kolmog_length (bz2_compress : list byte -> list byte) (exe : PE)
    (section : SECTION.t) (k : BitArray) :
  kolmog bz2_compress exe section = Ok k -> length k = 32.
Proof.
  assert (Hf : forall x b, of_float32 x = Ok b -> length b = 32).
  { intros x b. unfold of_float32.
    destruct (pyfloat.pack_f x) as [w|e]; cbn [bind]; [|discriminate].
    intros H; injection H as <-. reflexivity. }
  unfold kolmog. destruct (SECTION.SizeOfRawData section =? 0)%N; [apply Hf|].
  destruct (pyfloat.true_divide _ _) as [x|e]; cbn [bind]; [apply Hf | discriminate].
Qed.

Lemma entropy_length (bz2_compress : list byte -> list byte) (exe : PE)
    (section : SECTION.t) (en : BitArray) :
  entropy bz2_compress exe section = Ok en -> length en = 7.
Proof.
  unfold entropy.
  destruct (kolmog bz2_compress exe section) as [k|e] eqn:E; cbn [bind]; [|discriminate].
  intros H; injection H as <-. apply kolmog_length in E.
  rewrite slice_length, E. reflexivity.
Qed.

(** The bits one section contributes when its characteristics fold to 7
    bits: the packed virtual address, 23, 7 and 7. *)
Definition section_width (section : SECTION.t) : nat :=
  packed_len (SECTION.VirtualAddress section) + 23 + 7 + 7.

(** Characteristics of 7 or 8 hex digits. *)
Definition wide_chars (section : SECTION.t) : Prop :=
  (0x1000000 <= SECTION.Characteristics section)%N.

Lemma section_fragments_length (bz2_compress : list byte -> list byte)
    (exe : PE) (section : SECTION.t) (f : BitArray) :
  valid_section section /\ wide_chars section ->
  section_fragments bz2_compress exe section = Ok f ->
  length f = section_width section.
Proof.
  intros ((_ & Hsize & Hchars) & Hwide). unfold section_fragments, section_width.
  rewrite (sect_rs_bits_bits _ Hsize). cbn [bind].
  rewrite (sect_chars_xor_bits section (conj Hwide Hchars)). cbn [bind].
  destruct (entropy bz2_compress exe section) as [en|e] eqn:Ee; cbn [bind]; [|discriminate].
  intros H; apply Ok_inj in H; subst f.
  rewrite !length_app, sect_va_length, !be_bits_length.
  rewrite (entropy_length _ _ _ _ Ee). lia.
Qed.

Lemma table_fragments_length (bz2_compress : list byte -> list byte)
    (exe : PE) (todo : list SECTION.t) (r : BitArray) :
  Forall (fun section => valid_section section /\ wide_chars section) todo ->
  table_fragments bz2_compress exe todo = Ok r ->
  length r = list_sum (map section_width todo).
Proof.
  intros Hv. revert r. induction Hv as [|section rest Hs _ IH]; intros r;
    cbn [table_fragments map list_sum fold_right].
  - intros H; injection H as <-. reflexivity.
  - destruct (section_fragments bz2_compress exe section) as [f|e] eqn:Ef;
      cbn [bind]; [|discriminate].
    destruct (table_fragments bz2_compress exe rest) as [r'|e]; cbn [bind]; [|discriminate].
    intros H; injection H as <-.
    rewrite length_app, (section_fragments_length _ _ _ _ Hs Ef), (IH _ eq_refl).
    reflexivity.
Qed.

Lemma section_width_bounds (section : SECTION.t) :
  valid_section section -> 45 <= section_width section <= 69.
Proof.
  intros (Hva & _ & _). unfold section_width.
  pose proof (packed_len_le_32 _ Hva).
  destruct (packed_len_bytes (SECTION.VirtualAddress section)) as (q & Hq & Hq1).
  lia.
Qed.

Lemma list_sum_bounds (A : Type) (f : A -> nat) (lo hi : nat) (l : list A) (P : A -> Prop) :
  (forall x, P x -> lo <= f x <= hi) -> Forall P l ->
  lo * length l <= list_sum (map f l) <= hi * length l.
Proof.
  intros Hf Hl. induction Hl as [|x l Hx _ IH];
    cbn [map list_sum fold_right length]; [lia|].
  specialize (Hf x Hx). fold (list_sum (map f l)).
  rewrite !Nat.mul_succ_r. lia.
Qed.

Lemma tobytes_length_div (b : BitArray) : length (tobytes b) = (length b + 7) / 8.
Proof.
  pose proof (tobytes_length b) as H. pose proof (pad8_lt (length b)) as Hp.
  apply Nat.div_unique with (r := 7 - pad8 (length b)); lia.
Qed.

Lemma pehash_bin_scenario (bz2_compress : list byte -> list byte) :
  exists bits : BitArray,
    pehash_bin bz2_compress scenario = Ok bits /\ length bits = 83.
Proof. eexists. split; [vm_compute; reflexivity | reflexivity]. Qed.

(** C7, as stated, fails: the image of the end-to-end scenario, with one
    section, gives 83 bits, hashed as 11 bytes, whatever the compressor. *)
Lemma buffer_length_not_4_plus_4N :
  ~ (exists bz2_compress : list byte -> list byte,
       forall (exe : PE) (bits : BitArray),
         valid_PE exe -> pehash_bin bz2_compress exe = Ok bits ->
         length bits mod 8 = 0
         /\ length (tobytes bits) = 4 + length (sections exe) * 4).
Proof.
  intros [bz2 H]. destruct (pehash_bin_scenario bz2) as (bits & E & L).
  destruct (H scenario bits scenario_valid E) as [Hm _].
  rewrite L in Hm. discriminate Hm.
Qed.

(** C7, amended: on a valid image whose section characteristics have 7
    or 8 hex digits and on which every fold succeeds, the bit string has
    30 bits for the headers and, for each section, the bits of its
    byte-packed virtual address plus 23 plus 7 plus 7: between 45 and 69
    bits a section.  It is hashed as that many bits rounded up to whole
    bytes. *)
Theorem buffer_length (bz2_compress : list byte -> list byte) (exe : PE)
    (bits : BitArray) :
  valid_PE exe ->
  Forall wide_chars (sections exe) ->
  pehash_bin bz2_compress exe = Ok bits ->
  length bits = 30 + list_sum (map section_width (sections exe))
  /\ 30 + 45 * length (sections exe) <= length bits <= 30 + 69 * length (sections exe)
  /\ length (tobytes bits) = (length bits + 7) / 8.
Proof.
  intros (_ & _ & Hs & Hh & Hsec) Hwide H.
  assert (L : length bits = 30 + list_sum (map section_width (sections exe))).
  { rewrite pehash_bin_concat in H. unfold scalar_fragments in H.
    destruct (img_chars_xor exe) as [a|e] eqn:Ea; cbn [bind] in H; [|discriminate].
    destruct (sub_chars_xor exe) as [b|e] eqn:Eb; cbn [bind] in H; [|discriminate].
    unfold stk_size_xor, hp_size_xor in H.
    rewrite (xor_fold32_bits _ Hs), (xor_fold32_bits _ Hh) in H. cbn [bind] in H.
    destruct (table_fragments bz2_compress exe (sections exe)) as [r|e] eqn:Er;
      cbn [bind] in H; [|discriminate].
    apply Ok_inj in H; subst bits.
    rewrite !length_app, !be_bits_length.
    rewrite (xor_fold16_length _ _ Ea), (xor_fold16_length _ _ Eb).
    rewrite (table_fragments_length _ _ _ _ (Forall_and Hsec Hwide) Er).
    cbn [length]. lia. }
  split; [exact L|]. split; [|apply tobytes_length_div].
  pose proof (list_sum_bounds _ section_width 45 69 _ _ section_width_bounds Hsec). lia.
Qed.

Lemma buffer_length_witness :
  exists bits : BitArray,
    pehash_bin bz2_on_empty scenario = Ok bits
    /\ length bits = 30 + list_sum (map section_width (sections scenario))
    /\ 30 + 45 * length (sections scenario) <= length bits
       <= 30 + 69 * length (sections scenario)
    /\ length (tobytes bits) = (length bits + 7) / 8.
Proof.
  destruct (pehash_bin_scenario bz2_on_empty) as (bits & E & _).
  exists bits. split; [exact E|].
  apply (buffer_length bz2_on_empty scenario bits);
    [valid_image | repeat constructor; unfold wide_chars; cbn; lia | exact E].
Defined.

(** ** C1 and C10: what is hashed *)

Section Digest.

Variable bz2_compress : list byte -> list byte.

Lemma get_pehash_of_bin (exe : PE) (bits : BitArray) :
  pehash_bin bz2_compress exe = Ok bits ->
  _get_pehash bz2_compress exe = Ok (hashlib.hexdigest (tobytes bits)).
Proof. intros H. unfold _get_pehash. now rewrite H. Qed.

Lemma section_fragments_parts (exe : PE) (section : SECTION.t) (f : BitArray) :
  (exists rs ch en : BitArray,
      sect_rs_bits section = Ok rs /\ sect_chars_xor section = Ok ch
      /\ entropy bz2_compress exe section = Ok en
      /\ f = sect_va section ++ rs ++ ch ++ en) ->
  section_fragments bz2_compress exe section = Ok f.
Proof.
  intros (rs & ch & en & Hrs & Hch & Hen & ->).
  unfold section_fragments. now rewrite Hrs, Hch, Hen.
Qed.

(** C1, amended: when every fold succeeds, the PEhash is the forty
    lowercase hexadecimal characters of the SHA-1 of the fragments in the
    stated order (the four header fragments, then for each section of the
    table its virtual address, raw size, characteristics and entropy
    fragments), packed into bytes with zero bits after the last fragment
    up to the byte boundary. *)
Theorem pehash_is_sha1_of_fragments (exe : PE) (a b c d : BitArray)
    (frs : list BitArray) :
  img_chars_xor exe = Ok a ->
  sub_chars_xor exe = Ok b ->
  stk_size_xor exe = Ok c ->
  hp_size_xor exe = Ok d ->
  Forall2
    (fun section f =>
       exists rs ch en : BitArray,
         sect_rs_bits section = Ok rs /\ sect_chars_xor section = Ok ch
         /\ entropy bz2_compress exe section = Ok en
         /\ f = sect_va section ++ rs ++ ch ++ en)
    (sections exe) frs ->
  let bits := a ++ b ++ c ++ d ++ concat frs in
  _get_pehash bz2_compress exe = Ok (hashlib.hexdigest (tobytes bits))
  /\ of_bytes (tobytes bits) = bits ++ repeat false (pad8 (length bits))
  /\ String.length (hashlib.hexdigest (tobytes bits)) = 40
  /\ string_forallb lower_hex (hashlib.hexdigest (tobytes bits)) = true.
Proof.
  intros Ha Hb Hc Hd Hfrs bits.
  split; [|split; [apply of_bytes_tobytes | apply hexdigest_shape]].
  apply get_pehash_of_bin. rewrite pehash_bin_concat.
  unfold scalar_fragments. rewrite Ha, Hb, Hc, Hd. cbn [bind].
  rewrite (table_fragments_Forall2 bz2_compress exe (sections exe) frs).
  - cbn [bind]. subst bits. now rewrite <- !app_assoc.
  - clear -Hfrs. induction Hfrs as [|section f rest frs Hf _ IH]; constructor;
      [apply section_fragments_parts; exact Hf | exact IH].
Qed.


End Digest.

(** C1, as stated, fails: on the image of the end-to-end scenario the
    fragments add up to 83 bits, so no byte string is their
    concatenation, whatever the compressor. *)
Lemma fragments_are_not_whole_bytes :
  ~ (exists bz2_compress : list byte -> list byte,
       forall exe : PE, valid_PE exe ->
         exists bytes : list byte,
           (h <- scalar_fragments exe ;;
            r <- table_fragments bz2_compress exe (sections exe) ;;
            Ok (h ++ r)) = Ok (of_bytes bytes)
           /\ _get_pehash bz2_compress exe = Ok (hashlib.hexdigest bytes)).
Proof.
  intros [bz2 H]. destruct (H scenario scenario_valid) as (bytes & Hb & _).
  rewrite <- pehash_bin_concat in Hb.
  destruct (pehash_bin_scenario bz2) as (bits & E & L).
  rewrite E in Hb. apply Ok_inj in Hb. subst bits.
  rewrite of_bytes_length in L. lia.
Qed.


Lemma pehash_is_sha1_of_fragments_witness :
  let bits :=
    be_bits 7 0x18 ++ be_bits 7 0x6a ++ be_bits 8 0x10 ++ be_bits 8 0x10
      ++ concat [be_bits 16 0x1000 ++ be_bits 23 0 ++ be_bits 7 0x10 ++ be_bits 7 0x1f] in
  _get_pehash bz2_on_empty scenario = Ok (hashlib.hexdigest (tobytes bits))
  /\ of_bytes (tobytes bits) = bits ++ repeat false (pad8 (length bits))
  /\ String.length (hashlib.hexdigest (tobytes bits)) = 40
  /\ string_forallb lower_hex (hashlib.hexdigest (tobytes bits)) = true.
Proof.
  apply (pehash_is_sha1_of_fragments bz2_on_empty scenario); try reflexivity.
  repeat constructor.
  exists (be_bits 23 0), (be_bits 7 0x10), (be_bits 7 0x1f).
  repeat split; reflexivity.
Defined.


(** ** C9: a fold that raises *)

(** C9, on the code: an x86-64 image with Characteristics 0x0022 is a
    valid image that [pefile] parses; the fold of its characteristics
    XORs 7 bits with no bits, [bitstring] raises [ValueError], which
    [_scan] does not catch, and no digest is reported. *)
Theorem short_characteristics_raise (bz2_compress : list byte -> list byte) :
  valid_PE amd64_image
  /\ img_chars_xor amd64_image = Raise ValueError
  /\ _get_pehash bz2_compress amd64_image = Raise ValueError
  /\ _scan bz2_compress (Parsed amd64_image) = Uncaught ValueError.
Proof.
  split; [exact amd64_image_valid|].
  assert (E : img_chars_xor amd64_image = Raise ValueError) by reflexivity.
  split; [exact E|].
  assert (G : _get_pehash bz2_compress amd64_image = Raise ValueError).
  { unfold _get_pehash, pehash_bin. now rewrite E. }
  split; [exact G|]. unfold _scan. now rewrite G.
Qed.

(** Every file-header field of one or two hex digits raises. *)
Lemma xor_fold16_short (v : N) :
  (v < 0x100)%N -> xor_fold16 v = Raise ValueError.
Proof.
  intros Hv. unfold xor_fold16. rewrite pack_of_hex.
  assert (L : packed_len v = 8).
  { pose proof (hex_len_pos v) as H1.
    assert (H2 : hex_len v <= 2) by (apply hex_len_le; [lia | exact Hv]).
    unfold packed_len. destruct (hex_len v) as [|[|[|h]]]; try lia; reflexivity. }
  unfold xor. rewrite !slice_length, be_bits_length, L. reflexivity.
Qed.

(** ** C8: sensitivity to one section's raw size *)

Definition with_raw_size (section : SECTION.t) (size : N) : SECTION.t :=
  {| SECTION.VirtualAddress := SECTION.VirtualAddress section;
     SECTION.SizeOfRawData := size;
     SECTION.Characteristics := SECTION.Characteristics section |}.

Definition with_sections (exe : PE) (ss : list SECTION.t) : PE :=
  {| FILE_HEADER := FILE_HEADER exe;
     OPTIONAL_HEADER := OPTIONAL_HEADER exe;
     sections := ss;
     write := write exe |}.

(** Two parsed images with the same headers and the same section table
    but for the raw size of one section.  Nothing is said of the bytes
    that [exe.write()] returns for each: they are two byte strings. *)
Definition differ_in_raw_size (exe1 exe2 : PE) (pre post : list SECTION.t)
    (section : SECTION.t) (size' : N) : Prop :=
  FILE_HEADER exe1 = FILE_HEADER exe2
  /\ OPTIONAL_HEADER exe1 = OPTIONAL_HEADER exe2
  /\ sections exe1 = pre ++ section :: post
  /\ sections exe2 = pre ++ with_raw_size section size' :: post.

Lemma be_bits_testbit (w : nat) (x y : N) :
  be_bits w x = be_bits w y ->
  forall i : nat, i < w -> N.testbit x (N.of_nat i) = N.testbit y (N.of_nat i).
Proof.
  induction w as [|w IH]; intros H i Hi; [lia|].
  cbn [be_bits] in H. injection H as H0 H1.
  destruct (Nat.eq_dec i w) as [->|Hne]; [exact H0 | apply IH; [exact H1 | lia]].
Qed.

Lemma be_bits_inj (w : nat) (x y : N) :
  (x < 2 ^ N.of_nat w)%N -> (y < 2 ^ N.of_nat w)%N ->
  be_bits w x = be_bits w y -> x = y.
Proof.
  intros Hx Hy H. apply N.bits_inj. intros n.
  destruct (N.lt_ge_cases n (N.of_nat w)) as [Hn|Hn].
  - rewrite <- (N2Nat.id n). apply (be_bits_testbit w x y H). lia.
  - now rewrite (testbit_above x (N.of_nat w) n), (testbit_above y (N.of_nat w) n).
Qed.

Lemma app_same_length (A : Type) (a b x y : list A) :
  length a = length b -> a ++ x = b ++ y -> a = b.
Proof.
  revert b. induction a as [|u a IH]; intros [|v b] L H; try discriminate L.
  - reflexivity.
  - cbn [app] in H. injection H as -> H. f_equal. apply IH; [now injection L | exact H].
Qed.

Lemma app_same_length_tail (A : Type) (a b x y : list A) :
  length a = length b -> a ++ x = b ++ y -> x = y.
Proof.
  intros L H. pose proof (app_same_length A a b x y L H) as E. subst b.
  exact (app_inv_head a x y H).
Qed.

Section Sensitivity.

Variable bz2_compress : list byte -> list byte.

Lemma table_fragments_with_sections (exe : PE) (ss todo : list SECTION.t) :
  table_fragments bz2_compress (with_sections exe ss) todo
  = table_fragments bz2_compress exe todo.
Proof. induction todo as [|section rest IH]; [reflexivity|].
  cbn [table_fragments]. now rewrite IH. Qed.

(** The header fragments read the two headers and nothing else. *)
Lemma scalar_fragments_headers (exe1 exe2 : PE) :
  FILE_HEADER exe1 = FILE_HEADER exe2 ->
  OPTIONAL_HEADER exe1 = OPTIONAL_HEADER exe2 ->
  scalar_fragments exe1 = scalar_fragments exe2.
Proof.
  intros Hf Ho.
  unfold scalar_fragments, img_chars_xor, sub_chars_xor, stk_size_xor, hp_size_xor.
  now rewrite Hf, Ho.
Qed.

(** The bytes of the file decide the value of a section's fragments, not
    their length. *)
Lemma section_fragments_same_length (exe1 exe2 : PE) (section : SECTION.t)
    (f1 f2 : BitArray) :
  section_fragments bz2_compress exe1 section = Ok f1 ->
  section_fragments bz2_compress exe2 section = Ok f2 ->
  length f1 = length f2.
Proof.
  unfold section_fragments.
  destruct (sect_rs_bits section) as [rs|e]; cbn [bind]; [|discriminate].
  destruct (sect_chars_xor section) as [ch|e]; cbn [bind]; [|discriminate].
  destruct (entropy bz2_compress exe1 section) as [en1|e] eqn:E1; cbn [bind];
    [|discriminate].
  destruct (entropy bz2_compress exe2 section) as [en2|e] eqn:E2; cbn [bind];
    [|discriminate].
  intros H1 H2. apply Ok_inj in H1. apply Ok_inj in H2. subst f1 f2.
  rewrite !length_app.
  now rewrite (entropy_length _ _ _ _ E1), (entropy_length _ _ _ _ E2).
Qed.

Lemma table_fragments_same_length (exe1 exe2 : PE) (todo : list SECTION.t)
    (r1 r2 : BitArray) :
  table_fragments bz2_compress exe1 todo = Ok r1 ->
  table_fragments bz2_compress exe2 todo = Ok r2 ->
  length r1 = length r2.
Proof.
  revert r1 r2. induction todo as [|section rest IH]; intros r1 r2;
    cbn [table_fragments].
  - intros H1 H2. apply Ok_inj in H1. apply Ok_inj in H2. now subst.
  - destruct (section_fragments bz2_compress exe1 section) as [f1|e] eqn:F1;
      cbn [bind]; [|discriminate].
    destruct (section_fragments bz2_compress exe2 section) as [f2|e] eqn:F2;
      cbn [bind]; [|discriminate].
    destruct (table_fragments bz2_compress exe1 rest) as [t1|e]; cbn [bind];
      [|discriminate].
    destruct (table_fragments bz2_compress exe2 rest) as [t2|e]; cbn [bind];
      [|discriminate].
    intros H1 H2. apply Ok_inj in H1. apply Ok_inj in H2. subst r1 r2.
    rewrite !length_app.
    now rewrite (section_fragments_same_length _ _ _ _ _ F1 F2), (IH t1 t2).
Qed.

(** Sections with the same entropy fragments in two files give the same
    fragments. *)
Lemma table_fragments_same_entropy (exe1 exe2 : PE) (todo : list SECTION.t) :
  Forall (fun s => entropy bz2_compress exe1 s = entropy bz2_compress exe2 s) todo ->
  table_fragments bz2_compress exe1 todo = table_fragments bz2_compress exe2 todo.
Proof.
  induction 1 as [|section rest Hs _ IH]; [reflexivity|].
  cbn [table_fragments]. unfold section_fragments. now rewrite Hs, IH.
Qed.

(** The bit string of an image, cut around the raw-size fragment of one
    of its sections. *)
Lemma pehash_bin_around (exe : PE) (pre post : list SECTION.t)
    (section : SECTION.t) (bits : BitArray) :
  sections exe = pre ++ section :: post ->
  u32 (SECTION.SizeOfRawData section) ->
  pehash_bin bz2_compress exe = Ok bits ->
  exists h p tl : BitArray,
    scalar_fragments exe = Ok h
    /\ table_fragments bz2_compress exe pre = Ok p
    /\ bits = (h ++ p ++ sect_va section)
                ++ be_bits 23 (bit_field 32 (packed (SECTION.SizeOfRawData section)) 8 31)
                ++ tl.
Proof.
  intros Hsec Hs H. rewrite pehash_bin_concat, Hsec, table_fragments_app in H.
  destruct (scalar_fragments exe) as [h|e]; cbn [bind] in H; [|discriminate].
  destruct (table_fragments bz2_compress exe pre) as [p|e]; cbn [bind] in H; [|discriminate].
  cbn [table_fragments] in H. unfold section_fragments in H.
  rewrite (sect_rs_bits_bits _ Hs) in H. cbn [bind] in H.
  destruct (sect_chars_xor section) as [ch|e]; cbn [bind] in H; [|discriminate].
  destruct (entropy bz2_compress exe section) as [en|e]; cbn [bind] in H; [|discriminate].
  destruct (table_fragments bz2_compress exe post) as [q|e]; cbn [bind] in H; [|discriminate].
  apply Ok_inj in H. subst bits.
  exists h, p, (ch ++ en ++ q). repeat split.
  now rewrite <- !app_assoc.
Qed.

(** C8, amended: for two images, each with its own bytes, that differ in
    the raw size of one section and in nothing else that [pefile] reads:
    when bits 8-30 of the two packed sizes differ, the hash inputs
    differ; when they agree and the entropy fragment of every section is
    the same in the two files, the digests are equal. *)
Theorem raw_size_sensitivity (exe1 exe2 : PE) (pre post : list SECTION.t)
    (section : SECTION.t) (size' : N) :
  differ_in_raw_size exe1 exe2 pre post section size' ->
  u32 (SECTION.SizeOfRawData section) ->
  u32 size' ->
  let section' := with_raw_size section size' in
  let f := bit_field 32 (packed (SECTION.SizeOfRawData section)) 8 31 in
  let f' := bit_field 32 (packed size') 8 31 in
  (f <> f' ->
   forall b1 b2 : BitArray,
     pehash_bin bz2_compress exe1 = Ok b1 ->
     pehash_bin bz2_compress exe2 = Ok b2 ->
     tobytes b1 <> tobytes b2)
  /\ (f = f' ->
      Forall (fun s => entropy bz2_compress exe1 s = entropy bz2_compress exe2 s)
        (pre ++ post) ->
      entropy bz2_compress exe1 section = entropy bz2_compress exe2 section' ->
      _get_pehash bz2_compress exe1 = _get_pehash bz2_compress exe2).
Proof.
  intros (Hfh & Hoh & S1 & S2) Hs Hs' section' f f'. subst section'. split.
  - intros Hf b1 b2 H1 H2 Hb.
    apply (pehash_bin_around exe1 pre post section b1 S1 Hs) in H1.
    apply (pehash_bin_around exe2 pre post (with_raw_size section size') b2 S2 Hs') in H2.
    destruct H1 as (h & p & tl & Eh & Ep & ->).
    destruct H2 as (h' & p' & tl' & Eh' & Ep' & ->).
    rewrite (scalar_fragments_headers exe1 exe2 Hfh Hoh), Eh' in Eh.
    apply Ok_inj in Eh. subst h'.
    pose proof (table_fragments_same_length exe1 exe2 pre p p' Ep Ep') as Lp.
    apply (f_equal of_bytes) in Hb. rewrite !of_bytes_tobytes in Hb.
    change (sect_va (with_raw_size section size')) with (sect_va section) in Hb.
    rewrite <- !app_assoc in Hb.
    apply app_inv_head in Hb.
    apply app_same_length_tail in Hb; [|exact Lp].
    apply app_inv_head in Hb.
    apply app_same_length in Hb; [|now rewrite !be_bits_length].
    apply Hf. apply (be_bits_inj 23); [apply bit_field_bound .. | exact Hb].
  - intros Hf Hall Hen. unfold _get_pehash. rewrite !pehash_bin_concat.
    rewrite (scalar_fragments_headers exe1 exe2 Hfh Hoh).
    replace (table_fragments bz2_compress exe2 (sections exe2))
      with (table_fragments bz2_compress exe1 (sections exe1)); [reflexivity|].
    rewrite S1, S2, !table_fragments_app. cbn [table_fragments].
    apply Forall_app in Hall. destruct Hall as [Hpre Hpost].
    rewrite (table_fragments_same_entropy exe1 exe2 pre Hpre).
    rewrite (table_fragments_same_entropy exe1 exe2 post Hpost).
    unfold section_fragments. rewrite Hen.
    rewrite (sect_rs_bits_bits section Hs), (sect_rs_bits_bits (with_raw_size section size') Hs').
    cbn [SECTION.SizeOfRawData with_raw_size]. fold f f'. rewrite Hf.
    reflexivity.
Qed.

End Sensitivity.

(** Past the end of the file the tail is empty: the entropy fragment only
    asks the compressor for the length of an empty stream. *)
Lemma entropy_past_eof (bz2_compress : list byte -> list byte) (exe : PE)
    (section : SECTION.t) :
  (N.of_nat (length (write exe))
   <= SECTION.VirtualAddress section + SECTION.SizeOfRawData section)%N ->
  SECTION.SizeOfRawData section <> 0%N ->
  entropy bz2_compress exe section =
  (k <- pyfloat.true_divide (N.of_nat (length (bz2_compress [])))
         (SECTION.SizeOfRawData section) ;;
   w <- pyfloat.pack_f k ;;
   Ok (be_bits 7 (bit_field 32 w 0 7))).
Proof.
  intros Heof Hsize. unfold entropy, kolmog.
  rewrite skipn_all2 by lia.
  destruct (N.eqb_spec (SECTION.SizeOfRawData section) 0) as [E|_]; [contradiction|].
  destruct (pyfloat.true_divide _ _) as [k|e]; cbn [bind]; [|reflexivity].
  unfold of_float32.
  destruct (pyfloat.pack_f k) as [w|e]; cbn [bind]; [|reflexivity].
  now rewrite slice_bit_field by lia.
Qed.

(** An i386 executable whose one code section, at 0x1000, has the given
    raw size; [data] is the byte string that [exe.write()] returns. *)
Definition sized_image (size : N) (data : list byte) : PE :=
  mkPE 0x0102 0x014c 0x1000 0x1000 [mkS 0x1000 size 0x60000020] data.

(** Two byte strings that differ in their first byte and end before the
    tail of the section. *)
Definition bytes_a : list byte := [x00; x10; x00; x00].
Definition bytes_b : list byte := [x01; x10; x00; x00].

Lemma sized_image_digest (bz2_compress : list byte -> list byte) (size : N)
    (data : list byte) :
  length (bz2_compress []) = 14 ->
  size <> 0%N ->
  length data <= 4096 ->
  _get_pehash bz2_compress (sized_image size data) =
  (h <- scalar_fragments (sized_image size data) ;;
   rs <- sect_rs_bits (mkS 0x1000 size 0x60000020) ;;
   ch <- sect_chars_xor (mkS 0x1000 size 0x60000020) ;;
   k <- pyfloat.true_divide 14 size ;;
   w <- pyfloat.pack_f k ;;
   Ok (hashlib.hexdigest
         (tobytes (h ++ sect_va (mkS 0x1000 size 0x60000020) ++ rs ++ ch
                     ++ be_bits 7 (bit_field 32 w 0 7))))).
Proof.
  intros L Hsize Hdata. unfold _get_pehash. rewrite pehash_bin_concat.
  destruct (scalar_fragments (sized_image size data)) as [h|e]; cbn [bind]; [|reflexivity].
  cbn [sections sized_image mkPE table_fragments]. unfold section_fragments.
  destruct (sect_rs_bits _) as [rs|e]; cbn [bind]; [|reflexivity].
  destruct (sect_chars_xor _) as [ch|e]; cbn [bind]; [|reflexivity].
  rewrite entropy_past_eof.
  - rewrite L. change (N.of_nat 14) with 14%N.
    cbn [SECTION.SizeOfRawData mkS].
    destruct (pyfloat.true_divide 14 size) as [k|e]; cbn [bind]; [|reflexivity].
    destruct (pyfloat.pack_f k) as [w|e]; cbn [bind]; [|reflexivity].
    now rewrite app_nil_r.
  - cbn [write sized_image mkPE mkS SECTION.VirtualAddress SECTION.SizeOfRawData]. lia.
  - exact Hsize.
Qed.

Lemma sized_images_differ (size size' : N) (data data' : list byte) :
  differ_in_raw_size (sized_image size data) (sized_image size' data') [] []
    (mkS 0x1000 size 0x60000020) size'.
Proof. repeat split. Qed.

(** C8, as stated, fails on both sides, for every compressor that gives
    the 14 bytes of [bz2.compress] on the empty string, on files with
    different bytes.  Raw sizes 0x1000 and 0x1001 differ in their low 24
    bits and give one digest; raw sizes 0x01000000 and 0x10000000 differ
    only above bit 24 and give two. *)
Lemma raw_size_sensitivity_fails :
  ~ (exists bz2_compress : list byte -> list byte,
       length (bz2_compress []) = 14
       /\ forall (exe1 exe2 : PE) (pre post : list SECTION.t) (section : SECTION.t)
                 (size' : N),
            differ_in_raw_size exe1 exe2 pre post section size' ->
            valid_PE exe1 ->
            u32 size' ->
            (SECTION.SizeOfRawData section mod 2 ^ 24 <> size' mod 2 ^ 24)%N ->
            _get_pehash bz2_compress exe1 <> _get_pehash bz2_compress exe2)
  /\ ~ (exists bz2_compress : list byte -> list byte,
          length (bz2_compress []) = 14
          /\ forall (exe1 exe2 : PE) (pre post : list SECTION.t) (section : SECTION.t)
                    (size' : N),
               differ_in_raw_size exe1 exe2 pre post section size' ->
               valid_PE exe1 ->
               u32 size' ->
               (2 ^ 24 <= SECTION.SizeOfRawData section)%N ->
               (2 ^ 24 <= size')%N ->
               (SECTION.SizeOfRawData section mod 2 ^ 24 = size' mod 2 ^ 24)%N ->
               _get_pehash bz2_compress exe1 = _get_pehash bz2_compress exe2).
Proof.
  split; intros (bz2 & L & H).
  - apply (H (sized_image 0x1000 bytes_a) (sized_image 0x1001 bytes_b) [] []
             (mkS 0x1000 0x1000 0x60000020) 0x1001%N);
      [apply sized_images_differ | valid_image | unfold u32; lia
      | vm_compute; discriminate |].
    rewrite !sized_image_digest by (assumption || discriminate || (cbn; lia)).
    vm_compute. reflexivity.
  - specialize (H (sized_image 0x01000000 bytes_a) (sized_image 0x10000000 bytes_b) [] []
                  (mkS 0x1000 0x01000000 0x60000020) 0x10000000%N
                  (sized_images_differ _ _ _ _)).
    cbn [SECTION.SizeOfRawData mkS] in H.
    rewrite !sized_image_digest in H by (assumption || discriminate || (cbn; lia)).
    assert (Hv : valid_PE (sized_image 0x01000000 bytes_a)) by valid_image.
    assert (Hu : u32 0x10000000) by (unfold u32; lia).
    specialize (H Hv Hu ltac:(vm_compute; discriminate) ltac:(vm_compute; discriminate)
                  eq_refl).
    vm_compute in H. discriminate H.
Qed.

(** A second section, of no raw data, before the one whose size changes. *)
Definition two_sections (size : N) (data : list byte) : PE :=
  mkPE 0x0102 0x014c 0x1000 0x1000
    [mkS 0x2000 0 0xC0000040; mkS 0x1000 size 0x60000020] data.

Lemma raw_size_sensitivity_witness :
  (forall b1 b2 : BitArray,
     pehash_bin bz2_on_empty (two_sections 0x200 bytes_a) = Ok b1 ->
     pehash_bin bz2_on_empty (two_sections 0x400 bytes_b) = Ok b2 ->
     tobytes b1 <> tobytes b2)
  /\ _get_pehash bz2_on_empty (two_sections 0x1000 bytes_a)
     = _get_pehash bz2_on_empty (two_sections 0x1001 bytes_b).
Proof.
  split.
  - apply (proj1 (raw_size_sensitivity bz2_on_empty
                    (two_sections 0x200 bytes_a) (two_sections 0x400 bytes_b)
                    [mkS 0x2000 0 0xC0000040] [] (mkS 0x1000 0x200 0x60000020) 0x400%N
                    ltac:(repeat split)
                    ltac:(unfold u32; cbn; lia) ltac:(unfold u32; lia))).
    vm_compute. discriminate.
  - apply (proj2 (raw_size_sensitivity bz2_on_empty
                    (two_sections 0x1000 bytes_a) (two_sections 0x1001 bytes_b)
                    [mkS 0x2000 0 0xC0000040] [] (mkS 0x1000 0x1000 0x60000020) 0x1001%N
                    ltac:(repeat split)
                    ltac:(unfold u32; cbn; lia) ltac:(unfold u32; lia))).
    + vm_compute. reflexivity.
    + repeat constructor.
    + vm_compute. reflexivity.
Defined.

(** * Further properties of [_get_pehash] *)

(** ** When the folds raise *)

Section FoldFailures.

Local Open Scope N_scope.

Lemma packed_len_8 (v : N) : v < 0x100 -> packed_len v = 8%nat.
Proof.
  intros Hv. pose proof (hex_len_pos v) as H1.
  assert (H2 : (hex_len v <= 2)%nat) by (apply hex_len_le; [lia | exact Hv]).
  unfold packed_len. destruct (hex_len v) as [|[|[|h]]]; try lia; reflexivity.
Qed.

Lemma packed_len_24 (v : N) : 0x10000 <= v < 0x1000000 -> packed_len v = 24%nat.
Proof.
  intros [Hlo Hhi]. unfold packed_len.
  destruct (N.lt_ge_cases v 0x100000) as [H|H].
  - rewrite (hex_len_eq v 4); [reflexivity | cbn; lia].
  - rewrite (hex_len_eq v 5); [reflexivity | cbn; lia].
Qed.

Lemma slice_past_end (b : BitArray) (start stop : nat) :
  (length b <= start)%nat -> slice b start stop = [].
Proof. intros H. unfold slice. rewrite skipn_all2 by exact H. apply firstn_nil. Qed.

(** Lines 261-264 and 270-273: a file-header fold raises exactly on the
    values of one or two hex digits, and then it raises [ValueError]. *)
Theorem header_fold_raises_iff (exe : PE) :
  valid_PE exe ->
  (img_chars_xor exe = Raise ValueError
   <-> FILE_HEADER.Characteristics (FILE_HEADER exe) < 0x100)
  /\ (sub_chars_xor exe = Raise ValueError
      <-> FILE_HEADER.Machine (FILE_HEADER exe) < 0x100)
  /\ (forall e : exn,
        img_chars_xor exe = Raise e \/ sub_chars_xor exe = Raise e -> e = ValueError).
Proof.
  intros (Hc & Hm & _).
  assert (Hiff : forall v, u16 v -> (xor_fold16 v = Raise ValueError <-> v < 0x100)).
  { intros v Hv. split.
    - intros H. destruct (N.lt_ge_cases v 0x100) as [Hlt|Hge]; [exact Hlt|].
      rewrite (xor_fold16_bits v (conj Hge Hv)) in H. discriminate H.
    - apply xor_fold16_short. }
  assert (Honly : forall v e, u16 v -> xor_fold16 v = Raise e -> e = ValueError).
  { intros v e Hv H. destruct (N.lt_ge_cases v 0x100) as [Hlt|Hge].
    - rewrite (xor_fold16_short v Hlt) in H. now injection H.
    - rewrite (xor_fold16_bits v (conj Hge Hv)) in H. discriminate H. }
  split; [apply Hiff; exact Hc|]. split; [apply Hiff; exact Hm|].
  intros e [H|H]; [apply (Honly _ _ Hc H) | apply (Honly _ _ Hm H)].
Qed.

Lemma header_fold_raises_iff_witness :
  (img_chars_xor amd64_image = Raise ValueError
   <-> FILE_HEADER.Characteristics (FILE_HEADER amd64_image) < 0x100)
  /\ (sub_chars_xor amd64_image = Raise ValueError
      <-> FILE_HEADER.Machine (FILE_HEADER amd64_image) < 0x100)
  /\ (forall e : exn,
        img_chars_xor amd64_image = Raise e \/ sub_chars_xor amd64_image = Raise e ->
        e = ValueError).
Proof. apply (header_fold_raises_iff amd64_image). valid_image. Defined.

Lemma sect_chars_xor_narrow (section : SECTION.t) :
  SECTION.Characteristics section < 0x10000 -> sect_chars_xor section = Ok [].
Proof.
  intros H. unfold sect_chars_xor. rewrite pack_of_hex.
  assert (L : (packed_len (SECTION.Characteristics section) <= 16)%nat).
  { destruct (N.lt_ge_cases (SECTION.Characteristics section) 0x100) as [H8|H8].
    - rewrite (packed_len_8 _ H8). lia.
    - rewrite (packed_len_16 _ (conj H8 H)). lia. }
  rewrite !slice_past_end by (rewrite be_bits_length; lia). reflexivity.
Qed.

Lemma sect_chars_xor_mid (section : SECTION.t) :
  0x10000 <= SECTION.Characteristics section < 0x1000000 ->
  sect_chars_xor section = Raise ValueError.
Proof.
  intros H. unfold sect_chars_xor.
  rewrite pack_of_hex, (packed_len_24 _ H).
  rewrite (slice_past_end (be_bits 24 _) 24 31) by (rewrite be_bits_length; lia).
  unfold xor. rewrite slice_length, be_bits_length. reflexivity.
Qed.

(** Lines 313-315: the section-characteristics fold by the number of hex
    digits: up to four digits both slices are empty and the fragment is
    empty; with five or six digits the second slice is empty and the XOR
    raises [ValueError]; with seven or eight digits it gives 7 bits. *)
Theorem sect_chars_xor_cases (section : SECTION.t) :
  u32 (SECTION.Characteristics section) ->
  (sect_chars_xor section = Ok [] <-> SECTION.Characteristics section < 0x10000)
  /\ (sect_chars_xor section = Raise ValueError
      <-> 0x10000 <= SECTION.Characteristics section < 0x1000000)
  /\ ((exists ch : BitArray, sect_chars_xor section = Ok ch /\ length ch = 7%nat)
      <-> 0x1000000 <= SECTION.Characteristics section).
Proof.
  intros Hu. pose proof (sect_chars_xor_narrow section) as Hsmall.
  pose proof (sect_chars_xor_mid section) as Hmid.
  set (c := SECTION.Characteristics section) in *.
  assert (Hwide : 0x1000000 <= c ->
                  exists ch, sect_chars_xor section = Ok ch /\ length ch = 7%nat).
  { intros H. eexists. split; [apply sect_chars_xor_bits; fold c; split; assumption|].
    apply be_bits_length. }
  destruct (N.lt_ge_cases c 0x10000) as [H1|H1];
    [|destruct (N.lt_ge_cases c 0x1000000) as [H2|H2]].
  - specialize (Hsmall H1). rewrite Hsmall.
    split; [tauto|]. split; [split; [intros E; discriminate E | lia]|].
    split; [|lia]. intros (ch & E & L).
    apply Ok_inj in E. subst ch. discriminate L.
  - specialize (Hmid (conj H1 H2)). rewrite Hmid.
    split; [split; [intros E; discriminate E | lia]|]. split; [tauto|].
    split; [|lia]. intros (ch & E & _). discriminate E.
  - destruct (Hwide H2) as (ch & E & L). rewrite E.
    split; [split; [|lia]|].
    { intros E'. apply Ok_inj in E'. subst ch. discriminate L. }
    split; [split; [intros E'; discriminate E' | lia]|].
    split; [intros _; exact H2|]. intros _. exists ch. split; [reflexivity | exact L].
Qed.

Lemma sect_chars_xor_cases_witness :
  (sect_chars_xor (mkS 0x1000 0x200 0xC00040) = Ok [] <-> 0xC00040 < 0x10000)
  /\ (sect_chars_xor (mkS 0x1000 0x200 0xC00040) = Raise ValueError
      <-> 0x10000 <= 0xC00040 < 0x1000000)
  /\ ((exists ch : BitArray,
          sect_chars_xor (mkS 0x1000 0x200 0xC00040) = Ok ch /\ length ch = 7%nat)
      <-> 0x1000000 <= 0xC00040).
Proof. apply (sect_chars_xor_cases (mkS 0x1000 0x200 0xC00040)). unfold u32. cbn. lia. Defined.

End FoldFailures.

(** ** Which exceptions escape *)

Lemma xor_raises (a b : BitArray) (e : exn) :
  xor a b = Raise e -> e = ValueError /\ length a <> length b.
Proof.
  unfold xor. destruct (Nat.eqb_spec (length a) (length b)) as [E|E]; intros H;
    [discriminate H | injection H as <-; split; [reflexivity | exact E]].
Qed.

Lemma xor_unequal (a b : BitArray) :
  length a <> length b -> xor a b = Raise ValueError.
Proof.
  intros H. unfold xor. destruct (Nat.eqb_spec (length a) (length b)); [contradiction|].
  reflexivity.
Qed.

(** Lines 304-309 raise nothing, whatever the raw size. *)
Lemma sect_rs_bits_total (section : SECTION.t) :
  exists rs : BitArray, sect_rs_bits section = Ok rs.
Proof. unfold sect_rs_bits. rewrite of_bin_zfill. cbn [bind]. eexists. reflexivity. Qed.

Lemma pack_f_raises (k : pyfloat.float) (e : exn) :
  pyfloat.pack_f k = Raise e -> e = OverflowError.
Proof.
  destruct k as [s|s| |s m x]; cbn [pyfloat.pack_f]; try discriminate.
  destruct (binary_round 24 128 s m x) as [s'|s'| |s' m' x'];
    try discriminate; try (intros H; now injection H).
  destruct (8388608 <=? Z.pos m')%Z; discriminate.
Qed.

Lemma true_divide_raises (a b : N) (e : exn) :
  b <> 0%N -> pyfloat.true_divide a b = Raise e -> e = OverflowError.
Proof.
  intros Hb. unfold pyfloat.true_divide.
  destruct a as [|pa], b as [|pb]; try contradiction; try discriminate.
  destruct (SFdiv 53 1024 _ _); try discriminate. intros H. now injection H.
Qed.

(** The entropy step raises only past the test [size == 0], and then an
    [OverflowError]: of the division or of the packing of the quotient. *)
Lemma kolmog_raises (bz2_compress : list byte -> list byte) (exe : PE)
    (section : SECTION.t) (e : exn) :
  kolmog bz2_compress exe section = Raise e ->
  e = OverflowError /\ SECTION.SizeOfRawData section <> 0%N.
Proof.
  unfold kolmog.
  destruct (N.eqb_spec (SECTION.SizeOfRawData section) 0) as [Z|NZ]; [discriminate|].
  intros H. split; [|exact NZ]. revert H.
  destruct (pyfloat.true_divide _ _) as [k|e'] eqn:E; cbn [bind].
  - unfold of_float32. destruct (pyfloat.pack_f k) as [w|e'] eqn:Ep; cbn [bind];
      intros H; [discriminate H|]. injection H as <-. exact (pack_f_raises _ _ Ep).
  - intros H. injection H as <-. exact (true_divide_raises _ _ _ NZ E).
Qed.

(** The two slices that lines 264 and 273 XOR, and the two of line 315. *)
Definition header_slices (v : N) : BitArray * BitArray :=
  let chars := of_bytes (tobytes (of_hex v)) in
  (slice chars 0 7, slice chars 8 15).

Definition section_slices (section : SECTION.t) : BitArray * BitArray :=
  let sect_chars := of_bytes (tobytes (of_hex (SECTION.Characteristics section))) in
  (slice sect_chars 16 23, slice sect_chars 24 31).

Definition unequal (p : BitArray * BitArray) : Prop :=
  length (fst p) <> length (snd p).

Lemma xor_fold16_slices (v : N) :
  xor_fold16 v = xor (fst (header_slices v)) (snd (header_slices v)).
Proof. reflexivity. Qed.

Lemma sect_chars_xor_slices (section : SECTION.t) :
  sect_chars_xor section
  = xor (fst (section_slices section)) (snd (section_slices section)).
Proof. reflexivity. Qed.

(** Some XOR of the function is given two slices of different lengths. *)
Definition xor_of_unequal_slices (exe : PE) : Prop :=
  unequal (header_slices (FILE_HEADER.Characteristics (FILE_HEADER exe)))
  \/ unequal (header_slices (FILE_HEADER.Machine (FILE_HEADER exe)))
  \/ exists section : SECTION.t,
       In section (sections exe) /\ unequal (section_slices section).

Section Exceptions.

Variable bz2_compress : list byte -> list byte.

(** The entropy step of some section with raw data overflows. *)
Definition entropy_overflows (exe : PE) : Prop :=
  exists section : SECTION.t,
    In section (sections exe)
    /\ SECTION.SizeOfRawData section <> 0%N
    /\ kolmog bz2_compress exe section = Raise OverflowError.

(** What makes one pass of the loop raise [e]. *)
Definition section_raises (exe : PE) (section : SECTION.t) (e : exn) : Prop :=
  (e = ValueError /\ unequal (section_slices section))
  \/ (e = OverflowError
      /\ SECTION.SizeOfRawData section <> 0%N
      /\ kolmog bz2_compress exe section = Raise OverflowError).

Lemma section_fragments_raises (exe : PE) (section : SECTION.t) (e : exn) :
  section_fragments bz2_compress exe section = Raise e ->
  section_raises exe section e.
Proof.
  unfold section_fragments, entropy, section_raises.
  destruct (sect_rs_bits_total section) as [rs ->]. cbn [bind].
  destruct (sect_chars_xor section) as [ch|e'] eqn:Ec; cbn [bind].
  - destruct (kolmog bz2_compress exe section) as [k|e'] eqn:Ek; cbn [bind];
      intros H; [discriminate H|]. injection H as <-.
    right. destruct (kolmog_raises _ _ _ _ Ek) as [-> NZ].
    split; [reflexivity | split; [exact NZ | reflexivity]].
  - intros H. injection H as <-. left. rewrite sect_chars_xor_slices in Ec.
    exact (xor_raises _ _ _ Ec).
Qed.

Lemma table_fragments_raises (exe : PE) (todo : list SECTION.t) (e : exn) :
  table_fragments bz2_compress exe todo = Raise e ->
  exists section : SECTION.t, In section todo /\ section_raises exe section e.
Proof.
  induction todo as [|section rest IH]; cbn [table_fragments]; [discriminate|].
  destruct (section_fragments bz2_compress exe section) as [f|e'] eqn:Ef; cbn [bind].
  - destruct (table_fragments bz2_compress exe rest) as [r|e'']; cbn [bind];
      intros H; [discriminate H|]. injection H as <-.
    destruct (IH eq_refl) as (s & Hs & Hc). exists s. split; [now right | exact Hc].
  - intros H. injection H as <-. exists section.
    split; [now left | exact (section_fragments_raises _ _ _ Ef)].
Qed.

(** A table that is folded has no section that raises. *)
Lemma table_fragments_ok (exe : PE) (todo : list SECTION.t) (r : BitArray) :
  table_fragments bz2_compress exe todo = Ok r ->
  forall section : SECTION.t, In section todo ->
    exists f : BitArray, section_fragments bz2_compress exe section = Ok f.
Proof.
  revert r. induction todo as [|s rest IH]; intros r H section Hin; [destruct Hin|].
  cbn [table_fragments] in H.
  destruct (section_fragments bz2_compress exe s) as [f|e] eqn:Ef; cbn [bind] in H;
    [|discriminate].
  destruct (table_fragments bz2_compress exe rest) as [t|e]; cbn [bind] in H;
    [|discriminate].
  destruct Hin as [<-|Hin]; [now exists f | exact (IH t eq_refl section Hin)].
Qed.

Lemma section_raises_not_ok (exe : PE) (section : SECTION.t) (e : exn) (f : BitArray) :
  section_raises exe section e ->
  section_fragments bz2_compress exe section = Ok f -> False.
Proof.
  unfold section_fragments, entropy. intros [[_ Hu]|(_ & _ & Hk)].
  - rewrite sect_chars_xor_slices, (xor_unequal _ _ Hu).
    destruct (sect_rs_bits section); discriminate.
  - rewrite Hk. destruct (sect_rs_bits section); cbn [bind]; [|discriminate].
    destruct (sect_chars_xor section); discriminate.
Qed.

(** Lines 259-336, on a valid image.  The commit-size folds and the
    raw-size step never raise: their zero-filled binary strings always
    parse and their slices have one length.  When [_get_pehash] raises,
    it is either [ValueError], and then some XOR of the function was
    given two slices of different lengths, or [OverflowError], and then
    the entropy step of a section whose raw size is not zero overflowed;
    the test [size == 0] leaves no [ZeroDivisionError].  Conversely each
    of these causes makes [_get_pehash] raise. *)
Theorem get_pehash_exceptions (exe : PE) :
  valid_PE exe ->
  (exists c d : BitArray, stk_size_xor exe = Ok c /\ hp_size_xor exe = Ok d)
  /\ (forall section : SECTION.t, In section (sections exe) ->
        exists rs : BitArray, sect_rs_bits section = Ok rs)
  /\ (forall e : exn, _get_pehash bz2_compress exe = Raise e ->
        (e = ValueError /\ xor_of_unequal_slices exe)
        \/ (e = OverflowError /\ entropy_overflows exe))
  /\ (xor_of_unequal_slices exe \/ entropy_overflows exe ->
      exists e : exn, _get_pehash bz2_compress exe = Raise e).
Proof.
  intros (_ & _ & Hs & Hh & _).
  assert (Es : stk_size_xor exe = Ok _) by exact (xor_fold32_bits _ Hs).
  assert (Eh : hp_size_xor exe = Ok _) by exact (xor_fold32_bits _ Hh).
  split; [eexists; eexists; split; [exact Es | exact Eh]|].
  split; [intros section _; apply sect_rs_bits_total|].
  unfold _get_pehash. rewrite pehash_bin_concat. unfold scalar_fragments.
  rewrite Es, Eh. unfold img_chars_xor, sub_chars_xor.
  rewrite !xor_fold16_slices.
  unfold xor_of_unequal_slices, entropy_overflows.
  set (hc := header_slices (FILE_HEADER.Characteristics (FILE_HEADER exe))).
  set (hm := header_slices (FILE_HEADER.Machine (FILE_HEADER exe))).
  split.
  - intros e.
    destruct (xor (fst hc) (snd hc)) as [a|e1] eqn:E1; cbn [bind].
    2:{ intros H. injection H as <-. destruct (xor_raises _ _ _ E1) as [-> U].
        left. split; [reflexivity | left; exact U]. }
    destruct (xor (fst hm) (snd hm)) as [b|e2] eqn:E2; cbn [bind].
    2:{ intros H. injection H as <-. destruct (xor_raises _ _ _ E2) as [-> U].
        left. split; [reflexivity | right; left; exact U]. }
    destruct (table_fragments bz2_compress exe (sections exe)) as [r|e'] eqn:Et;
      cbn [bind]; intros H; [discriminate H|]. injection H as <-.
    destruct (table_fragments_raises _ _ _ Et) as (s & Hin & [[-> U]|(-> & NZ & K)]).
    + left. split; [reflexivity|]. right; right. exists s. split; assumption.
    + right. split; [reflexivity|]. exists s. repeat split; assumption.
  - intros Hcause.
    destruct (xor (fst hc) (snd hc)) as [a|e1] eqn:E1; cbn [bind];
      [|eexists; reflexivity].
    destruct (xor (fst hm) (snd hm)) as [b|e2] eqn:E2; cbn [bind];
      [|eexists; reflexivity].
    destruct (table_fragments bz2_compress exe (sections exe)) as [r|e'] eqn:Et;
      cbn [bind]; [exfalso | eexists; reflexivity].
    pose proof (table_fragments_ok _ _ _ Et) as Hok.
    destruct Hcause as [[U|[U|(s & Hin & U)]]|(s & Hin & NZ & K)].
    + rewrite (xor_unequal _ _ U) in E1. discriminate E1.
    + rewrite (xor_unequal _ _ U) in E2. discriminate E2.
    + destruct (Hok s Hin) as [f Hf].
      apply (section_raises_not_ok exe s ValueError f);
        [left; split; [reflexivity | exact U] | exact Hf].
    + destruct (Hok s Hin) as [f Hf].
      apply (section_raises_not_ok exe s OverflowError f);
        [right; split; [reflexivity | split; [exact NZ | exact K]] | exact Hf].
Qed.

End Exceptions.

Lemma get_pehash_exceptions_witness :
  (exists c d : BitArray,
      stk_size_xor amd64_image = Ok c /\ hp_size_xor amd64_image = Ok d)
  /\ (forall section : SECTION.t, In section (sections amd64_image) ->
        exists rs : BitArray, sect_rs_bits section = Ok rs)
  /\ (forall e : exn, _get_pehash bz2_on_empty amd64_image = Raise e ->
        (e = ValueError /\ xor_of_unequal_slices amd64_image)
        \/ (e = OverflowError /\ entropy_overflows bz2_on_empty amd64_image))
  /\ (xor_of_unequal_slices amd64_image \/ entropy_overflows bz2_on_empty amd64_image ->
      exists e : exn, _get_pehash bz2_on_empty amd64_image = Raise e).
Proof. apply (get_pehash_exceptions bz2_on_empty amd64_image). valid_image. Defined.

(** ** When a digest comes out *)

(** The images every fold accepts: header fields of three or four hex
    digits, section characteristics of at most four or at least seven. *)
Definition foldable_section (section : SECTION.t) : Prop :=
  (SECTION.Characteristics section < 0x10000
   \/ 0x1000000 <= SECTION.Characteristics section)%N.

Definition foldable (exe : PE) : Prop :=
  (0x100 <= FILE_HEADER.Characteristics (FILE_HEADER exe))%N
  /\ (0x100 <= FILE_HEADER.Machine (FILE_HEADER exe))%N
  /\ Forall foldable_section (sections exe).

Section DigestOrValueError.

Variable bz2_compress : list byte -> list byte.

(** The entropy step of a section does not overflow. *)
Definition entropy_ok (exe : PE) (section : SECTION.t) : Prop :=
  exists en : BitArray, entropy bz2_compress exe section = Ok en.

Lemma scalar_fragments_outcome (exe : PE) :
  valid_PE exe ->
  ((0x100 <= FILE_HEADER.Characteristics (FILE_HEADER exe))%N
   /\ (0x100 <= FILE_HEADER.Machine (FILE_HEADER exe))%N ->
   exists h, scalar_fragments exe = Ok h)
  /\ (~ ((0x100 <= FILE_HEADER.Characteristics (FILE_HEADER exe))%N
         /\ (0x100 <= FILE_HEADER.Machine (FILE_HEADER exe))%N) ->
      scalar_fragments exe = Raise ValueError).
Proof.
  intros (Hc & Hm & Hs & Hh & _).
  unfold scalar_fragments, img_chars_xor, sub_chars_xor, stk_size_xor, hp_size_xor.
  rewrite (xor_fold32_bits _ Hs), (xor_fold32_bits _ Hh).
  destruct (N.lt_ge_cases (FILE_HEADER.Characteristics (FILE_HEADER exe)) 0x100) as [C|C].
  - rewrite (xor_fold16_short _ C). cbn [bind]. split; [lia | reflexivity].
  - rewrite (xor_fold16_bits _ (conj C Hc)). cbn [bind].
    destruct (N.lt_ge_cases (FILE_HEADER.Machine (FILE_HEADER exe)) 0x100) as [M|M].
    + rewrite (xor_fold16_short _ M). cbn [bind]. split; [lia | reflexivity].
    + rewrite (xor_fold16_bits _ (conj M Hm)). cbn [bind].
      split; [intros _; eexists; reflexivity | intros H; exfalso; apply H; split; assumption].
Qed.

Lemma section_fragments_outcome (exe : PE) (section : SECTION.t) :
  valid_section section -> entropy_ok exe section ->
  (foldable_section section ->
   exists f, section_fragments bz2_compress exe section = Ok f)
  /\ (~ foldable_section section ->
      section_fragments bz2_compress exe section = Raise ValueError).
Proof.
  intros (_ & _ & Hc) (en & Hen). unfold section_fragments, foldable_section.
  destruct (sect_rs_bits_total section) as [rs ->]. cbn [bind]. rewrite Hen.
  destruct (N.lt_ge_cases (SECTION.Characteristics section) 0x10000) as [H1|H1];
    [|destruct (N.lt_ge_cases (SECTION.Characteristics section) 0x1000000) as [H2|H2]].
  - rewrite (sect_chars_xor_narrow _ H1). cbn [bind].
    split; [intros _; eexists; reflexivity | intros H; exfalso; apply H; now left].
  - rewrite (sect_chars_xor_mid _ (conj H1 H2)). cbn [bind].
    split; [intros [H|H]; lia | reflexivity].
  - rewrite (sect_chars_xor_bits _ (conj H2 Hc)). cbn [bind].
    split; [intros _; eexists; reflexivity | intros H; exfalso; apply H; now right].
Qed.

Lemma table_fragments_outcome (exe : PE) (todo : list SECTION.t) :
  Forall valid_section todo -> Forall (entropy_ok exe) todo ->
  (Forall foldable_section todo ->
   exists r, table_fragments bz2_compress exe todo = Ok r)
  /\ (~ Forall foldable_section todo ->
      table_fragments bz2_compress exe todo = Raise ValueError).
Proof.
  intros Hv. induction Hv as [|section rest Hs Hrest IH]; intros Hen;
    cbn [table_fragments].
  - split; [intros _; eexists; reflexivity | intros H; exfalso; apply H; constructor].
  - pose proof (Forall_inv Hen) as Hen1. pose proof (Forall_inv_tail Hen) as Hen2.
    destruct (section_fragments_outcome exe section Hs Hen1) as [Hok Hbad].
    destruct (IH Hen2) as [IHok IHbad].
    split.
    + intros Hf. destruct (Hok (Forall_inv Hf)) as [f ->]. cbn [bind].
      destruct (IHok (Forall_inv_tail Hf)) as [r ->]. cbn [bind].
      eexists; reflexivity.
    + intros Hnf.
      destruct (N.lt_ge_cases (SECTION.Characteristics section) 0x10000) as [H1|H1];
        [|destruct (N.lt_ge_cases (SECTION.Characteristics section) 0x1000000) as [H2|H2]].
      * destruct (Hok (or_introl H1)) as [f ->]. cbn [bind].
        rewrite IHbad; [reflexivity|].
        intros Hr. apply Hnf. constructor; [now left | exact Hr].
      * rewrite Hbad; [reflexivity|]. intros [H|H]; lia.
      * destruct (Hok (or_intror H2)) as [f ->]. cbn [bind].
        rewrite IHbad; [reflexivity|].
        intros Hr. apply Hnf. constructor; [now right | exact Hr].
Qed.

(** Lines 259-336: on a valid image whose entropy steps do not overflow,
    [_get_pehash] reports a digest when the header fields have at least
    three hex digits and no section has characteristics of five or six
    hex digits, and raises [ValueError] in every other case. *)
Theorem digest_or_ValueError (exe : PE) :
  valid_PE exe ->
  Forall (entropy_ok exe) (sections exe) ->
  (foldable exe -> exists output : string, _get_pehash bz2_compress exe = Ok output)
  /\ (~ foldable exe -> _get_pehash bz2_compress exe = Raise ValueError).
Proof.
  intros Hv Hen. unfold _get_pehash, foldable. rewrite pehash_bin_concat.
  destruct (scalar_fragments_outcome exe Hv) as [Sok Sbad].
  destruct Hv as (_ & _ & _ & _ & Hsec).
  destruct (table_fragments_outcome exe (sections exe) Hsec Hen) as [Tok Tbad].
  split.
  - intros (Hc & Hm & Hf).
    destruct (Sok (conj Hc Hm)) as [h ->]. cbn [bind].
    destruct (Tok Hf) as [r ->]. cbn [bind]. eexists; reflexivity.
  - intros Hnf.
    destruct (N.lt_ge_cases (FILE_HEADER.Characteristics (FILE_HEADER exe)) 0x100) as [C|C];
      [rewrite Sbad; [reflexivity | lia]|].
    destruct (N.lt_ge_cases (FILE_HEADER.Machine (FILE_HEADER exe)) 0x100) as [M|M];
      [rewrite Sbad; [reflexivity | lia]|].
    destruct (Sok (conj C M)) as [h ->]. cbn [bind].
    rewrite Tbad; [reflexivity|].
    intros Hf. apply Hnf. repeat split; assumption.
Qed.

End DigestOrValueError.

Lemma digest_or_ValueError_witness :
  (foldable scenario ->
   exists output : string, _get_pehash bz2_on_empty scenario = Ok output)
  /\ (~ foldable scenario -> _get_pehash bz2_on_empty scenario = Raise ValueError).
Proof.
  apply (digest_or_ValueError bz2_on_empty scenario); [valid_image|].
  repeat constructor. eexists. vm_compute. reflexivity.
Defined.

(** ** Values the fragments do not tell apart *)

Section Collisions.

Local Open Scope N_scope.

Lemma hex_len_mul16 (v : N) : v <> 0 -> hex_len (16 * v) = S (hex_len v).
Proof.
  destruct v as [|p]; [contradiction|]. intros _.
  change (16 * N.pos p) with (N.pos p~0~0~0~0). cbn [hex_len Pos.size_nat].
  replace (S (S (S (S (Pos.size_nat p)))) + 3)%nat
    with (1 * 4 + (Pos.size_nat p + 3))%nat by lia.
  now rewrite Nat.div_add_l by lia.
Qed.

Lemma pad8_odd (h : nat) : Nat.odd h = true -> pad8 (4 * h) = 4%nat.
Proof.
  intros H. apply Nat.odd_spec in H. destruct H as [k ->].
  pose proof (pad8_lt (4 * (2 * k + 1))).
  destruct (pad8_multiple (4 * (2 * k + 1))) as [q Hq]. lia.
Qed.

Lemma pad8_even (h : nat) : Nat.even h = true -> pad8 (4 * h) = 0%nat.
Proof.
  intros H. apply Nat.even_spec in H. destruct H as [k ->].
  pose proof (pad8_lt (4 * (2 * k))).
  destruct (pad8_multiple (4 * (2 * k))) as [q Hq]. lia.
Qed.

Lemma packed_mul16 (v : N) :
  v <> 0 -> Nat.odd (hex_len v) = true ->
  packed (16 * v) = packed v /\ packed_len (16 * v) = packed_len v.
Proof.
  intros Hv Hodd. unfold packed, packed_len.
  rewrite (hex_len_mul16 v Hv), (pad8_odd _ Hodd).
  rewrite pad8_even by (rewrite Nat.even_succ; exact Hodd).
  split; [|lia].
  rewrite N.shiftl_0_r, N.shiftl_mul_pow2. change (2 ^ N.of_nat 4) with 16. lia.
Qed.

(** Lines 299-300 and 304-305: a virtual address or a raw size with an
    odd number of hex digits is padded with four zero bits on the right,
    so it gives the fragment of 16 times its value: 0x10000 and 0x100000
    are not told apart. *)
Theorem odd_digits_collide (v a c : N) :
  v <> 0 ->
  Nat.odd (hex_len v) = true ->
  sect_va (mkS (16 * v) a c) = sect_va (mkS v a c)
  /\ sect_rs_bits (mkS a (16 * v) c) = sect_rs_bits (mkS a v c).
Proof.
  intros Hv Hodd. destruct (packed_mul16 v Hv Hodd) as [Hp Hl].
  unfold sect_va, sect_rs_bits. cbn [SECTION.VirtualAddress SECTION.SizeOfRawData mkS].
  rewrite !pack_of_hex, Hp, Hl. split; reflexivity.
Qed.

Lemma odd_digits_collide_witness :
  sect_va (mkS (16 * 0x10000) 0x200 0x60000020) = sect_va (mkS 0x10000 0x200 0x60000020)
  /\ sect_rs_bits (mkS 0x200 (16 * 0x10000) 0x60000020)
     = sect_rs_bits (mkS 0x200 0x10000 0x60000020).
Proof. apply (odd_digits_collide 0x10000 0x200 0x60000020); [discriminate | reflexivity]. Defined.

Lemma bit_field_masked (w : nat) (v v' m : N) (a b : nat) :
  (forall j, N.of_nat (w - b) <= j < N.of_nat (w - b) + N.of_nat (b - a) ->
             N.testbit m j = true) ->
  N.land v m = N.land v' m ->
  bit_field w v a b = bit_field w v' a b.
Proof.
  intros Hm H. unfold bit_field. apply N.bits_inj. intros i.
  destruct (N.lt_ge_cases i (N.of_nat (b - a))) as [Hi|Hi].
  - rewrite !N.mod_pow2_bits_low, !N.shiftr_spec' by assumption.
    apply (f_equal (fun x => N.testbit x (i + N.of_nat (w - b)))) in H.
    rewrite !N.land_spec, Hm, !andb_true_r in H by lia. exact H.
  - now rewrite !N.mod_pow2_bits_high.
Qed.

Lemma mask_FEFE (j : N) : 1 <= j < 8 \/ 9 <= j < 16 -> N.testbit 0xFEFE j = true.
Proof.
  intros H. destruct j as [|p]; [lia|].
  do 5 (destruct p as [p|p|]; try lia; try reflexivity).
Qed.

Lemma mask_FEFEFE (j : N) :
  1 <= j < 8 \/ 9 <= j < 16 \/ 17 <= j < 24 -> N.testbit 0xFEFEFE j = true.
Proof.
  intros H. destruct j as [|p]; [lia|].
  do 5 (destruct p as [p|p|]; try lia; try reflexivity).
Qed.

(** Lines 261-264 and 270-273: the slices end one bit before each byte
    does, so the last bit of either byte of the packed header field never
    reaches the fragment: two values that agree on the other 14 bits fold
    alike. *)
Theorem header_fold_ignores_last_bits (exe exe' : PE) :
  0x100 <= FILE_HEADER.Characteristics (FILE_HEADER exe) < 2 ^ 16 ->
  0x100 <= FILE_HEADER.Characteristics (FILE_HEADER exe') < 2 ^ 16 ->
  0x100 <= FILE_HEADER.Machine (FILE_HEADER exe) < 2 ^ 16 ->
  0x100 <= FILE_HEADER.Machine (FILE_HEADER exe') < 2 ^ 16 ->
  (N.land (packed (FILE_HEADER.Characteristics (FILE_HEADER exe))) 0xFEFE
   = N.land (packed (FILE_HEADER.Characteristics (FILE_HEADER exe'))) 0xFEFE ->
   img_chars_xor exe = img_chars_xor exe')
  /\ (N.land (packed (FILE_HEADER.Machine (FILE_HEADER exe))) 0xFEFE
      = N.land (packed (FILE_HEADER.Machine (FILE_HEADER exe'))) 0xFEFE ->
      sub_chars_xor exe = sub_chars_xor exe').
Proof.
  assert (G : forall v v', 0x100 <= v < 2 ^ 16 -> 0x100 <= v' < 2 ^ 16 ->
                N.land (packed v) 0xFEFE = N.land (packed v') 0xFEFE ->
                xor_fold16 v = xor_fold16 v').
  { intros v v' Hv Hv' H.
    rewrite (xor_fold16_bits v Hv), (xor_fold16_bits v' Hv').
    rewrite (bit_field_masked 16 (packed v) (packed v') 0xFEFE 0 7),
            (bit_field_masked 16 (packed v) (packed v') 0xFEFE 8 15);
      try exact H; try reflexivity; intros j Hj; apply mask_FEFE; cbn in Hj; lia. }
  intros Hc Hc' Hm Hm'. unfold img_chars_xor, sub_chars_xor.
  split; intros H; apply G; assumption.
Qed.

Lemma header_fold_ignores_last_bits_witness :
  (N.land (packed 0x0102) 0xFEFE = N.land (packed 0x0112) 0xFEFE ->
   img_chars_xor scenario = img_chars_xor (mkPE 0x0112 0x014d 0x1000 0x1000 [] []))
  /\ (N.land (packed 0x014c) 0xFEFE = N.land (packed 0x014d) 0xFEFE ->
      sub_chars_xor scenario = sub_chars_xor (mkPE 0x0112 0x014d 0x1000 0x1000 [] [])).
Proof.
  apply (header_fold_ignores_last_bits scenario (mkPE 0x0112 0x014d 0x1000 0x1000 [] []));
    cbn; lia.
Defined.

(** Lines 277-283 and 287-293: the commit-size fold reads bits 8-30 in
    three 7-bit slices, so the top byte of the size and the last bit of
    each other byte never reach the fragment. *)
Theorem commit_size_fold_ignores (exe exe' : PE) :
  u32 (OPTIONAL_HEADER.SizeOfStackCommit (OPTIONAL_HEADER exe)) ->
  u32 (OPTIONAL_HEADER.SizeOfStackCommit (OPTIONAL_HEADER exe')) ->
  u32 (OPTIONAL_HEADER.SizeOfHeapCommit (OPTIONAL_HEADER exe)) ->
  u32 (OPTIONAL_HEADER.SizeOfHeapCommit (OPTIONAL_HEADER exe')) ->
  (N.land (OPTIONAL_HEADER.SizeOfStackCommit (OPTIONAL_HEADER exe)) 0xFEFEFE
   = N.land (OPTIONAL_HEADER.SizeOfStackCommit (OPTIONAL_HEADER exe')) 0xFEFEFE ->
   stk_size_xor exe = stk_size_xor exe')
  /\ (N.land (OPTIONAL_HEADER.SizeOfHeapCommit (OPTIONAL_HEADER exe)) 0xFEFEFE
      = N.land (OPTIONAL_HEADER.SizeOfHeapCommit (OPTIONAL_HEADER exe')) 0xFEFEFE ->
      hp_size_xor exe = hp_size_xor exe').
Proof.
  assert (G : forall v v', u32 v -> u32 v' ->
                N.land v 0xFEFEFE = N.land v' 0xFEFEFE -> xor_fold32 v = xor_fold32 v').
  { intros v v' Hv Hv' H.
    rewrite (xor_fold32_bits v Hv), (xor_fold32_bits v' Hv').
    rewrite (bit_field_masked 32 v v' 0xFEFEFE 8 15),
            (bit_field_masked 32 v v' 0xFEFEFE 16 23),
            (bit_field_masked 32 v v' 0xFEFEFE 24 31);
      try exact H; try reflexivity; intros j Hj; apply mask_FEFEFE; cbn in Hj; lia. }
  intros Hs Hs' Hh Hh'. unfold stk_size_xor, hp_size_xor.
  split; intros H; apply G; assumption.
Qed.

Lemma commit_size_fold_ignores_witness :
  (N.land 0x1000 0xFEFEFE = N.land 0xFF001101 0xFEFEFE ->
   stk_size_xor scenario = stk_size_xor (mkPE 0x0102 0x014c 0xFF001101 0x01001000 [] []))
  /\ (N.land 0x1000 0xFEFEFE = N.land 0x01001000 0xFEFEFE ->
      hp_size_xor scenario = hp_size_xor (mkPE 0x0102 0x014c 0xFF001101 0x01001000 [] [])).
Proof.
  apply (commit_size_fold_ignores scenario
           (mkPE 0x0102 0x014c 0xFF001101 0x01001000 [] []));
    unfold u32; cbn; lia.
Defined.

End Collisions.

(** ** The two bytes of a header field are interchangeable *)

Section ByteSwap.

Local Open Scope N_scope.

(** The 16-bit value with its two bytes exchanged. *)
Definition swap16 (v : N) : N := N.lor (N.shiftl (N.land v 0xFF) 8) (N.shiftr v 8).

Lemma swap16_low (v j : N) : j < 8 -> N.testbit (swap16 v) j = N.testbit v (j + 8).
Proof.
  intros Hj. unfold swap16.
  rewrite N.lor_spec, N.shiftl_spec_low, N.shiftr_spec' by lia. reflexivity.
Qed.

Lemma swap16_high (v j : N) :
  v < 2 ^ 16 -> 8 <= j < 16 -> N.testbit (swap16 v) j = N.testbit v (j - 8).
Proof.
  intros Hv Hj. unfold swap16.
  rewrite N.lor_spec, N.shiftl_spec_high', N.shiftr_spec', N.land_spec by lia.
  change 0xFF with (N.ones 8). rewrite N.ones_spec_low by lia.
  rewrite (testbit_above v 16 (j + 8)) by (assumption || lia).
  now rewrite andb_true_r, orb_false_r.
Qed.

Lemma swap16_above (v j : N) : v < 2 ^ 16 -> 16 <= j -> N.testbit (swap16 v) j = false.
Proof.
  intros Hv Hj. unfold swap16.
  rewrite N.lor_spec, N.shiftl_spec_high', N.shiftr_spec', N.land_spec by lia.
  change 0xFF with (N.ones 8). rewrite N.ones_spec_high by lia.
  rewrite (testbit_above v 16 (j + 8)) by (assumption || lia).
  now rewrite andb_false_r.
Qed.

Lemma swap16_bound (v : N) : v < 2 ^ 16 -> swap16 v < 2 ^ 16.
Proof.
  intros Hv.
  replace (swap16 v) with (swap16 v mod 2 ^ 16).
  - apply N.mod_upper_bound. discriminate.
  - apply N.bits_inj. intros j. destruct (N.lt_ge_cases j 16) as [Hj|Hj].
    + now rewrite N.mod_pow2_bits_low.
    + now rewrite N.mod_pow2_bits_high, swap16_above.
Qed.

Lemma packed_four_digits (v : N) : 0x1000 <= v < 2 ^ 16 -> packed v = v.
Proof.
  intros Hv. unfold packed. rewrite (hex_len_eq v 3) by (cbn; lia).
  change (pad8 (4 * 4)) with 0%nat. apply N.shiftl_0_r.
Qed.

Lemma bit_field_swap16 (v : N) :
  v < 2 ^ 16 ->
  bit_field 16 (swap16 v) 0 7 = bit_field 16 v 8 15
  /\ bit_field 16 (swap16 v) 8 15 = bit_field 16 v 0 7.
Proof.
  intros Hv. unfold bit_field. cbn [Nat.sub N.of_nat Pos.of_succ_nat Pos.succ].
  split; apply N.bits_inj; intros i;
    (destruct (N.lt_ge_cases i 7) as [Hi|Hi];
     [ rewrite !N.mod_pow2_bits_low, !N.shiftr_spec' by lia
     | now rewrite !N.mod_pow2_bits_high by lia ]).
  - rewrite swap16_high by (assumption || lia). f_equal. lia.
  - rewrite swap16_low by lia. f_equal. lia.
Qed.

(** Lines 261-264 and 270-273: the fold XORs the leading 7 bits of the
    two bytes, so a header field of four hex digits and the field with its
    bytes exchanged fold alike. *)
Theorem header_fold_byte_swap (exe exe' : PE) :
  0x1000 <= FILE_HEADER.Characteristics (FILE_HEADER exe) < 2 ^ 16 ->
  FILE_HEADER.Characteristics (FILE_HEADER exe')
  = swap16 (FILE_HEADER.Characteristics (FILE_HEADER exe)) ->
  0x1000 <= FILE_HEADER.Characteristics (FILE_HEADER exe') ->
  img_chars_xor exe = img_chars_xor exe'
  /\ exists a : BitArray, img_chars_xor exe = Ok a.
Proof.
  intros Hv Hswap Hv'. unfold img_chars_xor. rewrite Hswap in *.
  set (v := FILE_HEADER.Characteristics (FILE_HEADER exe)) in *.
  assert (Hb : swap16 v < 2 ^ 16) by (apply swap16_bound; lia).
  rewrite (xor_fold16_bits v) by lia.
  rewrite (xor_fold16_bits (swap16 v)) by lia.
  rewrite (packed_four_digits v Hv), (packed_four_digits (swap16 v) (conj Hv' Hb)).
  destruct (bit_field_swap16 v (proj2 Hv)) as [-> ->].
  rewrite N.lxor_comm. split; [reflexivity | eexists; reflexivity].
Qed.

Lemma header_fold_byte_swap_witness :
  img_chars_xor (mkPE 0x2112 0x014c 0x1000 0x1000 [] [])
  = img_chars_xor (mkPE 0x1221 0x014c 0x1000 0x1000 [] [])
  /\ exists a : BitArray, img_chars_xor (mkPE 0x2112 0x014c 0x1000 0x1000 [] []) = Ok a.
Proof.
  apply (header_fold_byte_swap (mkPE 0x2112 0x014c 0x1000 0x1000 [] [])
           (mkPE 0x1221 0x014c 0x1000 0x1000 [] [])); cbn; try lia; reflexivity.
Defined.

End ByteSwap.

(** ** What the entropy step reads *)

Section EntropyTail.

Variable bz2_compress : list byte -> list byte.

(** Lines 319-330: the compressor is given the file from offset
    VirtualAddress + SizeOfRawData on; the bytes before that offset, the
    section's own raw data among them, never reach the entropy fragment. *)
Theorem entropy_reads_only_the_tail (exe exe' : PE) (section : SECTION.t)
    (head head' tail : list byte) :
  write exe = head ++ tail ->
  write exe' = head' ++ tail ->
  length head
  = N.to_nat (SECTION.VirtualAddress section + SECTION.SizeOfRawData section) ->
  length head' = length head ->
  entropy bz2_compress exe section = entropy bz2_compress exe' section.
Proof.
  intros Hw Hw' Hl Hl'.
  assert (S : forall h : list byte, length h = length head ->
                skipn (N.to_nat (SECTION.VirtualAddress section
                                 + SECTION.SizeOfRawData section)) (h ++ tail) = tail).
  { intros h Hh. rewrite <- Hl, <- Hh, skipn_app, skipn_all, Nat.sub_diag.
    reflexivity. }
  unfold entropy, kolmog. rewrite Hw, Hw', (S head eq_refl), (S head' Hl').
  reflexivity.
Qed.

(** Lines 319-330: when VirtualAddress + SizeOfRawData is at or past the
    end of the file, the slice is empty and the compressor is given the
    empty string: sections of one raw size then get one entropy fragment,
    whatever the files and the addresses. *)
Theorem entropy_past_the_end (exe exe' : PE) (section section' : SECTION.t) :
  (N.of_nat (length (write exe))
   <= SECTION.VirtualAddress section + SECTION.SizeOfRawData section)%N ->
  (N.of_nat (length (write exe'))
   <= SECTION.VirtualAddress section' + SECTION.SizeOfRawData section')%N ->
  SECTION.SizeOfRawData section' = SECTION.SizeOfRawData section ->
  entropy bz2_compress exe section = entropy bz2_compress exe' section'.
Proof.
  intros He He' Hs.
  destruct (N.eq_dec (SECTION.SizeOfRawData section) 0) as [Z|NZ].
  - unfold entropy, kolmog. rewrite Hs, Z. reflexivity.
  - rewrite (entropy_past_eof bz2_compress exe section He NZ).
    rewrite (entropy_past_eof bz2_compress exe' section' He') by congruence.
    now rewrite Hs.
Qed.

(** Lines 266-331: the bit string of a section table [l1 ++ l2] is the
    loop continued over [l2] from the bit string of [l1]: sections later
    in the table never change the bits of earlier ones, and an exception
    of the shorter table is the exception of the longer one. *)
Theorem section_table_append (exe : PE) (l1 l2 : list SECTION.t) :
  pehash_bin bz2_compress (with_sections exe (l1 ++ l2))
  = (b1 <- pehash_bin bz2_compress (with_sections exe l1) ;;
     section_loop bz2_compress exe b1 l2)
  /\ (forall b : BitArray,
        pehash_bin bz2_compress (with_sections exe (l1 ++ l2)) = Ok b ->
        exists b1 r : BitArray,
          pehash_bin bz2_compress (with_sections exe l1) = Ok b1 /\ b = b1 ++ r)
  /\ (forall e : exn,
        pehash_bin bz2_compress (with_sections exe l1) = Raise e ->
        pehash_bin bz2_compress (with_sections exe (l1 ++ l2)) = Raise e).
Proof.
  assert (E : pehash_bin bz2_compress (with_sections exe (l1 ++ l2))
              = (b1 <- pehash_bin bz2_compress (with_sections exe l1) ;;
                 r <- table_fragments bz2_compress exe l2 ;; Ok (b1 ++ r))).
  { rewrite !pehash_bin_concat. cbn [sections with_sections].
    change (scalar_fragments (with_sections exe (l1 ++ l2))) with (scalar_fragments exe).
    change (scalar_fragments (with_sections exe l1)) with (scalar_fragments exe).
    rewrite !table_fragments_with_sections, table_fragments_app.
    destruct (scalar_fragments exe) as [h|e]; cbn [bind]; [|reflexivity].
    destruct (table_fragments bz2_compress exe l1) as [a|e]; cbn [bind]; [|reflexivity].
    destruct (table_fragments bz2_compress exe l2) as [b|e]; cbn [bind]; [|reflexivity].
    now rewrite app_assoc. }
  split; [|split].
  - rewrite E. destruct (pehash_bin bz2_compress (with_sections exe l1)) as [b1|e];
      cbn [bind]; [|reflexivity].
    now rewrite section_loop_concat.
  - intros b Hb. rewrite E in Hb.
    destruct (pehash_bin bz2_compress (with_sections exe l1)) as [b1|e];
      cbn [bind] in Hb; [|discriminate Hb].
    destruct (table_fragments bz2_compress exe l2) as [r|e]; cbn [bind] in Hb;
      [|discriminate Hb].
    apply Ok_inj in Hb. exists b1, r. split; [reflexivity | now symmetry].
  - intros e He. rewrite E, He. reflexivity.
Qed.

End EntropyTail.

Lemma entropy_reads_only_the_tail_witness :
  entropy bz2_on_empty (mkPE 0x0102 0x014c 0x1000 0x1000 [] [x01; x02; x03; x04; x05])
          (mkS 2 2 0x60000020)
  = entropy bz2_on_empty (mkPE 0x0102 0x014c 0x1000 0x1000 [] [x0a; x0b; x0c; x0d; x05])
            (mkS 2 2 0x60000020).
Proof.
  apply (entropy_reads_only_the_tail bz2_on_empty
           (mkPE 0x0102 0x014c 0x1000 0x1000 [] [x01; x02; x03; x04; x05])
           (mkPE 0x0102 0x014c 0x1000 0x1000 [] [x0a; x0b; x0c; x0d; x05])
           (mkS 2 2 0x60000020) [x01; x02; x03; x04] [x0a; x0b; x0c; x0d] [x05]);
    reflexivity.
Defined.

Lemma entropy_past_the_end_witness :
  entropy bz2_on_empty (one_section 0x200) (mkS 0x1000 0x200 0x60000020)
  = entropy bz2_on_empty (one_section 0x400) (mkS 0x3000 0x200 0xC0000040).
Proof.
  apply (entropy_past_the_end bz2_on_empty (one_section 0x200) (one_section 0x400)
           (mkS 0x1000 0x200 0x60000020) (mkS 0x3000 0x200 0xC0000040));
    cbn [write one_section mkPE mkS SECTION.VirtualAddress SECTION.SizeOfRawData];
    rewrite ?repeat_length; try lia; reflexivity.
Defined.

(** * The Totalhash lookup of [_scan] (lines 70-257) *)

(** ** The fragment of [lxml.etree] that the service uses *)

Module etree.

Inductive Element : Set :=
| Node (tag : string) (attrib : list (string * string)) (text : option string)
       (children : list Element).

Definition tag (e : Element) : string :=
  match e with Node t _ _ _ => t end.
Definition attrib (e : Element) : list (string * string) :=
  match e with Node _ a _ _ => a end.
Definition text (e : Element) : option string :=
  match e with Node _ _ x _ => x end.
Definition children (e : Element) : list Element :=
  match e with Node _ _ _ cs => cs end.

(** [attrib.get(key)]. *)
Fixpoint get (a : list (string * string)) (key : string) : option string :=
  match a with
  | [] => None
  | (k, v) :: r => if String.eqb k key then Some v else get r key
  end.

(** The elements of the subtree in document order, the element first. *)
Fixpoint iter (e : Element) : list Element :=
  match e with
  | Node _ _ _ cs => e :: flat_map iter cs
  end.

(** [e.getiterator(t)]. *)
Definition getiterator (e : Element) (t : string) : list Element :=
  filter (fun x => String.eqb (tag x) t) (iter e).

Definition find_children (e : Element) (t : string) : list Element :=
  filter (fun x => String.eqb (tag x) t) (children e).

(** [e.findall('a/b')]: the children [b] of the children [a]. *)
Definition findall (e : Element) (a b : string) : list Element :=
  flat_map (fun c => find_children c b) (find_children e a).

End etree.

(** ** What a scan does, as a log *)

(** The values of a result's dictionary: strings and lists of
    dictionaries of strings. *)
Inductive stat : Set :=
| Str (s : string)
| Dicts (l : list (list (string * string))).

Inductive event : Set :=
| Add_result (subtype : string) (result : option string)
             (data : option (list (string * stat)))
| Info (msg : string)
| Error (msg : string)
| Logger_info (msg : string)
| Logger_error (msg : string)
| Install_opener (proxy : string)
| Urlopen (url : string).

(** The exceptions that leave [_scan]. *)
Inductive uncaught : Set :=
| Fold (e : exn)
| KeyError (key : string).

(** A step of the scan: the events it logs, in order, and its value or
    the exception that ends it. *)
Definition W (A : Type) : Type := (list event * (A + uncaught))%type.

Definition ret {A : Type} (a : A) : W A := ([], inl a).
Definition raise {A : Type} (e : uncaught) : W A := ([], inr e).
Definition emit (ev : event) : W unit := ([ev], inl tt).

Definition bindW {A B : Type} (m : W A) (k : A -> W B) : W B :=
  match m with
  | (w, inl a) => let (w', r) := k a in (w ++ w', r)
  | (w, inr e) => (w, inr e)
  end.

Notation "x <~ m ;; k" := (bindW m (fun x => k))
  (at level 61, m at next level, right associativity).
Notation "m ;;; k" := (bindW m (fun _ => k))
  (at level 61, right associativity).

Fixpoint for_each {X : Type} (l : list X) (body : X -> W unit) : W unit :=
  match l with
  | [] => ret tt
  | x :: r => body x ;;; for_each r body
  end.

(** A list built by a loop of [append]. *)
Fixpoint collect {X Y : Type} (l : list X) (f : X -> W Y) : W (list Y) :=
  match l with
  | [] => ret []
  | x :: r => y <~ f x ;; ys <~ collect r f ;; ret (y :: ys)
  end.

(** [e.attrib[key]]. *)
Definition attr (e : etree.Element) (key : string) : W string :=
  match etree.get (etree.attrib e) key with
  | Some v => ret v
  | None => raise (KeyError key)
  end.

Definition join (l : list string) : string := String.concat ", " l.

Section Report.

Local Open Scope string_scope.

(** Lines 111-117. *)
Definition av_result (av : etree.Element) : W unit :=
  scanner <~ attr av "scanner" ;;
  timestamp <~ attr av "timestamp" ;;
  let stats := [("scanner", Str scanner); ("timestamp", Str timestamp)] in
  signature <~ attr av "signature" ;;
  emit (Add_result "AV" (Some signature) (Some stats)).

(** Lines 119-211. *)
Definition process_result (proc : etree.Element) : W unit :=
  filename <~ attr proc "filename" ;;
  (* Some entries appear with an empty filename and nothing else. *)
  if String.eqb filename "" then ret tt
  else
    pid <~ attr proc "pid" ;;
    dlls <~ collect (etree.findall proc "dll_handling_section" "load_dll")
              (fun dll => attr dll "filename") ;;
    created <~ collect (etree.findall proc "filesystem_section" "create_file")
                 (fun file_ =>
                    src <~ attr file_ "srcfile" ;;
                    ret [("Filename", src); ("Action", "create")]) ;;
    deleted <~ collect (etree.findall proc "filesystem_section" "delete_file")
                 (fun file_ =>
                    src <~ attr file_ "srcfile" ;;
                    ret [("Filename", src); ("Action", "delete")]) ;;
    let files := (created ++ deleted)%list in
    cps <~ collect (etree.findall proc "process_section" "create_process")
             (fun cp =>
                cmdline <~ attr cp "cmdline" ;;
                targetpid <~ attr cp "targetpid" ;;
                ret [("Cmdline", cmdline); ("Target PID", targetpid);
                     ("Action", "create")]) ;;
    ops <~ collect (etree.findall proc "process_section" "open_process")
             (fun op =>
                targetpid <~ attr op "targetpid" ;;
                api <~ attr op "apifunction" ;;
                ret [("Target PID", targetpid); ("API", api); ("Action", "open")]) ;;
    let procs := (cps ++ ops)%list in
    hosts <~ collect (etree.findall proc "winsock_section" "getaddrinfo")
               (fun host => attr host "requested_host") ;;
    mutexes <~ collect (etree.findall proc "mutex_section" "create_mutex")
                 (fun mutex => attr mutex "name") ;;
    hooks <~ collect (etree.findall proc "windows_hook_section" "set_windows_hook")
               (fun hook => attr hook "hookid") ;;
    regs <~ collect (etree.findall proc "registry_section" "set_value")
              (fun reg =>
                 key <~ attr reg "key" ;;
                 value <~ attr reg "value" ;;
                 ret [("Key", key); ("Value", value); ("Action", "set")]) ;;
    created_svcs <~ collect (etree.findall proc "service_section" "create_service")
                      (fun svc =>
                         displayname <~ attr svc "displayname" ;;
                         imagepath <~ attr svc "imagepath" ;;
                         ret [("Display Name", displayname); ("Image Path", imagepath);
                              ("Action", "create")]) ;;
    started_svcs <~ collect (etree.findall proc "service_section" "start_service")
                      (fun svc =>
                         displayname <~ attr svc "displayname" ;;
                         ret [("Display Name", displayname); ("Action", "start")]) ;;
    let svcs := (created_svcs ++ started_svcs)%list in
    sysinfo <~ collect (etree.findall proc "system_info_section" "check_for_debugger")
                 (fun si => attr si "apifunction") ;;
    let stats :=
      [("PID", Str pid);
       ("Loaded DLLs", Str (join dlls));
       ("Files", Dicts files);
       ("Processes", Dicts procs);
       ("Requested hosts", Str (join hosts));
       ("Created mutexes", Str (join mutexes));
       ("Registry keys", Dicts regs);
       ("Created services", Dicts svcs);
       ("Hooks", Str (join hooks));
       ("System checks", Str (join sysinfo))] in
    emit (Add_result "Processes" (Some filename) (Some stats)).

(** Lines 213-219. *)
Definition running_process_result (proc : etree.Element) : W unit :=
  pid <~ attr proc "pid" ;;
  ppid <~ attr proc "ppid" ;;
  let stats := [("PID", Str pid); ("PPID", Str ppid)] in
  filename <~ attr proc "filename" ;;
  emit (Add_result "Running processes" (Some filename) (Some stats)).

(** Lines 231-236. *)
Definition proto_of (protocol : string) : string :=
  if String.eqb protocol "6" then "TCP"
  else if String.eqb protocol "17" then "UDP"
  else protocol.

(** Lines 221-241. *)
Definition flow_result (flow : etree.Element) : W unit :=
  src_ip <~ attr flow "src_ip" ;;
  src_port <~ attr flow "src_port" ;;
  dst_port <~ attr flow "dst_port" ;;
  bytes <~ attr flow "bytes" ;;
  protocol <~ attr flow "protocol" ;;
  let proto := proto_of protocol in
  let info :=
    [("Source IP", Str src_ip); ("Source Port", Str src_port);
     ("Dest Port", Str dst_port); ("Bytes", Str bytes); ("Protocol", Str proto)] in
  dst_ip <~ attr flow "dst_ip" ;;
  emit (Add_result "Flows" (Some dst_ip) (Some info)).

(** Lines 243-249. *)
Definition dns_result (dns : etree.Element) : W unit :=
  type <~ attr dns "type" ;;
  let ip :=
    match etree.get (etree.attrib dns) "ip" with
    | Some v => v
    | None => "Not resolved."
    end in
  let info := [("Type", Str type); ("IP", Str ip)] in
  rr <~ attr dns "rr" ;;
  emit (Add_result "DNS" (Some rr) (Some info)).

(** Lines 250-257. *)
Definition http_result (http : etree.Element) : W unit :=
  user_agent <~ attr http "user_agent" ;;
  type <~ attr http "type" ;;
  let info := [("User Agent", Str user_agent); ("Type", Str type)] in
  emit (Add_result "HTTP" (etree.text http) (Some info)).

(** Lines 109-257: the results read off the parsed report. *)
Definition report (root : etree.Element) : W unit :=
  time <~ attr root "time" ;;
  emit (Add_result "Analysis Metadata" (Some time) None) ;;;
  for_each (etree.getiterator root "av") av_result ;;;
  for_each (etree.getiterator root "process") process_result ;;;
  for_each (etree.getiterator root "running_process") running_process_result ;;;
  for_each (etree.getiterator root "flows") flow_result ;;;
  for_each (etree.getiterator root "dns") dns_result ;;;
  for_each (etree.getiterator root "http") http_result.

End Report.

(** ** The whole of [_scan] *)

Section Scan.

Local Open Scope string_scope.

(** [bz2.compress]. *)
Variable bz2_compress : list byte -> list byte.
(** [pefile.PE(data=...)]: the image or the text of the [PEFormatError]. *)
Variable pefile_PE : list byte -> string + PE.
(** [self.config]. *)
Variable config : list (string * string).
(** [settings.HTTP_PROXY]. *)
Variable HTTP_PROXY : option string.
(** [hmac.new(key, msg=h, digestmod=hashlib.sha256).hexdigest()]. *)
Variable hmac_sha256_hexdigest : string -> string -> string.
(** [urllib2.urlopen(req).read()]: the body or the text of the exception. *)
Variable urlopen : string -> string + list byte.
(** [etree.fromstring]: the root or the text of the exception. *)
Variable fromstring : list byte -> string + etree.Element.

(** [self.config.get(key, '')]. *)
Definition config_get (key : string) : string :=
  match etree.get config key with
  | Some v => v
  | None => ""
  end.

Definition truthy (s : option string) : bool :=
  match s with
  | Some v => negb (String.eqb v "")
  | None => false
  end.

(** Lines 62-257.  [_get_pehash] adds its result at line 336. *)
Definition scan (data : list byte) : W unit :=
  match pefile_PE data with
  | inl e => emit (Error ("A PEFormatError occurred: " ++ e))
  | inr pe =>
      match _get_pehash bz2_compress pe with
      | Raise e => raise (Fold e)
      | Ok output =>
          emit (Add_result "PEhash value" (Some output)
                  (Some [("Value", Str output)])) ;;;
          (* If we have an API key, go ahead and look it up. *)
          let key := config_get "th_api_key" in
          let user := config_get "th_user" in
          let url := config_get "th_query_url" in
          let h := hashlib.hexdigest data in
          if String.eqb key "" then
            emit (Add_result "Analysis Link" (Some (url ++ "/analysis/" ++ h)) None) ;;;
            emit (Info "No API key, not checking Totalhash.")
          else
            let signature := hmac_sha256_hexdigest key h in
            let params := "/analysis/" ++ h ++ "&id=" ++ user ++ "&sign=" ++ signature in
            (if truthy HTTP_PROXY
             then emit (Install_opener (match HTTP_PROXY with Some p => p | None => "" end))
             else ret tt) ;;;
            emit (Urlopen (url ++ params)) ;;;
            match urlopen (url ++ params) with
            | inl e =>
                emit (Logger_info ("Totalhash: network connection error (" ++ e ++ ")")) ;;;
                emit (Info ("Network connection error checking totalhash (" ++ e ++ ")"))
            | inr body =>
                match fromstring body with
                | inl e =>
                    emit (Logger_error ("Totalhash: parse error (" ++ e ++ ")")) ;;;
                    emit (Error ("Error parsing results: " ++ e))
                | inr root => report root
                end
            end
      end
  end.

End Scan.

(** ** The log of a sequence of steps *)

Lemma bindW_log (A B : Type) (m : W A) (k : A -> W B) :
  fst (bindW m k)
  = fst m ++ match snd m with inl a => fst (k a) | inr _ => [] end.
Proof.
  destruct m as [w [a|e]]; cbn; [destruct (k a); reflexivity | now rewrite app_nil_r].
Qed.

Lemma bindW_out (A B : Type) (m : W A) (k : A -> W B) :
  snd (bindW m k) = match snd m with inl a => snd (k a) | inr e => inr e end.
Proof. destruct m as [w [a|e]]; cbn; [destruct (k a); reflexivity | reflexivity]. Qed.

(** A step that logs nothing. *)
Definition silent {A : Type} (m : W A) : Prop := fst m = [].

Lemma silent_ret (A : Type) (a : A) : silent (ret a).
Proof. reflexivity. Qed.

Lemma silent_attr (e : etree.Element) (key : string) : silent (attr e key).
Proof. unfold silent, attr. destruct (etree.get _ _); reflexivity. Qed.

Lemma silent_bind (A B : Type) (m : W A) (k : A -> W B) :
  silent m -> (forall a, silent (k a)) -> silent (bindW m k).
Proof.
  unfold silent. intros Hm Hk. rewrite bindW_log, Hm.
  destruct (snd m); [apply Hk | reflexivity].
Qed.

Lemma silent_collect (X Y : Type) (l : list X) (f : X -> W Y) :
  (forall x, silent (f x)) -> silent (collect l f).
Proof.
  intros Hf. induction l as [|x l IH]; [reflexivity|].
  cbn [collect]. apply silent_bind; [apply Hf|]. intros y.
  apply silent_bind; [exact IH|]. intros ys. reflexivity.
Qed.

Ltac silence :=
  repeat first [ apply silent_attr | apply silent_ret
               | apply silent_collect; intro | apply silent_bind; [|intro] ].

(** A step that, when it returns, has logged [n] events that satisfy [P],
    and that has logged nothing when it raises. *)
Definition yields (n : nat) (P : event -> Prop) (m : W unit) : Prop :=
  match snd m with
  | inl _ => length (fst m) = n /\ Forall P (fst m)
  | inr _ => fst m = []
  end.

Lemma for_each_yields (X : Type) (weight : X -> nat) (P : event -> Prop)
    (l : list X) (body : X -> W unit) :
  (forall x, In x l -> yields (weight x) P (body x)) ->
  Forall P (fst (for_each l body))
  /\ (snd (for_each l body) = inl tt ->
      length (fst (for_each l body)) = list_sum (map weight l)).
Proof.
  induction l as [|x l IH]; intros H; cbn [for_each].
  - split; [constructor | reflexivity].
  - destruct (IH (fun y Hy => H y (or_intror Hy))) as [IHP IHn].
    specialize (H x (or_introl eq_refl)). unfold yields in H.
    rewrite bindW_log, bindW_out.
    destruct (body x) as [w [[]|e]]; cbn [fst snd] in *.
    + destruct H as [Hn HP]. split.
      * apply Forall_app. split; assumption.
      * intros Hok. rewrite length_app, Hn, (IHn Hok). reflexivity.
    + subst w. split; [constructor | discriminate].
Qed.

(** Steps in sequence, as [report] chains them. *)
Fixpoint seqW (m : W unit) (ms : list (W unit)) : W unit :=
  match ms with
  | [] => m
  | m' :: r => m ;;; seqW m' r
  end.

Lemma seqW_parts (m : W unit) (ms : list (W unit)) :
  exists parts : list (list event),
    fst (seqW m ms) = concat parts
    /\ Forall2 (fun p mi => p = [] \/ p = fst mi) parts (m :: ms).
Proof.
  revert m. induction ms as [|m' r IH]; intros m; cbn [seqW].
  - exists [fst m]. split; [cbn; now rewrite app_nil_r|].
    constructor; [now right | constructor].
  - destruct (IH m') as (parts & E & F). rewrite bindW_log.
    destruct (snd m).
    + exists (fst m :: parts). split; [cbn; now rewrite E|].
      constructor; [now right | exact F].
    + exists (fst m :: map (fun _ => []) (m' :: r)). split.
      * cbn [concat]. f_equal. clear. induction (m' :: r); [reflexivity | assumption].
      * constructor; [now right|]. clear.
        induction (m' :: r); constructor; [now left | assumption].
Qed.

Lemma seqW_ok (m : W unit) (ms : list (W unit)) :
  snd (seqW m ms) = inl tt ->
  fst (seqW m ms) = concat (map fst (m :: ms))
  /\ Forall (fun mi => snd mi = inl tt) (m :: ms).
Proof.
  revert m. induction ms as [|m' r IH]; intros m; cbn [seqW].
  - intros H. split; [cbn; now rewrite app_nil_r | constructor; [exact H | constructor]].
  - rewrite bindW_log, bindW_out. destruct (snd m) as [[]|e] eqn:Em; [|discriminate].
    intros H. destruct (IH m' H) as [E F]. split.
    + cbn [map concat] in *. now rewrite E.
    + constructor; assumption.
Qed.

(** ** The results of each kind of element *)

Section ReportResults.

Local Open Scope string_scope.

Definition is_result (subtype : string) (ev : event) : Prop :=
  exists res data, ev = Add_result subtype res data.

Ltac step_attr :=
  lazymatch goal with
  | |- context [attr ?e ?k] =>
      change (attr e k)
        with (match etree.get (etree.attrib e) k with
              | Some v => ret v
              | None => @raise string (KeyError k)
              end);
      let E := fresh "E" in
      destruct (etree.get (etree.attrib e) k) eqn:E;
      cbn [bindW ret raise emit app fst snd]
  end.

Ltac step_collect :=
  lazymatch goal with
  | |- context [collect ?l ?f] =>
      let S := fresh "S" in
      assert (S : silent (collect l f)) by silence;
      unfold silent in S;
      destruct (collect l f) as [? [?|?]]; cbn [fst] in S; subst;
      cbn [bindW ret raise emit app fst snd]
  end.

Ltac one_result :=
  unfold yields; cbn [fst snd length];
  first [ reflexivity
        | split; [reflexivity | repeat constructor; unfold is_result; eauto] ].

Lemma av_result_yields (av : etree.Element) :
  yields 1 (is_result "AV") (av_result av).
Proof. unfold av_result. repeat step_attr; one_result. Qed.

Lemma running_process_result_yields (proc : etree.Element) :
  yields 1 (is_result "Running processes") (running_process_result proc).
Proof. unfold running_process_result. repeat step_attr; one_result. Qed.

Lemma dns_result_yields (dns : etree.Element) :
  yields 1 (is_result "DNS") (dns_result dns).
Proof. unfold dns_result. repeat step_attr; one_result. Qed.

Lemma http_result_yields (http : etree.Element) :
  yields 1 (is_result "HTTP") (http_result http).
Proof. unfold http_result. repeat step_attr; one_result. Qed.

(** A flow result carries the protocol of the element, translated. *)
Definition flow_event (flow : etree.Element) (ev : event) : Prop :=
  exists dst_ip src_ip src_port dst_port bytes protocol,
    etree.get (etree.attrib flow) "protocol" = Some protocol
    /\ ev = Add_result "Flows" (Some dst_ip)
              (Some [("Source IP", Str src_ip); ("Source Port", Str src_port);
                     ("Dest Port", Str dst_port); ("Bytes", Str bytes);
                     ("Protocol", Str (proto_of protocol))]).

Lemma flow_result_yields (flow : etree.Element) :
  yields 1 (flow_event flow) (flow_result flow).
Proof.
  unfold flow_result. repeat step_attr; unfold yields; cbn [fst snd length];
    try reflexivity.
  split; [reflexivity|]. constructor; [|constructor]. unfold flow_event.
  do 6 eexists. split; [eassumption | reflexivity].
Qed.

(** A process element with a name. *)
Definition named (proc : etree.Element) : bool :=
  match etree.get (etree.attrib proc) "filename" with
  | Some filename => negb (String.eqb filename "")
  | None => false
  end.

Definition process_event (proc : etree.Element) (ev : event) : Prop :=
  exists filename stats,
    etree.get (etree.attrib proc) "filename" = Some filename
    /\ filename <> ""
    /\ ev = Add_result "Processes" (Some filename) (Some stats).

Lemma process_result_yields (proc : etree.Element) :
  yields (if named proc then 1 else 0) (process_event proc) (process_result proc).
Proof.
  unfold process_result, named. step_attr; [|reflexivity].
  destruct (String.eqb_spec s "") as [->|Hne]; cbn [negb].
  - unfold yields. cbn. split; [reflexivity | constructor].
  - step_attr; [|reflexivity].
    repeat (step_collect; [|reflexivity]).
    unfold yields. cbn [fst snd length]. split; [reflexivity|].
    repeat constructor. unfold process_event. eauto.
Qed.

Lemma yields_impl (n : nat) (P Q : event -> Prop) (m : W unit) :
  (forall ev, P ev -> Q ev) -> yields n P m -> yields n Q m.
Proof.
  unfold yields. intros H. destruct (snd m); [|trivial].
  intros [Hn HP]. split; [exact Hn | exact (Forall_impl Q H HP)].
Qed.

(** The steps that [report] chains after reading the time of the
    analysis. *)
Definition report_steps (root : etree.Element) : list (W unit) :=
  [for_each (etree.getiterator root "av") av_result;
   for_each (etree.getiterator root "process") process_result;
   for_each (etree.getiterator root "running_process") running_process_result;
   for_each (etree.getiterator root "flows") flow_result;
   for_each (etree.getiterator root "dns") dns_result;
   for_each (etree.getiterator root "http") http_result].

Lemma report_unfold (root : etree.Element) :
  report root
  = (time <~ attr root "time" ;;
     seqW (emit (Add_result "Analysis Metadata" (Some time) None)) (report_steps root)).
Proof. reflexivity. Qed.

Definition weight_one (x : etree.Element) : nat := 1.
Definition weight_named (proc : etree.Element) : nat := if named proc then 1 else 0.

Lemma list_sum_weight_one (l : list etree.Element) :
  list_sum (map weight_one l) = length l.
Proof. induction l as [|x l IH]; cbn; [reflexivity | now rewrite <- IH]. Qed.

Lemma list_sum_weight_named (l : list etree.Element) :
  list_sum (map weight_named l) = length (filter named l).
Proof.
  induction l as [|x l IH]; [reflexivity|].
  cbn [map list_sum fold_right filter]. fold (list_sum (map weight_named l)).
  unfold weight_named at 1. destruct (named x); cbn [length]; lia.
Qed.

(** What each loop of [report] logs. *)
Lemma report_loops (root : etree.Element) :
  Forall2 (fun (m : W unit) (PL : (event -> Prop) * nat) =>
             Forall (fst PL) (fst m)
             /\ (snd m = inl tt -> length (fst m) = snd PL))
    (report_steps root)
    [(is_result "AV", length (etree.getiterator root "av"));
     (fun ev => exists proc, process_event proc ev,
        length (filter named (etree.getiterator root "process")));
     (is_result "Running processes", length (etree.getiterator root "running_process"));
     (fun ev => exists flow, flow_event flow ev,
        length (etree.getiterator root "flows"));
     (is_result "DNS", length (etree.getiterator root "dns"));
     (is_result "HTTP", length (etree.getiterator root "http"))].
Proof.
  unfold report_steps. repeat constructor; cbn [fst snd].
  - apply (for_each_yields _ weight_one). intros; apply av_result_yields.
  - rewrite <- list_sum_weight_one. apply (for_each_yields _ weight_one (is_result "AV")).
    intros; apply av_result_yields.
  - apply (for_each_yields _ weight_named). intros x _.
    apply (yields_impl _ (process_event x)); [eauto | apply process_result_yields].
  - rewrite <- list_sum_weight_named.
    apply (for_each_yields _ weight_named (fun ev => exists proc, process_event proc ev)).
    intros x _.
    apply (yields_impl _ (process_event x)); [eauto | apply process_result_yields].
  - apply (for_each_yields _ weight_one). intros; apply running_process_result_yields.
  - rewrite <- list_sum_weight_one.
    apply (for_each_yields _ weight_one (is_result "Running processes")).
    intros; apply running_process_result_yields.
  - apply (for_each_yields _ weight_one). intros x _.
    apply (yields_impl _ (flow_event x)); [eauto | apply flow_result_yields].
  - rewrite <- list_sum_weight_one.
    apply (for_each_yields _ weight_one (fun ev => exists flow, flow_event flow ev)).
    intros x _.
    apply (yields_impl _ (flow_event x)); [eauto | apply flow_result_yields].
  - apply (for_each_yields _ weight_one). intros; apply dns_result_yields.
  - rewrite <- list_sum_weight_one. apply (for_each_yields _ weight_one (is_result "DNS")).
    intros; apply dns_result_yields.
  - apply (for_each_yields _ weight_one). intros; apply http_result_yields.
  - rewrite <- list_sum_weight_one. apply (for_each_yields _ weight_one (is_result "HTTP")).
    intros; apply http_result_yields.
Qed.

(** The log of [report], cut by kind of result. *)
Lemma report_log_parts (root : etree.Element) :
  exists m av pr rp fl dn ht : list event,
    fst (report root) = (m ++ av ++ pr ++ rp ++ fl ++ dn ++ ht)%list
    /\ Forall (is_result "Analysis Metadata") m /\ length m <= 1
    /\ Forall (is_result "AV") av
    /\ Forall (fun ev => exists proc, process_event proc ev) pr
    /\ Forall (is_result "Running processes") rp
    /\ Forall (fun ev => exists flow, flow_event flow ev) fl
    /\ Forall (is_result "DNS") dn
    /\ Forall (is_result "HTTP") ht.
Proof.
  rewrite report_unfold, bindW_log. unfold attr.
  destruct (etree.get (etree.attrib root) "time") as [time|]; cbn [fst snd ret raise app].
  - destruct (seqW_parts (emit (Add_result "Analysis Metadata" (Some time) None))
                (report_steps root)) as (parts & E & F).
    pose proof (report_loops root) as L. unfold report_steps in *.
    repeat match goal with
           | H : Forall2 _ _ (_ :: _) |- _ => inversion H; subst; clear H
           | H : Forall2 _ _ [] |- _ => inversion H; subst; clear H
           | H : Forall2 _ (_ :: _) _ |- _ => inversion H; subst; clear H
           end.
    cbn [fst snd] in *.
    match goal with
    | H : fst (seqW _ _) = concat [?p0; ?p1; ?p2; ?p3; ?p4; ?p5; ?p6] |- _ =>
        exists p0, p1, p2, p3, p4, p5, p6; rewrite H; cbn [concat]; rewrite app_nil_r
    end.
    split; [reflexivity|].
    repeat match goal with
           | H : _ = [] \/ _ = _ |- _ => destruct H; subst
           | H : Forall _ _ /\ _ |- _ => destruct H as [H _]
           end;
      repeat split; try assumption; try constructor; cbn [emit fst length];
      try lia; unfold is_result; eauto.
  - exists [], [], [], [], [], [], []. repeat split; try constructor. cbn. lia.
Qed.

(** Lines 109-257: whatever the order of the elements in the report, the
    results are logged by kind: the analysis metadata, then the AV
    results, the processes, the running processes, the flows, the DNS
    results and the HTTP results. *)
Theorem report_groups_results (root : etree.Element) :
  exists m av pr rp fl dn ht : list event,
    fst (report root) = (m ++ av ++ pr ++ rp ++ fl ++ dn ++ ht)%list
    /\ Forall (is_result "Analysis Metadata") m /\ length m <= 1
    /\ Forall (is_result "AV") av
    /\ Forall (is_result "Processes") pr
    /\ Forall (is_result "Running processes") rp
    /\ Forall (is_result "Flows") fl
    /\ Forall (is_result "DNS") dn
    /\ Forall (is_result "HTTP") ht.
Proof.
  destruct (report_log_parts root)
    as (m & av & pr & rp & fl & dn & ht & E & Hm & Lm & Hav & Hpr & Hrp & Hfl & Hdn & Hht).
  exists m, av, pr, rp, fl, dn, ht.
  repeat split; try assumption.
  - apply (Forall_impl _ (P := fun ev => exists proc, process_event proc ev)); [|exact Hpr].
    intros ev (proc & f & stats & _ & _ & ->). unfold is_result. eauto.
  - apply (Forall_impl _ (P := fun ev => exists flow, flow_event flow ev)); [|exact Hfl].
    intros ev (flow & a & b & c & d & e & f & _ & ->). unfold is_result. eauto.
Qed.

(** Every event of the report is a result of one of its kinds. *)
Lemma report_log_events (root : etree.Element) (ev : event) :
  In ev (fst (report root)) ->
  is_result "Analysis Metadata" ev \/ is_result "AV" ev
  \/ (exists proc, process_event proc ev)
  \/ is_result "Running processes" ev
  \/ (exists flow, flow_event flow ev)
  \/ is_result "DNS" ev \/ is_result "HTTP" ev.
Proof.
  destruct (report_log_parts root)
    as (m & av & pr & rp & fl & dn & ht & E & Hm & Lm & Hav & Hpr & Hrp & Hfl & Hdn & Hht).
  rewrite E, !in_app_iff. rewrite Forall_forall in *.
  intros [H|[H|[H|[H|[H|[H|H]]]]]]; eauto 10.
Qed.

(** Lines 119-125: a process element whose filename is empty is passed
    over before anything else is read from it, so it raises nothing even
    when it has no other attribute; and no result of the kind Processes
    ever has an empty name. *)
Theorem report_skips_unnamed_processes (root proc : etree.Element) :
  (etree.get (etree.attrib proc) "filename" = Some "" ->
   process_result proc = ([], inl tt))
  /\ (forall res data,
        In (Add_result "Processes" res data) (fst (report root)) ->
        exists filename, res = Some filename /\ filename <> "").
Proof.
  split.
  - intros H. unfold process_result, attr. rewrite H. reflexivity.
  - intros res data Hin. apply report_log_events in Hin.
    destruct Hin as [H|[H|[H|[H|[H|[H|H]]]]]];
      try (destruct H as (r & d & H); discriminate H).
    + destruct H as (p & f & stats & _ & Hne & H). injection H as -> _. eauto.
    + destruct H as (fl & a & b & c & d & e & f & _ & H). discriminate H.
Qed.

(** The translation of lines 231-236, case by case; the numbers 6 and 17
    never come out of it. *)
Lemma proto_of_cases (protocol : string) :
  (protocol = "6" -> proto_of protocol = "TCP")
  /\ (protocol = "17" -> proto_of protocol = "UDP")
  /\ (protocol <> "6" -> protocol <> "17" -> proto_of protocol = protocol)
  /\ proto_of protocol <> "6" /\ proto_of protocol <> "17".
Proof.
  unfold proto_of.
  destruct (String.eqb_spec protocol "6") as [E6|N6].
  { subst protocol. split; [intros _; reflexivity|]. split; [discriminate|].
    split; [intros H; exfalso; apply H; reflexivity|]. split; discriminate. }
  destruct (String.eqb_spec protocol "17") as [E17|N17].
  { subst protocol. split; [discriminate|]. split; [intros _; reflexivity|].
    split; [intros _ H; exfalso; apply H; reflexivity|]. split; discriminate. }
  split; [intros H; contradiction|]. split; [intros H; contradiction|].
  split; [intros _ _; reflexivity|]. split; assumption.
Qed.

(** The result that lines 221-241 build from one [flows] element: its
    name is the [dst_ip] attribute of the element and its dictionary
    holds four attributes of the element as they are and the [protocol]
    attribute translated. *)
Definition flow_fields (flow : etree.Element) (res : option string)
    (data : option (list (string * stat))) : Prop :=
  exists src_ip src_port dst_port bytes protocol dst_ip : string,
    etree.get (etree.attrib flow) "src_ip" = Some src_ip
    /\ etree.get (etree.attrib flow) "src_port" = Some src_port
    /\ etree.get (etree.attrib flow) "dst_port" = Some dst_port
    /\ etree.get (etree.attrib flow) "bytes" = Some bytes
    /\ etree.get (etree.attrib flow) "protocol" = Some protocol
    /\ etree.get (etree.attrib flow) "dst_ip" = Some dst_ip
    /\ res = Some dst_ip
    /\ data = Some [("Source IP", Str src_ip); ("Source Port", Str src_port);
                    ("Dest Port", Str dst_port); ("Bytes", Str bytes);
                    ("Protocol", Str (proto_of protocol))]
    /\ (protocol = "6" -> proto_of protocol = "TCP")
    /\ (protocol = "17" -> proto_of protocol = "UDP")
    /\ (protocol <> "6" -> protocol <> "17" -> proto_of protocol = protocol)
    /\ proto_of protocol <> "6" /\ proto_of protocol <> "17".

Ltac flow_fields_here :=
  unfold flow_fields; do 6 eexists;
  repeat (split; [first [eassumption | reflexivity]|]); apply proto_of_cases.

Lemma flow_result_log (flow : etree.Element) (ev : event) :
  In ev (fst (flow_result flow)) ->
  exists res data, ev = Add_result "Flows" res data /\ flow_fields flow res data.
Proof.
  unfold flow_result. repeat step_attr; cbn [fst];
    lazymatch goal with
    | |- In _ [] -> _ => intros []
    | _ => idtac
    end.
  intros [<-|[]]. do 2 eexists. split; [reflexivity | flow_fields_here].
Qed.

Lemma flow_result_ok (flow : etree.Element) :
  snd (flow_result flow) = inl tt ->
  exists res data,
    flow_fields flow res data /\ fst (flow_result flow) = [Add_result "Flows" res data].
Proof.
  unfold flow_result. repeat step_attr; cbn [fst snd]; try discriminate.
  intros _. do 2 eexists. split. 2: reflexivity. flow_fields_here.
Qed.

(** What a step has logged was logged by one pass of its loop. *)
Lemma for_each_in (X : Type) (l : list X) (body : X -> W unit) (ev : event) :
  In ev (fst (for_each l body)) ->
  exists x : X, In x l /\ In ev (fst (body x)).
Proof.
  induction l as [|x l IH]; cbn [for_each]; [intros []|].
  rewrite bindW_log. intros H. apply in_app_iff in H. destruct H as [H|H].
  - exists x. split; [now left | exact H].
  - destruct (snd (body x)); [|destruct H].
    destruct (IH H) as (y & Hy & Hev). exists y. split; [now right | exact Hev].
Qed.

(** A loop that returns has run every pass to its end. *)
Lemma for_each_ok (X : Type) (l : list X) (body : X -> W unit) :
  snd (for_each l body) = inl tt ->
  forall x : X, In x l ->
    snd (body x) = inl tt
    /\ (forall ev, In ev (fst (body x)) -> In ev (fst (for_each l body))).
Proof.
  induction l as [|y l IH]; intros Hok x Hin; [destruct Hin|].
  cbn [for_each] in *. rewrite bindW_out in Hok. rewrite bindW_log.
  destruct (snd (body y)) as [[]|e] eqn:Ey; [|discriminate Hok].
  destruct Hin as [<-|Hin].
  - split; [exact Ey|]. intros ev Hev. apply in_app_iff. now left.
  - destruct (IH Hok x Hin) as [Hx Hlog]. split; [exact Hx|].
    intros ev Hev. apply in_app_iff. right. now apply Hlog.
Qed.

Lemma seqW_in (m : W unit) (ms : list (W unit)) (ev : event) :
  In ev (fst (seqW m ms)) ->
  In ev (fst m) \/ exists mi : W unit, In mi ms /\ In ev (fst mi).
Proof.
  revert m. induction ms as [|m' r IH]; intros m; cbn [seqW]; [now left|].
  rewrite bindW_log. intros H. apply in_app_iff in H. destruct H as [H|H]; [now left|].
  right. destruct (snd m); [|destruct H].
  destruct (IH m' H) as [H'|(mi & Hmi & Hev)].
  - exists m'. split; [now left | exact H'].
  - exists mi. split; [now right | exact Hev].
Qed.

Lemma yields_in (n : nat) (P : event -> Prop) (m : W unit) (ev : event) :
  yields n P m -> In ev (fst m) -> P ev.
Proof.
  unfold yields. destruct (snd m).
  - intros [_ H] Hin. rewrite Forall_forall in H. now apply H.
  - intros -> [].
Qed.

(** The step of [report] that logged a result of the kind Flows is the
    loop over the [flows] elements. *)
Lemma report_flows_origin (root : etree.Element) (res : option string)
    (data : option (list (string * stat))) :
  In (Add_result "Flows" res data) (fst (report root)) ->
  In (Add_result "Flows" res data)
     (fst (for_each (etree.getiterator root "flows") flow_result)).
Proof.
  rewrite report_unfold, bindW_log. unfold attr.
  destruct (etree.get (etree.attrib root) "time") as [time|];
    cbn [fst snd ret raise app]; [|intros []].
  intros H. apply seqW_in in H. destruct H as [H|(mi & Hmi & H)].
  { destruct H as [H|[]]. discriminate H. }
  unfold report_steps in Hmi. cbn [In] in Hmi.
  destruct Hmi as [<-|[<-|[<-|[<-|[<-|[<-|[]]]]]]]; try exact H; exfalso;
    apply for_each_in in H; destruct H as (x & _ & H).
  - destruct (yields_in _ _ _ _ (av_result_yields x) H) as (r & d & E). discriminate E.
  - destruct (yields_in _ _ _ _ (process_result_yields x) H) as (f & st & _ & _ & E).
    discriminate E.
  - destruct (yields_in _ _ _ _ (running_process_result_yields x) H) as (r & d & E).
    discriminate E.
  - destruct (yields_in _ _ _ _ (dns_result_yields x) H) as (r & d & E). discriminate E.
  - destruct (yields_in _ _ _ _ (http_result_yields x) H) as (r & d & E). discriminate E.
Qed.

(** When [report] returns, the loop over the [flows] elements returned
    and what it logged is in the log. *)
Lemma report_ok_flows (root : etree.Element) :
  snd (report root) = inl tt ->
  snd (for_each (etree.getiterator root "flows") flow_result) = inl tt
  /\ (forall ev,
        In ev (fst (for_each (etree.getiterator root "flows") flow_result)) ->
        In ev (fst (report root))).
Proof.
  rewrite report_unfold, bindW_log, bindW_out. unfold attr.
  destruct (etree.get (etree.attrib root) "time") as [time|];
    cbn [fst snd ret raise app]; [|discriminate].
  intros Hok. destruct (seqW_ok _ _ Hok) as [E F]. rewrite E.
  unfold report_steps in *.
  repeat match goal with
         | H : Forall _ (_ :: _) |- _ => inversion H; subst; clear H
         | H : Forall _ [] |- _ => clear H
         end.
  split; [assumption|]. intros ev Hev.
  cbn [map concat]. rewrite !in_app_iff. do 4 right. now left.
Qed.

(** Lines 221-241: every result of the kind Flows in the log was built
    from a [flows] element of the report: it is named by the [dst_ip] of
    that element and carries its [src_ip], [src_port], [dst_port] and
    [bytes] as they are and its [protocol] translated, TCP for 6, UDP for
    17 and the attribute itself otherwise, so that the numbers 6 and 17
    are never reported.  When the report is processed to its end, every
    [flows] element of the tree has such a result in the log. *)
Theorem report_translates_protocols (root : etree.Element) :
  (forall (res : option string) (data : option (list (string * stat))),
     In (Add_result "Flows" res data) (fst (report root)) ->
     exists flow : etree.Element,
       In flow (etree.getiterator root "flows") /\ flow_fields flow res data)
  /\ (snd (report root) = inl tt ->
      forall flow : etree.Element,
        In flow (etree.getiterator root "flows") ->
        exists res data,
          flow_fields flow res data
          /\ In (Add_result "Flows" res data) (fst (report root))).
Proof.
  split.
  - intros res data Hin. apply report_flows_origin, for_each_in in Hin.
    destruct Hin as (flow & Hflow & Hev). exists flow. split; [exact Hflow|].
    destruct (flow_result_log flow _ Hev) as (r & d & E & Hf).
    injection E as -> ->. exact Hf.
  - intros Hok flow Hflow. destruct (report_ok_flows root Hok) as [Hloop Hlog].
    destruct (for_each_ok _ _ _ Hloop flow Hflow) as [Hbody Hsub].
    destruct (flow_result_ok flow Hbody) as (res & data & Hf & E).
    exists res, data. split; [exact Hf|].
    apply Hlog, Hsub. rewrite E. now left.
Qed.

(** Lines 109-257: when [report] returns, it has logged the analysis
    metadata and one result for every av, running_process, flows, dns and
    http element of the tree and for every process element with a
    non-empty filename. *)
Theorem report_counts_results (root : etree.Element) :
  snd (report root) = inl tt ->
  length (fst (report root))
  = 1 + length (etree.getiterator root "av")
    + length (filter named (etree.getiterator root "process"))
    + length (etree.getiterator root "running_process")
    + length (etree.getiterator root "flows")
    + length (etree.getiterator root "dns")
    + length (etree.getiterator root "http").
Proof.
  rewrite report_unfold, bindW_log, bindW_out. unfold attr.
  destruct (etree.get (etree.attrib root) "time") as [time|];
    cbn [fst snd ret raise app]; [|discriminate].
  intros Hok. destruct (seqW_ok _ _ Hok) as [E F]. rewrite E.
  pose proof (report_loops root) as L. unfold report_steps in *.
  repeat match goal with
         | H : Forall2 _ (_ :: _) _ |- _ => inversion H; subst; clear H
         | H : Forall2 _ [] _ |- _ => clear H
         | H : Forall _ (_ :: _) |- _ => inversion H; subst; clear H
         | H : Forall _ [] |- _ => clear H
         end.
  cbn [fst snd] in *.
  repeat match goal with
         | H : _ /\ (?a = inl tt -> _), H' : ?a = inl tt |- _ =>
             destruct H as [_ H]; specialize (H H')
         end.
  cbn [map concat emit fst]. rewrite !length_app. cbn [length]. lia.
Qed.

End ReportResults.

(** ** Properties of the whole scan *)

Section ScanProperties.

Local Open Scope string_scope.

Variable bz2_compress : list byte -> list byte.
Variable pefile_PE : list byte -> string + PE.
Variable config : list (string * string).
Variable HTTP_PROXY : option string.
Variable hmac_sha256_hexdigest : string -> string -> string.
Variable urlopen : string -> string + list byte.
Variable fromstring : list byte -> string + etree.Element.

(** The scan in this environment. *)
Definition run (data : list byte) : W unit :=
  scan bz2_compress pefile_PE config HTTP_PROXY hmac_sha256_hexdigest urlopen
    fromstring data.

(** The address that [_scan] asks Totalhash for. *)
Definition lookup_url (data : list byte) : string :=
  config_get config "th_query_url" ++ "/analysis/" ++ hashlib.hexdigest data
    ++ "&id=" ++ config_get config "th_user" ++ "&sign="
    ++ hmac_sha256_hexdigest (config_get config "th_api_key") (hashlib.hexdigest data).

(** What follows the request in the log. *)
Definition after_request (data : list byte) : list event :=
  match urlopen (lookup_url data) with
  | inl e =>
      [Logger_info ("Totalhash: network connection error (" ++ e ++ ")");
       Info ("Network connection error checking totalhash (" ++ e ++ ")")]
  | inr body =>
      match fromstring body with
      | inl e =>
          [Logger_error ("Totalhash: parse error (" ++ e ++ ")");
           Error ("Error parsing results: " ++ e)]
      | inr root => fst (report root)
      end
  end.

(** The log of a scan, path by path. *)
Lemma scan_log (data : list byte) :
  fst (run data)
  = match pefile_PE data with
    | inl e => [Error ("A PEFormatError occurred: " ++ e)]
    | inr pe =>
        match _get_pehash bz2_compress pe with
        | Raise _ => []
        | Ok output =>
            Add_result "PEhash value" (Some output) (Some [("Value", Str output)])
            :: (if String.eqb (config_get config "th_api_key") ""
                then [Add_result "Analysis Link"
                        (Some (config_get config "th_query_url" ++ "/analysis/"
                                 ++ hashlib.hexdigest data)) None;
                      Info "No API key, not checking Totalhash."]
                else
                  ((if truthy HTTP_PROXY
                    then [Install_opener
                            (match HTTP_PROXY with Some p => p | None => "" end)]
                    else [])
                     ++ Urlopen (lookup_url data) :: after_request data)%list)
        end
    end.
Proof.
  unfold run, scan, after_request, lookup_url. cbv zeta.
  destruct (pefile_PE data) as [e|pe]; [reflexivity|].
  destruct (_get_pehash bz2_compress pe) as [output|e]; [|reflexivity].
  destruct (String.eqb (config_get config "th_api_key") ""); [reflexivity|].
  destruct (truthy HTTP_PROXY);
    (destruct (urlopen _) as [e|body]; [reflexivity|];
     destruct (fromstring body) as [e|root]; [reflexivity|];
     destruct (report root) as [w r]; reflexivity).
Qed.

Lemma report_logs_results_only (root : etree.Element) (ev : event) :
  In ev (fst (report root)) ->
  exists subtype res data,
    ev = Add_result subtype res data
    /\ subtype <> "Analysis Link" /\ subtype <> "PEhash value".
Proof.
  intros H. apply report_log_events in H.
  destruct H as [H|[H|[H|[H|[H|[H|H]]]]]].
  1,2,4,6,7: destruct H as (r & d & ->); do 3 eexists;
    (split; [reflexivity | split; discriminate]).
  - destruct H as (p & f & stats & _ & _ & ->). do 3 eexists.
    split; [reflexivity | split; discriminate].
  - destruct H as (fl & a & b & c & d & e & f & _ & ->). do 3 eexists.
    split; [reflexivity | split; discriminate].
Qed.

Lemma after_request_events (data : list byte) (ev : event) :
  In ev (after_request data) ->
  (forall u, ev <> Urlopen u)
  /\ (forall res d, ev <> Add_result "Analysis Link" res d).
Proof.
  unfold after_request.
  destruct (urlopen _) as [e|body]; [|destruct (fromstring body) as [e|root]].
  - intros [<-|[<-|[]]]; split; intros; discriminate.
  - intros [<-|[<-|[]]]; split; intros; discriminate.
  - intros H. destruct (report_logs_results_only root ev H) as (st & r & d & -> & Hl & _).
    split; intros; [discriminate|]. intros E. injection E as -> _ _. now apply Hl.
Qed.

(** Lines 62-99: Totalhash is asked only when the image parses, its
    PEhash is computed and an API key is configured; then it is asked
    once, for the query URL followed by [/analysis/], the SHA-1 of the
    file, [&id=], the user, [&sign=] and the HMAC of that SHA-1. *)
Theorem scan_asks_totalhash_iff (data : list byte) (u : string) :
  (In (Urlopen u) (fst (run data))
   <-> (exists pe output,
           pefile_PE data = inr pe
           /\ _get_pehash bz2_compress pe = Ok output
           /\ config_get config "th_api_key" <> "")
       /\ u = lookup_url data)
  /\ length (filter (fun ev => match ev with Urlopen _ => true | _ => false end)
               (fst (run data))) <= 1.
Proof.
  rewrite scan_log.
  assert (A : forall ev, In ev (after_request data) -> forall v, ev <> Urlopen v).
  { intros ev H. apply (after_request_events data ev H). }
  assert (F : filter (fun ev => match ev with Urlopen _ => true | _ => false end)
                (after_request data) = []).
  { induction (after_request data) as [|ev l IH]; [reflexivity|].
    cbn [filter]. destruct ev as [st r d|m|m|m|m|p|v];
      try (apply IH; intros; apply A; now right).
    exfalso. apply (A _ (or_introl eq_refl) v). reflexivity. }
  destruct (pefile_PE data) as [e|pe] eqn:Ep.
  { split; [|cbn; lia]. split.
    - intros [H|[]]. discriminate H.
    - intros [(pe & o & H & _) _]. discriminate H. }
  destruct (_get_pehash bz2_compress pe) as [output|e] eqn:Eg.
  2:{ split; [|cbn; lia]. split.
      - intros [].
      - intros [(pe' & o & H1 & H2 & _) _]. congruence. }
  destruct (String.eqb_spec (config_get config "th_api_key") "") as [Hk|Hk].
  { split; [|cbn; lia]. split.
    - intros [H|[H|[H|[]]]]; discriminate H.
    - intros [(pe' & o & _ & _ & H) _]. contradiction. }
  split.
  - split.
    + intros [H|H]; [discriminate H|]. apply in_app_iff in H.
      destruct H as [H|[H|H]].
      * destruct (truthy HTTP_PROXY); [destruct H as [H|[]]; discriminate H | destruct H].
      * injection H as <-. split; [|reflexivity]. exists pe, output. auto.
      * exfalso. exact (A _ H u eq_refl).
    + intros [_ ->]. right. apply in_app_iff. right. now left.
  - cbn [filter]. rewrite filter_app. cbn [filter]. rewrite F.
    destruct (truthy HTTP_PROXY); cbn; lia.
Qed.


Lemma get_pehash_shape (exe : PE) (output : string) :
  _get_pehash bz2_compress exe = Ok output ->
  String.length output = 40 /\ string_forallb lower_hex output = true.
Proof.
  unfold _get_pehash. destruct (pehash_bin bz2_compress exe) as [bits|e]; cbn [bind];
    [|discriminate].
  intros H. apply Ok_inj in H. subst output. apply hexdigest_shape.
Qed.

(** Lines 62-68 and 336: no result is logged unless the image parses and
    its PEhash is computed, and then the first event of the log is the
    result PEhash value, forty lowercase hex characters; when the fold
    raises, nothing at all is logged. *)
Theorem scan_reports_the_pehash_first (data : list byte) (subtype : string)
    (res : option string) (d : option (list (string * stat))) :
  In (Add_result subtype res d) (fst (run data)) ->
  exists pe output,
    pefile_PE data = inr pe
    /\ _get_pehash bz2_compress pe = Ok output
    /\ hd_error (fst (run data))
       = Some (Add_result "PEhash value" (Some output) (Some [("Value", Str output)]))
    /\ String.length output = 40
    /\ string_forallb lower_hex output = true.
Proof.
  rewrite scan_log.
  destruct (pefile_PE data) as [e|pe] eqn:Ep.
  { intros [H|[]]. discriminate H. }
  destruct (_get_pehash bz2_compress pe) as [output|e] eqn:Eg; [|intros []].
  intros _. exists pe, output.
  split; [reflexivity|]. split; [exact Eg|]. split; [reflexivity|].
  exact (get_pehash_shape pe output Eg).
Qed.

(** Lines 79-82: the result Analysis Link is logged exactly when the
    PEhash is computed and no API key is configured, and it is the query
    URL followed by [/analysis/] and the SHA-1 of the file. *)
Theorem scan_links_without_a_key (data : list byte) (res : option string)
    (d : option (list (string * stat))) :
  In (Add_result "Analysis Link" res d) (fst (run data))
  <-> (exists pe output,
          pefile_PE data = inr pe /\ _get_pehash bz2_compress pe = Ok output)
      /\ config_get config "th_api_key" = ""
      /\ res = Some (config_get config "th_query_url" ++ "/analysis/"
                       ++ hashlib.hexdigest data)
      /\ d = None.
Proof.
  rewrite scan_log.
  destruct (pefile_PE data) as [e|pe] eqn:Ep.
  { split.
    - intros [H|[]]. discriminate H.
    - intros ((pe & o & H & _) & _). discriminate H. }
  destruct (_get_pehash bz2_compress pe) as [output|e] eqn:Eg.
  2:{ split; [intros [] | intros ((pe' & o & H1 & H2) & _); congruence]. }
  destruct (String.eqb_spec (config_get config "th_api_key") "") as [Hk|Hk].
  - split.
    + intros [H|[H|[H|[]]]]; try discriminate H.
      injection H as <- <-. repeat split; try assumption. exists pe, output. auto.
    + intros (_ & _ & -> & ->). right. now left.
  - split; [|intros (_ & H & _); contradiction].
    intros [H|H]; [discriminate H|]. apply in_app_iff in H.
    destruct H as [H|[H|H]].
    + destruct (truthy HTTP_PROXY); [destruct H as [H|[]]; discriminate H | destruct H].
    + discriminate H.
    + exfalso. exact (proj2 (after_request_events data _ H) res d eq_refl).
Qed.

End ScanProperties.

(** ** A sample report and a sample service *)

Section Samples.

Local Open Scope string_scope.

Definition sample_report : etree.Element :=
  etree.Node "analysis" [("version", "0.3"); ("time", "2014-05-01 12:00:00")] None
    [etree.Node "static" [] None
       [etree.Node "av"
          [("scanner", "clamav"); ("timestamp", "2014-05-01"); ("signature", "Trojan.Agent")]
          None []];
     etree.Node "calltree" [] None
       [etree.Node "process_call" [("filename", "sample.exe")] None []];
     etree.Node "processes" [] None
       [etree.Node "process" [("filename", "")] None [];
        etree.Node "process" [("filename", "sample.exe"); ("pid", "1234")] None
          [etree.Node "dll_handling_section" [] None
             [etree.Node "load_dll" [("filename", "kernel32.dll")] None [];
              etree.Node "load_dll" [("filename", "ws2_32.dll")] None []];
           etree.Node "filesystem_section" [] None
             [etree.Node "delete_file" [("srcfile", "a.tmp")] None [];
              etree.Node "create_file" [("srcfile", "b.dll")] None []]]];
     etree.Node "running_processes" [] None
       [etree.Node "running_process"
          [("pid", "4"); ("ppid", "0"); ("filename", "System")] None []];
     etree.Node "network_pcap" [] None
       [etree.Node "dns" [("type", "A"); ("rr", "example.org")] None [];
        etree.Node "flows"
          [("src_ip", "10.0.0.2"); ("src_port", "1025"); ("dst_ip", "10.0.0.1");
           ("dst_port", "80"); ("bytes", "512"); ("protocol", "6")] None [];
        etree.Node "http" [("user_agent", "Mozilla"); ("type", "GET")]
          (Some "http://example.org/") []]].

(** A service with no API key, on a file that parses as the image of the
    end-to-end scenario. *)
Definition sample_config : list (string * string) :=
  [("th_query_url", "https://api.totalhash.com/search")].

Definition sample_run (data : list byte) : W unit :=
  scan bz2_on_empty (fun _ => inr scenario) sample_config None
    (fun _ _ => "") (fun _ => inl "unreachable") (fun _ => inl "no report") data.

End Samples.

Lemma report_translates_protocols_witness :
  (exists flow : etree.Element,
      In flow (etree.getiterator sample_report "flows")
      /\ flow_fields flow (Some "10.0.0.1"%string)
           (Some [("Source IP"%string, Str "10.0.0.2");
                  ("Source Port"%string, Str "1025");
                  ("Dest Port"%string, Str "80"); ("Bytes"%string, Str "512");
                  ("Protocol"%string, Str "TCP")]))
  /\ (forall flow : etree.Element,
        In flow (etree.getiterator sample_report "flows") ->
        exists res data,
          flow_fields flow res data
          /\ In (Add_result "Flows" res data) (fst (report sample_report))).
Proof.
  split.
  - apply (proj1 (report_translates_protocols sample_report)).
    vm_compute. repeat (first [left; reflexivity | right]).
  - apply (proj2 (report_translates_protocols sample_report)). reflexivity.
Defined.

Lemma report_counts_results_witness :
  length (fst (report sample_report))
  = 1 + length (etree.getiterator sample_report "av")
    + length (filter named (etree.getiterator sample_report "process"))
    + length (etree.getiterator sample_report "running_process")
    + length (etree.getiterator sample_report "flows")
    + length (etree.getiterator sample_report "dns")
    + length (etree.getiterator sample_report "http").
Proof. apply (report_counts_results sample_report). reflexivity. Defined.

Lemma scan_reports_the_pehash_first_witness :
  exists pe output,
    @inr string PE scenario = inr pe
    /\ _get_pehash bz2_on_empty pe = Ok output
    /\ hd_error (fst (sample_run []))
       = Some (Add_result "PEhash value" (Some output)
                 (Some [("Value"%string, Str output)]))
    /\ String.length output = 40
    /\ string_forallb lower_hex output = true.
Proof.
  apply (scan_reports_the_pehash_first bz2_on_empty (fun _ => inr scenario)
           sample_config None (fun _ _ => ""%string) (fun _ => inl "unreachable"%string)
           (fun _ => inl "no report"%string) []
           "Analysis Link"%string
           (Some "https://api.totalhash.com/search/analysis/da39a3ee5e6b4b0d3255bfef95601890afd80709"%string)
           None).
  vm_compute. right. left. reflexivity.
Defined.

(** ** The exceptions of the report *)

(** Induction on an element with the property of its children at hand. *)
Section ElementInduction.

Variable P : etree.Element -> Prop.
Hypothesis step :
  forall t a x cs, Forall P cs -> P (etree.Node t a x cs).

Fixpoint Element_children_ind (e : etree.Element) : P e :=
  match e with
  | etree.Node t a x cs =>
      step t a x cs
        ((fix children_ind (l : list etree.Element) : Forall P l :=
            match l with
            | [] => Forall_nil P
            | c :: r => Forall_cons c (Element_children_ind c) (children_ind r)
            end) cs)
  end.

End ElementInduction.

Lemma iter_self (e : etree.Element) : In e (etree.iter e).
Proof. destruct e. now left. Qed.

Lemma iter_child (e c x : etree.Element) :
  In c (etree.children e) -> In x (etree.iter c) -> In x (etree.iter e).
Proof.
  destruct e as [t a txt cs]. cbn [etree.children etree.iter]. intros Hc Hx.
  right. apply in_flat_map. now exists c.
Qed.

(** The elements of the subtree of an element of the tree are elements of
    the tree. *)
Lemma iter_trans (z y x : etree.Element) :
  In y (etree.iter z) -> In x (etree.iter y) -> In x (etree.iter z).
Proof.
  revert y x. induction z as [t a txt cs IH] using Element_children_ind.
  intros y x Hy Hx. cbn [etree.iter] in Hy. destruct Hy as [<-|Hy]; [exact Hx|].
  apply in_flat_map in Hy. destruct Hy as (c & Hc & Hy).
  rewrite Forall_forall in IH.
  apply (iter_child (etree.Node t a txt cs) c x Hc). exact (IH c Hc y x Hy Hx).
Qed.

Lemma getiterator_in (root e : etree.Element) (t : string) :
  In e (etree.getiterator root t) -> In e (etree.iter root) /\ etree.tag e = t.
Proof.
  unfold etree.getiterator. intros H. apply filter_In in H. destruct H as [Hin Ht].
  split; [exact Hin | now apply String.eqb_eq].
Qed.

Lemma findall_in (e c : etree.Element) (a b : string) :
  In c (etree.findall e a b) -> In c (etree.iter e) /\ etree.tag c = b.
Proof.
  unfold etree.findall, etree.find_children. intros H.
  apply in_flat_map in H. destruct H as (s & Hs & Hc).
  apply filter_In in Hs. destruct Hs as [Hs _].
  apply filter_In in Hc. destruct Hc as [Hc Ht].
  split; [|now apply String.eqb_eq].
  apply (iter_child e s c Hs), (iter_child s c c Hc), iter_self.
Qed.

Section ReportErrors.

Local Open Scope string_scope.

(** The attributes that [report] reads with [attrib[...]], each with the
    tag of the elements it is read from.  The [ip] of a [dns] element,
    read with [attrib.get], is not one of them. *)
Definition required_attributes : list (string * string) :=
  [("av", "scanner"); ("av", "timestamp"); ("av", "signature");
   ("process", "filename"); ("process", "pid");
   ("load_dll", "filename");
   ("create_file", "srcfile"); ("delete_file", "srcfile");
   ("create_process", "cmdline"); ("create_process", "targetpid");
   ("open_process", "targetpid"); ("open_process", "apifunction");
   ("getaddrinfo", "requested_host");
   ("create_mutex", "name");
   ("set_windows_hook", "hookid");
   ("set_value", "key"); ("set_value", "value");
   ("create_service", "displayname"); ("create_service", "imagepath");
   ("start_service", "displayname");
   ("check_for_debugger", "apifunction");
   ("running_process", "pid"); ("running_process", "ppid");
   ("running_process", "filename");
   ("flows", "src_ip"); ("flows", "src_port"); ("flows", "dst_port");
   ("flows", "bytes"); ("flows", "protocol"); ("flows", "dst_ip");
   ("dns", "type"); ("dns", "rr");
   ("http", "user_agent"); ("http", "type")].

(** [key] is read from [e] with [attrib[...]]: the [time] of the root,
    or an attribute required of the elements with the tag of [e]. *)
Definition required_of (root e : etree.Element) (key : string) : Prop :=
  (e = root /\ key = "time") \/ In (etree.tag e, key) required_attributes.

(** The [KeyError] of a required attribute that an element of the tree
    lacks. *)
Definition missing (root : etree.Element) (x : uncaught) : Prop :=
  exists (key : string) (e : etree.Element),
    x = KeyError key
    /\ In e (etree.iter root)
    /\ etree.get (etree.attrib e) key = None
    /\ required_of root e key.

Definition raises_missing (root : etree.Element) {A : Type} (m : W A) : Prop :=
  forall x : uncaught, snd m = inr x -> missing root x.

Variable root : etree.Element.

Lemma rm_ret (A : Type) (a : A) : raises_missing root (ret a).
Proof. intros x H. discriminate H. Qed.

Lemma rm_emit (ev : event) : raises_missing root (emit ev).
Proof. intros x H. discriminate H. Qed.

Lemma rm_attr (e : etree.Element) (key : string) :
  In e (etree.iter root) -> required_of root e key ->
  raises_missing root (attr e key).
Proof.
  intros He Hk x. unfold attr.
  destruct (etree.get (etree.attrib e) key) eqn:E; [discriminate|].
  intros H. injection H as <-. exists key, e. auto.
Qed.

Lemma rm_bind (A B : Type) (m : W A) (k : A -> W B) :
  raises_missing root m -> (forall a, raises_missing root (k a)) ->
  raises_missing root (bindW m k).
Proof.
  intros Hm Hk x. rewrite bindW_out.
  destruct (snd m) as [a|e] eqn:E; [apply Hk|].
  intros H. injection H as <-. now apply Hm.
Qed.

Lemma rm_collect (X Y : Type) (l : list X) (f : X -> W Y) :
  (forall x, In x l -> raises_missing root (f x)) ->
  raises_missing root (collect l f).
Proof.
  induction l as [|x l IH]; intros Hf; cbn [collect]; [apply rm_ret|].
  apply rm_bind; [apply Hf; now left|]. intros y.
  apply rm_bind; [apply IH; intros z Hz; apply Hf; now right|].
  intros ys. apply rm_ret.
Qed.

Lemma rm_for_each (X : Type) (l : list X) (body : X -> W unit) :
  (forall x, In x l -> raises_missing root (body x)) ->
  raises_missing root (for_each l body).
Proof.
  induction l as [|x l IH]; intros Hb; cbn [for_each]; [apply rm_ret|].
  apply rm_bind; [apply Hb; now left|]. intros _.
  apply IH. intros z Hz. apply Hb. now right.
Qed.

(** An element of a loop of [report] over the tree, and an element of a
    loop of [process_result] over the subtree of a process. *)
Ltac in_tree :=
  first [ apply iter_self | assumption | eapply iter_trans; eassumption ].

Ltac required :=
  unfold required_of;
  first
    [ left; split; reflexivity
    | right;
      match goal with
      | T : etree.tag ?e = _ |- In (etree.tag ?e, _) _ => rewrite T
      end;
      cbn [In required_attributes]; repeat (first [left; reflexivity | right]) ].

Ltac rm :=
  repeat first
    [ apply rm_ret | apply rm_emit
    | apply rm_attr; [in_tree | required]
    | apply rm_collect;
      let c := fresh "c" in let H := fresh "H" in
      intros c H; apply findall_in in H; destruct H
    | apply rm_for_each;
      let e := fresh "e" in let H := fresh "H" in
      intros e H; apply getiterator_in in H; destruct H
    | apply rm_bind; [|intro]
    | match goal with
      | |- raises_missing _ (if ?b then _ else _) => destruct b
      end
    | progress cbv zeta ].

Lemma report_raises_missing : raises_missing root (report root).
Proof.
  unfold report, av_result, process_result, running_process_result, flow_result,
    dns_result, http_result. rm.
Qed.

(** Lines 109-257: the only exception of the processing of the report is
    a [KeyError], and it names an attribute that some element of the
    report lacks and that is required of it: the [time] of the root, or
    one of the attributes read with [attrib[...]] from the elements with
    the tag of that element.  The [ip] of a [dns] element, read with a
    default, is never the key. *)
Theorem report_raises_only_missing_attributes (x : uncaught) :
  snd (report root) = inr x ->
  exists (key : string) (e : etree.Element),
    x = KeyError key
    /\ In e (etree.iter root)
    /\ etree.get (etree.attrib e) key = None
    /\ ((e = root /\ key = "time") \/ In (etree.tag e, key) required_attributes)
    /\ key <> "ip".
Proof.
  intros H. destruct (report_raises_missing x H) as (key & e & -> & Hin & Hget & Hreq).
  exists key, e. repeat split; try assumption.
  intros ->. destruct Hreq as [[_ Hk]|Hk]; [discriminate Hk|].
  cbn [In required_attributes] in Hk.
  repeat (destruct Hk as [Hk|Hk]; [discriminate Hk|]). exact Hk.
Qed.

End ReportErrors.

(** A report whose one [av] element has no [signature]. *)
Definition unsigned_report : etree.Element :=
  etree.Node "analysis" [("time"%string, "2014-05-01"%string)] None
    [etree.Node "av" [("scanner"%string, "clamav"%string);
                      ("timestamp"%string, "2014-05-01"%string)] None []].

Lemma report_raises_only_missing_attributes_witness :
  exists (key : string) (e : etree.Element),
    KeyError "signature" = KeyError key
    /\ In e (etree.iter unsigned_report)
    /\ etree.get (etree.attrib e) key = None
    /\ ((e = unsigned_report /\ key = "time"%string)
        \/ In (etree.tag e, key) required_attributes)
    /\ key <> "ip"%string.
Proof.
  apply (report_raises_only_missing_attributes unsigned_report (KeyError "signature")).
  reflexivity.
Defined.

(** ** The two embeddings of [_scan] agree

    [_scan] above stops after [_get_pehash] (lines 62-68); [scan] goes on
    to the lookup.  On the lines they share they do the same. *)

Lemma scan_agrees_with__scan (bz2_compress : list byte -> list byte)
    (pefile_PE : list byte -> string + PE) (config : list (string * string))
    (HTTP_PROXY : option string) (hmac_sha256_hexdigest : string -> string -> string)
    (urlopen : string -> string + list byte)
    (fromstring : list byte -> string + etree.Element) (data : list byte) :
  let run :=
    scan bz2_compress pefile_PE config HTTP_PROXY hmac_sha256_hexdigest urlopen
      fromstring data in
  match _scan bz2_compress
          (match pefile_PE data with inl _ => PEFormatError | inr pe => Parsed pe end)
  with
  | Error_reported =>
      exists e, run = ([Error ("A PEFormatError occurred: " ++ e)], inl tt)
  | PEhash_value output =>
      hd_error (fst run)
      = Some (Add_result "PEhash value" (Some output)
                (Some [("Value"%string, Str output)]))
  | Uncaught e => run = ([], inr (Fold e))
  end.
Proof.
  intros run. subst run. unfold scan, _scan.
  destruct (pefile_PE data) as [e|pe]; [exists e; reflexivity|].
  destruct (_get_pehash bz2_compress pe) as [output|e]; [|reflexivity].
  rewrite bindW_log. reflexivity.
Qed.
